(** * PangDetector: the streaming return-sweep detector of easy-seeso.js

    A shallow embedding of [class PangDetector] (constructor, [lockLayout],
    [process], [reset], [_updateLineFromGaze]) and the properties of its
    trigger gate.

    Numbers.  A JavaScript number is modelled as [num = option Q]:
    [Some q] is the finite value [q], taken exactly, and [None] is [NaN]
    (also what [undefined], the result of an out-of-range typed-array read,
    becomes in arithmetic).  Every comparison with [NaN] is false, as in
    JavaScript.  Rounding and the two infinities are outside the model.

    Effects.  The detector's fields are a record threaded through each
    method; the typed arrays it only holds a reference to are passed to
    [process] as they are at the time of the call; the [onPang] callback is
    the optional event returned by [process].

    Around the detector.  The development then follows the detector into the
    code that drives it: the sample ring and the reading screen of the game
    ([_onGaze], [_startReading], [_lockLayout], [_onPang], [_destroyReading],
    the statistics of [showQuiz]), the calibration dot, the text train of the
    earlier reading screen, the bounded log store of [MemoryLogger] and the
    level loop of [MemoryStressTester], whose timeouts are events of a step
    function. *)

From Stdlib Require Import String ZArith QArith Qabs Qround List Sorted Bool Lia Lqa.
Import ListNotations.

Local Open Scope Q_scope.

(** ** JavaScript numbers *)

Module Num.

Definition num : Type := option Q.

Definition NaN : num := None.

Definition lift2 (f : Q -> Q -> Q) (a b : num) : num :=
  match a, b with
  | Some x, Some y => Some (f x y)
  | _, _ => None
  end.

Definition add : num -> num -> num := lift2 Qplus.
Definition sub : num -> num -> num := lift2 Qminus.
Definition mul : num -> num -> num := lift2 Qmult.

(** [a / b]; a zero divisor would give an infinity or [NaN], which the
    model does not tell apart: [process] divides by positive deltas only
    (see [velocity_divisor_positive]). *)
Definition div (a b : num) : num :=
  match a, b with
  | Some x, Some y => if Qeq_bool y 0 then None else Some (x / y)
  | _, _ => None
  end.

(** [Math.abs] *)
Definition abs (a : num) : num := option_map Qabs a.

Definition Qlt_bool (x y : Q) : bool := negb (Qle_bool y x).

(** [a < b], [a <= b], [a > b], [a >= b] *)
Definition ltb (a b : num) : bool :=
  match a, b with Some x, Some y => Qlt_bool x y | _, _ => false end.
Definition leb (a b : num) : bool :=
  match a, b with Some x, Some y => Qle_bool x y | _, _ => false end.
Definition gtb (a b : num) : bool := ltb b a.
Definition geb (a b : num) : bool := leb b a.

(** [!a] for a number: zero and [NaN] are falsy. *)
Definition falsy (a : num) : bool :=
  match a with Some x => Qeq_bool x 0 | None => true end.

(** Equality of values: [NaN] only with [NaN], rationals up to [==]. *)
Definition equiv (a b : num) : Prop :=
  match a, b with
  | Some x, Some y => x == y
  | None, None => True
  | _, _ => False
  end.

Definition is_number (a : num) : Prop := a <> None.

End Num.

Import Num.

Declare Scope num_scope.
Delimit Scope num_scope with num.
Bind Scope num_scope with num.
Notation "a + b" := (add a b) : num_scope.
Notation "a - b" := (sub a b) : num_scope.
Notation "a * b" := (mul a b) : num_scope.
Notation "a / b" := (div a b) : num_scope.
Notation "a <? b" := (ltb a b) (at level 70) : num_scope.
Notation "a <=? b" := (leb a b) (at level 70) : num_scope.
Notation "a >? b" := (gtb a b) (at level 70) : num_scope.
Notation "a >=? b" := (geb a b) (at level 70) : num_scope.
Notation "a === b" := (equiv a b) (at level 70) : type_scope.

(** Numeric literals of the source. *)
Definition n0 : num := Some 0.
Definition c0_5 : num := Some (1 # 2).
Definition c0_3 : num := Some (3 # 10).
Definition c0_2 : num := Some (2 # 10).
Definition depthThreshold : num := Some (- (4 # 10)).   (* -0.4 *)
Definition cooldownMs : num := Some 500.
Definition cascadeWindowMs : num := Some 600.

(** ** Typed arrays and the ring-buffer index *)

(** JavaScript's [%] on integers: the remainder takes the sign of the
    dividend; [a % 0] is [NaN], used as an index it reads [undefined]. *)
Definition js_rem (a n : Z) : option Z :=
  if (n =? 0)%Z then None else Some (Z.rem a n).

(** [buf[i]] on a typed array, coerced to a number: [undefined] (index
    negative, not an integer, or past the end) becomes [NaN]. *)
Definition rd (buf : list num) (i : option Z) : num :=
  match i with
  | Some z => if (z <? 0)%Z then NaN
              else match nth_error buf (Z.to_nat z) with
                   | Some v => v
                   | None => NaN
                   end
  | None => NaN
  end.

(** ** Detector state *)

Record Detector : Type := mkDetector {
  _N : Z;
  _sx1 : num;
  _sx2 : num;
  _vx2 : num;
  _lastPeakTime : num;
  _lastTriggerTime : num;
  _maxLineReached : Z;
  _firstContentTime : num;
  _lineYs : option (list num);
  _lineHalf : num;
  _lineCount : nat;
  _currentLine : option nat;
  _lastLineChangeT : num
}.

Definition set_sx1 (d : Detector) (v : num) : Detector :=
  mkDetector (_N d) v (_sx2 d) (_vx2 d) (_lastPeakTime d) (_lastTriggerTime d)
    (_maxLineReached d) (_firstContentTime d) (_lineYs d) (_lineHalf d)
    (_lineCount d) (_currentLine d) (_lastLineChangeT d).

Definition set_sx2 (d : Detector) (v : num) : Detector :=
  mkDetector (_N d) (_sx1 d) v (_vx2 d) (_lastPeakTime d) (_lastTriggerTime d)
    (_maxLineReached d) (_firstContentTime d) (_lineYs d) (_lineHalf d)
    (_lineCount d) (_currentLine d) (_lastLineChangeT d).

Definition set_vx2 (d : Detector) (v : num) : Detector :=
  mkDetector (_N d) (_sx1 d) (_sx2 d) v (_lastPeakTime d) (_lastTriggerTime d)
    (_maxLineReached d) (_firstContentTime d) (_lineYs d) (_lineHalf d)
    (_lineCount d) (_currentLine d) (_lastLineChangeT d).

Definition set_lastPeakTime (d : Detector) (v : num) : Detector :=
  mkDetector (_N d) (_sx1 d) (_sx2 d) (_vx2 d) v (_lastTriggerTime d)
    (_maxLineReached d) (_firstContentTime d) (_lineYs d) (_lineHalf d)
    (_lineCount d) (_currentLine d) (_lastLineChangeT d).

Definition set_lastTriggerTime (d : Detector) (v : num) : Detector :=
  mkDetector (_N d) (_sx1 d) (_sx2 d) (_vx2 d) (_lastPeakTime d) v
    (_maxLineReached d) (_firstContentTime d) (_lineYs d) (_lineHalf d)
    (_lineCount d) (_currentLine d) (_lastLineChangeT d).

Definition set_maxLineReached (d : Detector) (v : Z) : Detector :=
  mkDetector (_N d) (_sx1 d) (_sx2 d) (_vx2 d) (_lastPeakTime d)
    (_lastTriggerTime d) v (_firstContentTime d) (_lineYs d) (_lineHalf d)
    (_lineCount d) (_currentLine d) (_lastLineChangeT d).

Definition set_line (d : Detector) (i : nat) (t : num) : Detector :=
  mkDetector (_N d) (_sx1 d) (_sx2 d) (_vx2 d) (_lastPeakTime d)
    (_lastTriggerTime d) (_maxLineReached d) (_firstContentTime d)
    (_lineYs d) (_lineHalf d) (_lineCount d) (Some i) t.

(** ** The methods *)

(** [constructor(gxBuf, gyBuf, gtBuf, bufSize, onPang)]: the three arrays
    and the callback are references held, not state. *)
Definition constructor (bufSize : Z) : Detector :=
  {| _N := bufSize;
     _sx1 := n0; _sx2 := n0; _vx2 := n0;
     _lastPeakTime := n0;
     _lastTriggerTime := n0;
     _maxLineReached := (-1)%Z;
     _firstContentTime := n0;
     _lineYs := None; _lineHalf := n0; _lineCount := O;
     _currentLine := None;
     _lastLineChangeT := n0 |}.

(** [lockLayout(lineYs, lineHalfH)]; [perfNow] is what [performance.now()]
    returns during the call. *)
Definition lockLayout (d : Detector) (lineYs : list num) (lineHalfH : num)
    (perfNow : num) : Detector :=
  {| _N := _N d;
     _sx1 := n0; _sx2 := n0; _vx2 := n0;
     _lastPeakTime := n0;
     _lastTriggerTime := n0;
     _maxLineReached := (-1)%Z;
     _firstContentTime := perfNow;
     _lineYs := Some lineYs; _lineHalf := lineHalfH;
     _lineCount := length lineYs;
     _currentLine := None;
     _lastLineChangeT := n0 |}.

(** [reset()]: [_lineHalf] is the one layout field it leaves as it is. *)
Definition reset (d : Detector) : Detector :=
  {| _N := _N d;
     _sx1 := n0; _sx2 := n0; _vx2 := n0;
     _lastPeakTime := n0;
     _lastTriggerTime := n0;
     _maxLineReached := (-1)%Z;
     _firstContentTime := n0;
     _lineYs := None; _lineHalf := _lineHalf d; _lineCount := O;
     _currentLine := None;
     _lastLineChangeT := n0 |}.

(** The band test of the hit-test loop:
    [gazeY >= ys[i] - half && gazeY <= ys[i] + half]. *)
Definition in_band (gazeY yi half : num) : bool :=
  ((gazeY >=? yi - half) && (gazeY <=? yi + half))%num.

(** The [for] loop of [_updateLineFromGaze], from index [i] with [k]
    iterations left: the index at which it returns early, if it does. *)
Fixpoint scan_from (ys : list num) (half gazeY : num) (i k : nat)
    : option nat :=
  match k with
  | O => None
  | S k' =>
      if in_band gazeY (rd ys (Some (Z.of_nat i))) half then Some i
      else scan_from ys half gazeY (S i) k'
  end.

Definition line_eqb (i : nat) (cur : option nat) : bool :=
  match cur with Some j => Nat.eqb i j | None => false end.

(** [_updateLineFromGaze(gazeY, t)] *)
Definition _updateLineFromGaze (d : Detector) (gazeY t : num) : Detector :=
  match _lineYs d with
  | None => d
  | Some ys =>
      if Nat.eqb (_lineCount d) 0 then d
      else match scan_from ys (_lineHalf d) gazeY 0 (_lineCount d) with
           | Some i =>
               if line_eqb i (_currentLine d) then d else set_line d i t
           | None => d
           end
  end.

(** The three typed arrays the detector reads ([_gx], [_gy], [_gt]), as
    they are when [process] is called. *)
Record Buffers : Type := mkBuffers {
  _gx : list num;
  _gy : list num;
  _gt : list num
}.

(** The seven values [process] reads from the arrays: the constants
    [t0 t1 t2 x0 x1 x2 y0] of its first lines. *)
Record Frame : Type := mkFrame {
  t0 : num; t1 : num; t2 : num;
  x0 : num; x1 : num; x2 : num;
  y0 : num
}.

Definition read_frame (N : Z) (b : Buffers) (gIdx : Z) : Frame :=
  let i0 := js_rem (gIdx - 1 + N) N in
  let i1 := js_rem (gIdx - 2 + N) N in
  let i2 := js_rem (gIdx - 3 + N) N in
  {| t0 := rd (_gt b) i0; t1 := rd (_gt b) i1; t2 := rd (_gt b) i2;
     x0 := rd (_gx b) i0; x1 := rd (_gx b) i1; x2 := rd (_gx b) i2;
     y0 := rd (_gy b) i0 |}.

(** [sx0 = x0 * 0.5 + x1 * 0.3 + x2 * 0.2] *)
Definition smoothX (f : Frame) : num :=
  (x0 f * c0_5 + x1 f * c0_3 + x2 f * c0_2)%num.

(** [dt > 0 ? (xa - xb) / dt : 0.0] *)
Definition velocity (xa xb dt : num) : num :=
  if (dt >? n0)%num then ((xa - xb) / dt)%num else n0.

Definition vx0_of (f : Frame) : num := velocity (x0 f) (x1 f) (t0 f - t1 f)%num.
Definition vx1_of (f : Frame) : num := velocity (x1 f) (x2 f) (t1 f - t2 f)%num.

Definition isPosPeak (sx0 sx1 sx2 : num) : bool :=
  ((sx1 >=? sx2) && (sx1 >? sx0))%num.

Definition isVelZeroCross (vx0 vx1 : num) : bool :=
  ((vx1 >=? n0) && (vx0 <? n0))%num.

Definition isVelValley (vx0 vx1 vx2 : num) : bool :=
  ((vx2 >? vx1) && (vx1 <? vx0))%num.

Definition isDeepEnough (vx1 : num) : bool := (vx1 <? depthThreshold)%num.

(** What [onPang] is called with: [(targetLine, vx1)]. *)
Definition Event : Type := (Z * num)%type.

(** The body of [process] after the reads, statement by statement. *)
Definition process_frame (d : Detector) (f : Frame) : Detector * option Event :=
  (* A: hit-test *)
  let d := _updateLineFromGaze d (y0 f) (t0 f) in
  (* B: 3-tap smoothing, rolling caches *)
  let sx0 := smoothX f in
  let sx1 := _sx1 d in
  let sx2 := _sx2 d in
  let d := set_sx2 d sx1 in
  let d := set_sx1 d sx0 in
  (* C: velocities *)
  let vx0 := vx0_of f in
  let vx1 := vx1_of f in
  let vx2 := _vx2 d in
  let d := set_vx2 d vx1 in
  (* D: position peak *)
  let d := if isPosPeak sx0 sx1 sx2 || isVelZeroCross vx0 vx1
           then set_lastPeakTime d (t1 f) else d in
  (* E: velocity valley *)
  if negb (isVelValley vx0 vx1 vx2) || negb (isDeepEnough vx1) then (d, None)
  else
  (* F: cascade check *)
  let now := t0 f in
  if falsy (_firstContentTime d) || (now <? _firstContentTime d)%num
  then (d, None) else
  if (now - _lastTriggerTime d <? cooldownMs)%num then (d, None) else
  if (abs (t1 f - _lastPeakTime d) >=? cascadeWindowMs)%num then (d, None) else
  (* G: logic guard *)
  match _currentLine d with
  | None => (d, None)
  | Some line =>
      if Nat.eqb line 0 then (d, None) else
      if (Z.of_nat line <=? _maxLineReached d)%Z then (d, None) else
      (* fire *)
      let d := set_lastTriggerTime d now in
      let d := set_maxLineReached d (Z.of_nat line) in
      let d := set_lastPeakTime d n0 in
      let targetLine := (Z.of_nat line - 1)%Z in
      (d, Some (targetLine, vx1))
  end.

(** [process(gIdx, gCount)] *)
Definition process (d : Detector) (b : Buffers) (gIdx gCount : Z)
    : Detector * option Event :=
  if (gCount <? 3)%Z then (d, None)
  else process_frame d (read_frame (_N d) b gIdx).

(** ** The ingestion callback of game.js

    [_onGaze] in READING state: write the sample at [_gIdx], advance the
    cursor modulo the capacity, count up to the capacity, call [process]. *)

Record Ring : Type := mkRing {
  ring_bufs : Buffers;
  ring_gIdx : Z;
  ring_gCount : Z
}.

(** [buf[i] = v] on a typed array: ignored out of range. *)
Fixpoint write (buf : list num) (i : nat) (v : num) : list num :=
  match buf, i with
  | [], _ => []
  | _ :: r, O => v :: r
  | a :: r, S i' => a :: write r i' v
  end.

(** [new Float32Array(cap)]: zeros. *)
Definition ring_empty (cap : nat) : Ring :=
  {| ring_bufs := {| _gx := repeat n0 cap; _gy := repeat n0 cap;
                     _gt := repeat n0 cap |};
     ring_gIdx := 0; ring_gCount := 0 |}.

Definition ring_push (cap : Z) (r : Ring) (x y t : num) : Ring :=
  let i := Z.to_nat (ring_gIdx r) in
  let b := ring_bufs r in
  {| ring_bufs := {| _gx := write (_gx b) i x; _gy := write (_gy b) i y;
                     _gt := write (_gt b) i t |};
     ring_gIdx := Z.rem (ring_gIdx r + 1) cap;
     ring_gCount := if (ring_gCount r <? cap)%Z then (ring_gCount r + 1)%Z
                    else ring_gCount r |}.

(** ** Runs *)

(** One call of [process]: the arrays at that moment and the two
    arguments. *)
Record Call : Type := mkCall {
  call_bufs : Buffers;
  call_gIdx : Z;
  call_gCount : Z
}.

Definition process_call (d : Detector) (c : Call) : Detector * option Event :=
  process d (call_bufs c) (call_gIdx c) (call_gCount c).

(** [this._pangDetector.process(this._gIdx, this._gCount)] *)
Definition ring_call (r : Ring) : Call :=
  {| call_bufs := ring_bufs r; call_gIdx := ring_gIdx r;
     call_gCount := ring_gCount r |}.

(** The calls of [process] that a stream of samples [(x, y, t)] gives
    rise to, starting from ring [r]. *)
Fixpoint calls_of (cap : Z) (r : Ring) (samples : list (Q * Q * Q))
    : list Call :=
  match samples with
  | [] => []
  | (x, y, t) :: rest =>
      let r' := ring_push cap r (Some x) (Some y) (Some t) in
      ring_call r' :: calls_of cap r' rest
  end.

(** A content block: [process] called again and again with no [lockLayout]
    or [reset] in between.  The result lists, call by call, what the
    callback received ([None]: not invoked). *)
Fixpoint run_block (d : Detector) (cs : list Call)
    : Detector * list (option Event) :=
  match cs with
  | [] => (d, [])
  | c :: cs' =>
      let (d1, e) := process_call d c in
      let (d2, es) := run_block d1 cs' in
      (d2, e :: es)
  end.

(** The arguments of the callback invocations of a run, in order. *)
Fixpoint fired (es : list (option Event)) : list Event :=
  match es with
  | [] => []
  | Some e :: es' => e :: fired es'
  | None :: es' => fired es'
  end.

(** The [completedLineIndex] arguments of a run, in order. *)
Definition completed_lines (es : list (option Event)) : list Z :=
  map fst (fired es).

(** One call of a content block as it happened: the detector before, the
    call, the detector after, and what the callback received. *)
Record Step : Type := mkStep {
  step_pre : Detector;
  step_call : Call;
  step_post : Detector;
  step_event : option Event
}.

Fixpoint trace (d : Detector) (cs : list Call) : list Step :=
  match cs with
  | [] => []
  | c :: cs' =>
      let (d1, e) := process_call d c in
      mkStep d c d1 e :: trace d1 cs'
  end.

Definition step_fires (s : Step) : Prop := step_event s <> None.

(** Any use of the detector's interface. *)
Inductive Op : Type :=
| OpLock (lineYs : list num) (lineHalfH perfNow : num)
| OpProcess (c : Call)
| OpReset.

Definition apply_op (d : Detector) (o : Op) : Detector * option Event :=
  match o with
  | OpLock ys h now => (lockLayout d ys h now, None)
  | OpProcess c => process_call d c
  | OpReset => (reset d, None)
  end.

Fixpoint run (d : Detector) (os : list Op) : Detector * list (option Event) :=
  match os with
  | [] => (d, [])
  | o :: os' =>
      let (d1, e) := apply_op d o in
      let (d2, es) := run d1 os' in
      (d2, e :: es)
  end.

Definition is_lock (o : Op) : bool :=
  match o with OpLock _ _ _ => true | _ => false end.

(** A sequence of operations in which [lockLayout] is never called. *)
Definition no_lock (os : list Op) : bool :=
  forallb (fun o => negb (is_lock o)) os.

(** ** Views of [process] used to state its properties *)

(** The frame a call reads, and its newest timestamp ([now]). *)
Definition call_frame (N : Z) (c : Call) : Frame :=
  read_frame N (call_bufs c) (call_gIdx c).

Definition call_now (N : Z) (c : Call) : num := t0 (call_frame N c).

Definition step_frame (s : Step) : Frame :=
  call_frame (_N (step_pre s)) (step_call s).

Definition step_now (s : Step) : num :=
  call_now (_N (step_pre s)) (step_call s).

(** [now] of an operation, when it is a call of [process]. *)
Definition op_now (N : Z) (o : Op) : num :=
  match o with
  | OpProcess c => call_now N c
  | _ => NaN
  end.

(** A call that gets past [if (gCount < 3) return]. *)
Definition processed (c : Call) : bool := negb (call_gCount c <? 3)%Z.

(** The detector after statements A to D of [process]: hit-test, rolling
    caches, peak tracking (see [process_frame_tracked]). *)
Definition tracked (d : Detector) (f : Frame) : Detector :=
  let d1 := _updateLineFromGaze d (y0 f) (t0 f) in
  let d2 := set_vx2 (set_sx1 (set_sx2 d1 (_sx1 d1)) (smoothX f)) (vx1_of f) in
  if isPosPeak (smoothX f) (_sx1 d1) (_sx2 d1)
     || isVelZeroCross (vx0_of f) (vx1_of f)
  then set_lastPeakTime d2 (t1 f) else d2.

(** Statement D's condition. *)
Definition peak_found (d : Detector) (f : Frame) : bool :=
  isPosPeak (smoothX f) (_sx1 d) (_sx2 d)
  || isVelZeroCross (vx0_of f) (vx1_of f).

(** Statement E: a valley deep enough was found. *)
Definition valley_found (d : Detector) (f : Frame) : bool :=
  isVelValley (vx0_of f) (vx1_of f) (_vx2 d) && isDeepEnough (vx1_of f).

(** Statements F and G on the tracked state: the line the gate lets
    through, if any. *)
Definition gate (d : Detector) (f : Frame) : option nat :=
  if falsy (_firstContentTime d) || (t0 f <? _firstContentTime d)%num
  then None else
  if (t0 f - _lastTriggerTime d <? cooldownMs)%num then None else
  if (abs (t1 f - _lastPeakTime d) >=? cascadeWindowMs)%num then None else
  match _currentLine d with
  | None => None
  | Some line =>
      if Nat.eqb line 0 then None
      else if (Z.of_nat line <=? _maxLineReached d)%Z then None
      else Some line
  end.

(** The three assignments of the FIRE block. *)
Definition fire (d : Detector) (now : num) (line : nat) : Detector :=
  set_lastPeakTime
    (set_maxLineReached (set_lastTriggerTime d now) (Z.of_nat line)) n0.

(** Disarmed: no layout, no current line. *)
Definition disarmed (d : Detector) : Prop :=
  _lineYs d = None /\ _currentLine d = None.

(** The layout as [lockLayout ys half] left it. *)
Definition locked_on (ys : list num) (half : num) (d : Detector) : Prop :=
  _lineYs d = Some ys /\ _lineHalf d = half /\ _lineCount d = length ys.

(** Every call's newest timestamp is a number. *)
Definition numbered (N : Z) (cs : list Call) : Prop :=
  Forall (fun c => is_number (call_now N c)) cs.

(** ** The spec's formulas, for comparison with the code *)

(** Following the spec's words: [sx(t) = 0.5·x(t) + 0.3·x(t-1) + 0.2·x(t-2)]. *)
Definition spec_smoothed (xt xt1 xt2 : num) : num :=
  (c0_5 * xt + c0_3 * xt1 + c0_2 * xt2)%num.

(** Following the spec's words: [v = (x(t) − x(t−1)) / (t(t) − t(t−1))], and
    [v = 0] if the timestamp delta is ≤ 0. *)
Definition spec_velocity (xt xt1 : num) (tt tt1 : Q) : num :=
  if Qle_bool (tt - tt1) 0 then n0
  else ((xt - xt1) / Some (tt - tt1)%Q)%num.

(** Following the spec's words: the first index [i] such that
    [|y - centerY[i]| ≤ halfHeight], counting from [i0]; [None] if there is
    none. *)
Fixpoint locate_from (i0 : nat) (centerY : list num) (halfHeight y : num)
    : option nat :=
  match centerY with
  | [] => None
  | c :: rest =>
      if (abs (y - c) <=? halfHeight)%num then Some i0
      else locate_from (S i0) rest halfHeight y
  end.

Definition locate (centerY : list num) (halfHeight y : num) : option nat :=
  locate_from 0 centerY halfHeight y.

(** ** Worked scenarios

    Three lines at centre Y 100, 140 and 180, half-height 15, a ring of
    eight slots; the reader scans line 0 left to right, snaps back onto
    line 1, reads it, and snaps back onto line 2. *)

Definition demo_lineYs : list num := [Some 100; Some 140; Some 180].
Definition demo_half : num := Some 15.

Definition demo_locked : Detector :=
  lockLayout (constructor 8) demo_lineYs demo_half (Some 250).

Definition demo_samples : list (Q * Q * Q) :=
  [ (10, 100, 1000); (100, 100, 1033); (200, 100, 1066); (300, 100, 1099);
    (400, 100, 1132); (500, 100, 1165);
    (480, 140, 1198); (20, 140, 1231); (30, 140, 1264); (60, 140, 1297);
    (100, 140, 1330); (200, 140, 1363); (300, 140, 1396); (400, 140, 1429);
    (500, 140, 1462); (500, 140, 1495); (500, 140, 1528); (500, 140, 1561);
    (500, 140, 1594); (500, 140, 1627); (500, 140, 1660); (500, 140, 1693);
    (500, 140, 1726);
    (480, 180, 1759); (20, 180, 1792); (30, 180, 1825) ].

Definition demo_calls : list Call := calls_of 8 (ring_empty 8) demo_samples.

(** The scenario's trace; its calls 8 and 25 are the two return sweeps. *)
Definition demo_trace : list Step := trace demo_locked demo_calls.

(** The ring after three samples of a forward scan that has just turned
    back: no valley yet, but a velocity zero-crossing, on line 0. *)
Definition turn_call : Call :=
  ring_call
    (ring_push 8
       (ring_push 8
          (ring_push 8 (ring_empty 8) (Some 100) (Some 100) (Some 1000))
          (Some 200) (Some 100) (Some 1033))
       (Some 150) (Some 100) (Some 1066)).

Definition idle_step : Step := mkStep demo_locked turn_call demo_locked None.

Definition first_sweep : Step := nth 8 demo_trace idle_step.
Definition second_sweep : Step := nth 25 demo_trace idle_step.

(** The same samples fed to a detector that is never locked, with a reset
    half-way. *)
Definition unlocked_ops : list Op :=
  map OpProcess demo_calls ++ OpReset :: map OpProcess demo_calls.

(** A second lock right after the first sweep: the scenario up to its first
    fire (call 8, at 1264 ms), [lockLayout] again, and three more samples on
    line 2 that turn back within 99 ms. *)
Definition relock_samples : list (Q * Q * Q) :=
  firstn 9 demo_samples
  ++ [ (500, 180, 1297); (20, 180, 1330); (30, 180, 1363) ].

Definition relock_calls : list Call :=
  calls_of 8 (ring_empty 8) relock_samples.

Definition relock_ops : list Op :=
  OpLock demo_lineYs demo_half (Some 250)
  :: map OpProcess (firstn 9 relock_calls)
  ++ OpLock demo_lineYs demo_half (Some 250)
  :: map OpProcess (skipn 9 relock_calls).

(** Two calls between which the clock stepped back and the arrays were
    refilled: the first records a peak at 2000 on line 1, the second sees a
    valley whose time is 1900. *)
Definition peak_call : Call :=
  {| call_bufs := {| _gx := [Some 400; Some 500; Some 450];
                     _gy := [Some 140; Some 140; Some 140];
                     _gt := [Some 1967; Some 2000; Some 2033] |};
     call_gIdx := 3; call_gCount := 3 |}.

Definition stepped_back_call : Call :=
  {| call_bufs := {| _gx := [Some 5000; Some 4000; Some 4010];
                     _gy := [Some 140; Some 140; Some 140];
                     _gt := [Some 1867; Some 1900; Some 1933] |};
     call_gIdx := 3; call_gCount := 3 |}.

Definition after_peak : Detector :=
  fst (process_call
         (lockLayout (constructor 3) demo_lineYs demo_half (Some 250))
         peak_call).

(** ** Ghost state for the cascade

    [peak_armed p ss]: for each step of a trace, whether a position peak or
    a velocity zero-crossing has been detected since the last fire (or since
    the start of the trace, where the flag is [p]), this step included. *)
Fixpoint peak_armed (p : bool) (ss : list Step) : list bool :=
  match ss with
  | [] => []
  | s :: ss' =>
      let p' := p || (processed (step_call s)
                      && peak_found (step_pre s) (step_frame s)) in
      p' :: peak_armed (match step_event s with
                        | Some _ => false
                        | None => p'
                        end) ss'
  end.

(** Every processed call of the list reads a valley time [t1] that is a
    number at or above [lo]. *)
Definition valley_times_from (lo : Q) (N : Z) (cs : list Call) : Prop :=
  Forall (fun c => processed c = true ->
                   exists t, t1 (call_frame N c) = Some t /\ lo <= t) cs.

(** The current line, when known, is an index of the layout. *)
Definition line_in_layout (d : Detector) : Prop :=
  match _currentLine d with
  | Some i => (i < _lineCount d)%nat
  | None => True
  end.

(** ** The sample ring of the game, continued *)

(** [const MAX_GAZE_ENTRIES = 1800] *)
Definition MAX_GAZE_ENTRIES : Z := 1800.

(** A gaze sample as [_onGaze] stores it: [(gazeInfo.x, gazeInfo.y,
    Date.now())]. *)
Definition Sample : Type := (num * num * num)%type.

Definition sample_x (s : Sample) : num := fst (fst s).
Definition sample_y (s : Sample) : num := snd (fst s).
Definition sample_t (s : Sample) : num := snd s.

Definition push_sample (cap : Z) (r : Ring) (s : Sample) : Ring :=
  ring_push cap r (sample_x s) (sample_y s) (sample_t s).

(** [_startReading]: [this._gIdx = 0; this._gCount = 0], the arrays keep
    their contents. *)
Definition ring_reset (r : Ring) : Ring :=
  {| ring_bufs := ring_bufs r; ring_gIdx := 0; ring_gCount := 0 |}.

Fixpoint ring_pushes (cap : Z) (r : Ring) (ss : list Sample) : Ring :=
  match ss with
  | [] => r
  | s :: rest => ring_pushes cap (push_sample cap r s) rest
  end.

(** The calls of [process] made by [_onGaze] for a stream of samples. *)
Fixpoint ring_calls (cap : Z) (r : Ring) (ss : list Sample) : list Call :=
  match ss with
  | [] => []
  | s :: rest =>
      let r' := push_sample cap r s in
      ring_call r' :: ring_calls cap r' rest
  end.

(** The three arrays have [cap] slots and the write cursor is one of
    them; the count is between 0 and [cap]. *)
Definition ring_wf (cap : Z) (r : Ring) : Prop :=
  (0 <= ring_gIdx r < cap)%Z /\
  (0 <= ring_gCount r <= cap)%Z /\
  Z.of_nat (length (_gx (ring_bufs r))) = cap /\
  Z.of_nat (length (_gy (ring_bufs r))) = cap /\
  Z.of_nat (length (_gt (ring_bufs r))) = cap.

(** The sample held in slot [k]. *)
Definition slot (r : Ring) (k : Z) : Sample :=
  (rd (_gx (ring_bufs r)) (Some k), rd (_gy (ring_bufs r)) (Some k),
   rd (_gt (ring_bufs r)) (Some k)).

(** The frame made of a newest sample and the two before it. *)
Definition frame_of (s0 s1 s2 : Sample) : Frame :=
  {| t0 := sample_t s0; t1 := sample_t s1; t2 := sample_t s2;
     x0 := sample_x s0; x1 := sample_x s1; x2 := sample_x s2;
     y0 := sample_y s0 |}.

(** What the detector should see of a stream: nothing for the first two
    samples, then each sample with its two predecessors. *)
Fixpoint frames_from (s2 s1 : Sample) (ss : list Sample) : list Frame :=
  match ss with
  | [] => []
  | s :: rest => frame_of s s1 s2 :: frames_from s1 s rest
  end.

Definition windows (ss : list Sample) : list (option Frame) :=
  match ss with
  | [] => []
  | [_] => [None]
  | a :: b :: rest => None :: None :: map Some (frames_from a b rest)
  end.

(** What each call of a list processes: the frame it reads, or nothing when
    [gCount < 3]. *)
Definition seen (N : Z) (cs : list Call) : list (option Frame) :=
  map (fun c => if processed c then Some (call_frame N c) else None) cs.

(** The statistics of [showQuiz]: the slots it takes for the newest and the
    oldest sample, and the duration between them ([None] when
    [_gCount > 0] fails and nothing is computed). *)
Definition quiz_lastIdx (cap : Z) (r : Ring) : option Z :=
  js_rem (ring_gIdx r - 1 + cap) cap.

Definition quiz_firstIdx (cap : Z) (r : Ring) : option Z :=
  Some (if (ring_gCount r <? cap)%Z then 0%Z else ring_gIdx r).

Definition quiz_durMs (cap : Z) (r : Ring) : option num :=
  if (ring_gCount r >? 0)%Z
  then Some (rd (_gt (ring_bufs r)) (quiz_lastIdx cap r)
             - rd (_gt (ring_bufs r)) (quiz_firstIdx cap r))%num
  else None.

(** ** The reading screen of the game

    The fields of [Game] that the reading code touches: the state name, the
    sample ring, the detector and [_lineEls], each line element being
    represented by its [style.opacity].  ([_gazeX], [_gazeY] and the fields
    of the calibration and quiz screens play no part in it.) *)

Inductive GameState : Type :=
| IDLE | SDK_INIT | CALIBRATION | READING | QUIZ | RESULT.

Definition is_reading (st : GameState) : bool :=
  match st with READING => true | _ => false end.

Record Game : Type := mkGame {
  g_state : GameState;
  g_ring : Ring;
  g_detector : Detector;
  g_lineEls : option (list string)
}.

(** What [getBoundingClientRect()] gives for a line element, and the
    element's [style.opacity]. *)
Record LineEl : Type := mkLineEl {
  el_top : num;
  el_height : num;
  el_opacity : string
}.

Definition c0_55 : num := Some (55 # 100).

(** [r.top + r.height * 0.5] *)
Definition centerY (el : LineEl) : num :=
  (el_top el + el_height el * c0_5)%num.

(** [totalH += r.height], from 0, over the elements in order. *)
Definition totalH (els : list LineEl) : num :=
  fold_left (fun acc el => (acc + el_height el)%num) els n0.

Definition num_of_nat (n : nat) : num := Some (inject_Z (Z.of_nat n)).

(** [avgH * 0.55] with [avgH = totalH / n] *)
Definition lineHalfH_of (els : list LineEl) : num :=
  (totalH els / num_of_nat (length els) * c0_55)%num.

(** [_lockLayout(lineEls)] *)
Definition _lockLayout (g : Game) (els : list LineEl) (perfNow : num) : Game :=
  if Nat.eqb (length els) 0 then g
  else {| g_state := g_state g;
          g_ring := g_ring g;
          g_detector := lockLayout (g_detector g) (map centerY els)
                          (lineHalfH_of els) perfNow;
          g_lineEls := Some (map el_opacity els) |}.

(** [_destroyReading()] *)
Definition _destroyReading (g : Game) : Game :=
  {| g_state := g_state g;
     g_ring := g_ring g;
     g_detector := reset (g_detector g);
     g_lineEls := None |}.

(** [_startReading()] when there is a passage, up to the point where it
    hands over to [_initReading]: cursors to 0, detector reset, state
    READING.  The layout is locked later, by the timer of [_initReading]. *)
Definition _startReading (g : Game) : Game :=
  {| g_state := READING;
     g_ring := ring_reset (g_ring g);
     g_detector := reset (g_detector g);
     g_lineEls := g_lineEls g |}.

(** The [forEach] of [_onPang] from element index [i]: lines before
    [lineIdx] to opacity 0, line [lineIdx] to 0.15, each written only when it
    differs. *)
Fixpoint fade_from (i : Z) (els : list string) (lineIdx : Z) : list string :=
  match els with
  | [] => []
  | op :: rest =>
      (if (i <? lineIdx)%Z
       then (if String.eqb op "0" then op else "0"%string)
       else if (i =? lineIdx)%Z
            then (if String.eqb op "0.15" then op else "0.15"%string)
            else op)
      :: fade_from (i + 1) rest lineIdx
  end.

Definition fade (els : list string) (lineIdx : Z) : list string :=
  fade_from 0 els lineIdx.

(** [_onPang(lineIdx, vx)]; the sparkle of [_triggerLineEffect] is a
    transient element of its own and leaves the lines alone. *)
Definition _onPang (g : Game) (lineIdx : Z) (vx : num) : Game :=
  {| g_state := g_state g;
     g_ring := g_ring g;
     g_detector := g_detector g;
     g_lineEls := option_map (fun els => fade els lineIdx) (g_lineEls g) |}.

(** [_onGaze(gazeInfo)] for a sample [(gazeInfo.x, gazeInfo.y, Date.now())]:
    outside READING nothing is stored; in READING the sample is written, the
    detector called, and its callback is [_onPang]. *)
Definition _onGaze (cap : Z) (g : Game) (s : Sample) : Game :=
  if is_reading (g_state g) then
    let r' := push_sample cap (g_ring g) s in
    let (d', e) := process_call (g_detector g) (ring_call r') in
    let g' := {| g_state := g_state g; g_ring := r'; g_detector := d';
                 g_lineEls := g_lineEls g |} in
    match e with
    | Some (lineIdx, vx) => _onPang g' lineIdx vx
    | None => g'
    end
  else g.

Definition feed (cap : Z) (g : Game) (ss : list Sample) : Game :=
  fold_left (_onGaze cap) ss g.

(** What the lines look like once line [k] has been reported, or before any
    report. *)
Definition faded (els : list string) (k : option Z) : list string :=
  match k with
  | Some k => fade els k
  | None => els
  end.

(** The last element of a list, if any. *)
Fixpoint last_of {A : Type} (l : list A) : option A :=
  match l with
  | [] => None
  | a :: rest =>
      match last_of rest with
      | Some b => Some b
      | None => Some a
      end
  end.

(** [n] lines of the same height [h] stacked from [top] down: line [j]
    occupies [lineTop j, lineTop (j+1)]. *)
Definition lineTop (top h : Q) (j : nat) : Q :=
  top + inject_Z (Z.of_nat j) * h.

Definition uniform_line (top h : Q) (j : nat) : LineEl :=
  {| el_top := Some (lineTop top h j); el_height := Some h;
     el_opacity := EmptyString |}.

Definition uniform_lines (top h : Q) (n : nat) : list LineEl :=
  map (uniform_line top h) (seq 0 n).

(** ** The calibration dot ([Game._onCalibrationNextPoint]) *)

(** [Math.max(a, b)] and [Math.min(a, b)]: [NaN] when either argument is. *)
Definition math_max (a b : num) : num :=
  match a, b with
  | Some x, Some y => Some (if Qle_bool x y then y else x)
  | _, _ => None
  end.

Definition math_min (a b : num) : num :=
  match a, b with
  | Some x, Some y => Some (if Qle_bool x y then x else y)
  | _, _ => None
  end.

Definition dotSize : num := Some 12.
Definition c2 : num := Some 2.
Definition c20 : num := Some 20.

(** [Math.min(Math.max(v, dotSize / 2 + 20), extent - dotSize / 2 - 20)],
    for [v] a coordinate and [extent] the viewport's width or height. *)
Definition clamped (v extent : num) : num :=
  math_min (math_max v (dotSize / c2 + c20)%num)
           (extent - dotSize / c2 - c20)%num.

(** [clampedX - dotSize / 2], the dot's [left] (or [top]) in pixels. *)
Definition dot_edge (v extent : num) : num :=
  (clamped v extent - dotSize / c2)%num.

(** ** The text train of the earlier reading screen ([src/game.js])

    Each line [div] carries [style.opacity] and [dataset.op]; the current
    line is a JS number, [-1] when a passage starts. *)

Record TrainLine : Type := mkTrainLine {
  style_opacity : string;
  dataset_op : option string
}.

Record Train : Type := mkTrain {
  _trainLines : list TrainLine;
  _trainCurrentLine : num;
  _trainWrapTop : num;
  _trainLineH : num
}.

(** [Math.floor] *)
Definition math_floor (a : num) : num :=
  option_map (fun q => inject_Z (Qfloor q)) a.

(** [a === b] on numbers: false when either is [NaN]. *)
Definition strict_eqb (a b : num) : bool :=
  match a, b with
  | Some x, Some y => Qeq_bool x y
  | _, _ => false
  end.

(** [diff <= 0 ? '1' : diff === 1 ? '0.2' : '0'] for
    [diff = this._trainCurrentLine - i]. *)
Definition next_opacity (cur : num) (i : nat) : string :=
  let diff := (cur - num_of_nat i)%num in
  if (diff <=? n0)%num then "1"%string
  else if strict_eqb diff (Some 1) then "0.2"%string
  else "0"%string.

(** [lineDiv.dataset.op !== next] *)
Definition op_differs (op : option string) (next : string) : bool :=
  match op with
  | Some s => negb (String.eqb s next)
  | None => true
  end.

Definition restyle (cur : num) (i : nat) (l : TrainLine) : TrainLine :=
  let next := next_opacity cur i in
  if op_differs (dataset_op l) next
  then {| style_opacity := next; dataset_op := Some next |}
  else l.

(** The [forEach] over the lines, from index [i]. *)
Fixpoint restyle_from (cur : num) (i : nat) (ls : list TrainLine)
    : list TrainLine :=
  match ls with
  | [] => []
  | l :: rest => restyle cur i l :: restyle_from cur (S i) rest
  end.

(** [_updateTextTrain(gazeY)].  The quotient [relY / this._trainLineH] is
    taken with [Num.div]: a zero line height is outside the model. *)
Definition _updateTextTrain (tr : Train) (gazeY : num) : Train :=
  if Nat.eqb (length (_trainLines tr)) 0 then tr
  else
    let relY := (gazeY - _trainWrapTop tr)%num in
    if (relY <? n0)%num then tr
    else
      let gazeLine :=
        math_max n0
          (math_min (math_floor (relY / _trainLineH tr)%num)
             (num_of_nat (length (_trainLines tr)) - Some 1)%num) in
      if (gazeLine <=? _trainCurrentLine tr)%num then tr
      else {| _trainLines := restyle_from gazeLine 0 (_trainLines tr);
              _trainCurrentLine := gazeLine;
              _trainWrapTop := _trainWrapTop tr;
              _trainLineH := _trainLineH tr |}.

(** A line [div] as [_renderTextTrain] creates it. *)
Definition fresh_line : TrainLine :=
  {| style_opacity := EmptyString; dataset_op := None |}.

(** The train when [_renderTextTrain]'s timer has built [n] lines and
    cached the wrap's top and the line height ([_trainCurrentLine] is the
    [-1] of [_startReading]). *)
Definition train_built (n : nat) (wrapTop lineH : num) : Train :=
  {| _trainLines := repeat fresh_line n;
     _trainCurrentLine := Some (-1);
     _trainWrapTop := wrapTop;
     _trainLineH := lineH |}.

Definition train_feed (tr : Train) (ys : list num) : Train :=
  fold_left _updateTextTrain ys tr.

(** What the code is meant to compute: the line under a gaze height, the
    furthest line seen so far, and the opacities that go with it. *)
Definition gaze_line (w h : Q) (n : nat) (y : Q) : Z :=
  Z.max 0 (Z.min (Qfloor ((y - w) / h)) (Z.of_nat n - 1)).

Definition furthest_line (w h : Q) (n : nat) (ys : list Q) : Z :=
  fold_left (fun m y => if Qle_bool w y then Z.max m (gaze_line w h n y)
                        else m) ys (-1)%Z.

Definition opacity_of (m : Z) (i : nat) : string :=
  if (m <=? Z.of_nat i)%Z then "1"%string
  else if (m =? Z.of_nat i + 1)%Z then "0.2"%string
  else "0"%string.

Definition styled_line (s : string) : TrainLine :=
  {| style_opacity := s; dataset_op := Some s |}.

Definition shown (m : Z) (n : nat) : list TrainLine :=
  if (m =? -1)%Z then repeat fresh_line n
  else map (fun i => styled_line (opacity_of m i)) (seq 0 n).

(** [style.opacity] and [dataset.op] agree once [dataset.op] is set. *)
Definition in_step (l : TrainLine) : Prop :=
  forall s, dataset_op l = Some s -> style_opacity l = s.

(** The train shows line [m] as the furthest one. *)
Definition at_line (n : nat) (w h : Q) (tr : Train) (m : Z) : Prop :=
  _trainCurrentLine tr === Some (inject_Z m) /\
  _trainLines tr = shown m n /\
  _trainWrapTop tr = Some w /\ _trainLineH tr = Some h.

(** ** The log store ([MemoryLogger.addLog], and [addLine] of the later
    version): [logs.push(entry); if (logs.length > MAX) logs.shift()] *)

Definition MAX_LOGS : nat := 1000.
Definition MAX_LINES : nat := 500.

Definition store {A : Type} (max : nat) (logs : list A) (entry : A) : list A :=
  let logs' := logs ++ [entry] in
  if (max <? length logs')%nat then tl logs' else logs'.

Definition addLog {A : Type} (logs : list A) (entry : A) : list A :=
  store MAX_LOGS logs entry.

Definition addLine {A : Type} (lines : list A) (line : A) : list A :=
  store MAX_LINES lines line.

(** ** The memory stress tester ([src/stress-tester.js])

    The module's variables, and the browser's pending timeouts: [setTimeout]
    hands out a fresh id and schedules it, [clearTimeout] unschedules it. *)

Module Stress.

Record State : Type := mkState {
  _buffers : list Z;          (* first byte of each 10 MB buffer *)
  _level : Z;
  _running : bool;
  _timerId : option nat;
  pending : list nat;         (* scheduled, neither fired nor cleared *)
  next_id : nat
}.

Definition CHUNK_MB : Z := 10.
Definition MAX_LEVEL : Z := 30.

Definition init : State :=
  {| _buffers := []; _level := 0; _running := false; _timerId := None;
     pending := []; next_id := 1 |}.

Definition totalAllocMB (st : State) : Z := (_level st * CHUNK_MB)%Z.

(** What is held: [_buffers.length * CHUNK_MB]. *)
Definition heldMB (st : State) : Z :=
  (Z.of_nat (length (_buffers st)) * CHUNK_MB)%Z.

Definition clearTimeout (id : nat) (ids : list nat) : list nat :=
  filter (fun j => negb (Nat.eqb j id)) ids.

Definition _stop (st : State) : State :=
  {| _buffers := _buffers st; _level := _level st; _running := false;
     _timerId := None;
     pending := match _timerId st with
                | Some id => clearTimeout id (pending st)
                | None => pending st
                end;
     next_id := next_id st |}.

(** [_timerId = setTimeout(...)] *)
Definition schedule (st : State) (bufs : list Z) : State :=
  {| _buffers := bufs; _level := _level st; _running := _running st;
     _timerId := Some (next_id st);
     pending := next_id st :: pending st;
     next_id := S (next_id st) |}.

(** [_runLevel()]; [alloc_ok] tells whether [new ArrayBuffer] succeeds
    should it be tried. *)
Definition _runLevel (alloc_ok : bool) (st : State) : State :=
  if negb (_running st) then st
  else if (_level st >? MAX_LEVEL)%Z then _stop st
  else if (_level st >? 0)%Z then
    if alloc_ok then schedule st (_buffers st ++ [_level st])
    else _stop st
  else schedule st (_buffers st).

Definition start (st : State) : State :=
  if _running st then st
  else _runLevel true
         {| _buffers := []; _level := 0; _running := true;
            _timerId := _timerId st; pending := pending st;
            next_id := next_id st |}.

Definition stop (st : State) : State :=
  let st' := _stop st in
  {| _buffers := []; _level := _level st'; _running := _running st';
     _timerId := _timerId st'; pending := pending st';
     next_id := next_id st' |}.

(** The timeout [id] fires: [_level++; if (_running) _runLevel()].  A
    timeout that is not scheduled does not fire. *)
Definition fire (id : nat) (alloc_ok : bool) (st : State) : State :=
  if existsb (Nat.eqb id) (pending st) then
    _runLevel alloc_ok
      {| _buffers := _buffers st; _level := (_level st + 1)%Z;
         _running := _running st; _timerId := _timerId st;
         pending := clearTimeout id (pending st);
         next_id := next_id st |}
  else st.

Inductive Event : Type :=
| Start
| Stop
| Fire (id : nat) (alloc_ok : bool).

Definition step (st : State) (e : Event) : State :=
  match e with
  | Start => start st
  | Stop => stop st
  | Fire id ok => fire id ok st
  end.

Definition run (st : State) (es : list Event) : State := fold_left step es st.

(** The scheduled timeout fires, if there is one. *)
Definition tick (st : State) (alloc_ok : bool) : State :=
  match pending st with
  | id :: _ => fire id alloc_ok st
  | [] => st
  end.

Definition ticks (st : State) (oks : list bool) : State :=
  fold_left tick oks st.

(** The levels [1 .. k], as the first bytes of the buffers. *)
Definition levels (k : nat) : list Z := map Z.of_nat (seq 1 k).

(** While running, the buffers are those of levels [1 .. _level] and
    exactly one timeout is scheduled, the one [_timerId] names; when not
    running none is. *)
Definition inv (st : State) : Prop :=
  (length (_buffers st) <= 30)%nat /\
  (_running st = true ->
     (0 <= _level st <= MAX_LEVEL)%Z /\
     _buffers st = levels (Z.to_nat (_level st)) /\
     exists id, _timerId st = Some id /\ pending st = [id]) /\
  (_running st = false -> pending st = []).

End Stress.

(** ** The worked scenario on the reading screen

    The scenario's samples as [_onGaze] receives them; a game in READING
    state with an eight-slot ring; three lines of height 40 from y = 80 (centres
    100, 140, 180); the text train of the earlier version on the same lines. *)

Definition demo_gaze : list Sample :=
  map (fun s => (Some (fst (fst s)), Some (snd (fst s)), Some (snd s)))
      demo_samples.

Definition demo_game : Game :=
  {| g_state := READING; g_ring := ring_empty 8; g_detector := constructor 8;
     g_lineEls := None |}.

Definition demo_els : list LineEl := uniform_lines 80 40 3.

Definition demo_train : Train := train_built 3 (Some 80) (Some 40).

(** Gaze heights on line 0, then line 1, then back on line 0; and one on
    line 2 afterwards. *)
Definition demo_heights : list Q := [100; 150; 90].
Definition demo_later : list Q := [200].

(** ** The recorded peak of a block

    The peak timestamp in force at the gate of each step of a block, read
    off the block's history: [t(t-1)] of the most recent step (this one
    included) on which a position peak or a velocity zero-crossing was
    detected since the block began or since its previous fire, and [p], the
    value the block started with or the fire left, when there has been none. *)
Fixpoint recorded_peak (p : num) (ss : list Step) : list num :=
  match ss with
  | [] => []
  | s :: ss' =>
      let p' := if processed (step_call s)
                   && peak_found (step_pre s) (step_frame s)
                then t1 (step_frame s) else p in
      p' :: recorded_peak (match step_event s with
                           | Some _ => n0
                           | None => p'
                           end) ss'
  end.

(** Three samples on line 1 moving left from the start, with timestamps
    below the cascade window: a valley on the first processed step, and no
    peak or zero-crossing before it. *)
Definition early_samples : list (Q * Q * Q) :=
  [ (1000, 140, 500); (900, 140, 533); (890, 140, 566) ].

Definition early_calls : list Call := calls_of 8 (ring_empty 8) early_samples.

Definition early_call : Call :=
  ring_call
    (ring_push 8
       (ring_push 8
          (ring_push 8 (ring_empty 8) (Some 1000) (Some 140) (Some 500))
          (Some 900) (Some 140) (Some 533))
       (Some 890) (Some 140) (Some 566)).

(** * Properties *)

(** ** Facts about numbers *)

Section NumFacts.

Lemma Qlt_bool_iff (x y : Q) : Qlt_bool x y = true <-> x < y.
Proof.
  unfold Qlt_bool. rewrite negb_true_iff. split; intro H.
  - apply Qnot_le_lt. intro L. apply Qle_bool_iff in L. congruence.
  - destruct (Qle_bool y x) eqn:E; [|reflexivity].
    apply Qle_bool_iff in E. exfalso; lra.
Qed.

Lemma Qlt_bool_false (x y : Q) : Qlt_bool x y = false <-> y <= x.
Proof.
  unfold Qlt_bool. rewrite negb_false_iff. apply Qle_bool_iff.
Qed.

Lemma Qle_bool_false (x y : Q) : Qle_bool x y = false <-> y < x.
Proof.
  split; intro H.
  - apply Qnot_le_lt. intro L. apply Qle_bool_iff in L. congruence.
  - destruct (Qle_bool x y) eqn:E; [|reflexivity].
    apply Qle_bool_iff in E. exfalso; lra.
Qed.

Lemma ltb_true (a b : num) :
  (a <? b)%num = true <-> exists x y, a = Some x /\ b = Some y /\ x < y.
Proof.
  destruct a as [x|], b as [y|]; simpl; split;
    try discriminate; try (intros (x' & y' & ? & ? & _); discriminate).
  - intro H. exists x, y. rewrite Qlt_bool_iff in H. auto.
  - intros (x' & y' & E1 & E2 & L). inversion E1; inversion E2; subst.
    now apply Qlt_bool_iff.
Qed.

Lemma equiv_refl (a : num) : a === a.
Proof. destruct a; simpl; [reflexivity | exact I]. Qed.

End NumFacts.

(** ** The structure of one step *)

Section StepStructure.

Variables (d : Detector) (f : Frame).

(** The hit-test writes [_currentLine] and [_lastLineChangeT] only. *)
Lemma hit_test_frame (y t : num) :
  let d' := _updateLineFromGaze d y t in
  _N d' = _N d /\ _sx1 d' = _sx1 d /\ _sx2 d' = _sx2 d /\
  _vx2 d' = _vx2 d /\ _lastPeakTime d' = _lastPeakTime d /\
  _lastTriggerTime d' = _lastTriggerTime d /\
  _maxLineReached d' = _maxLineReached d /\
  _firstContentTime d' = _firstContentTime d /\
  _lineYs d' = _lineYs d /\ _lineHalf d' = _lineHalf d /\
  _lineCount d' = _lineCount d.
Proof.
  unfold _updateLineFromGaze.
  destruct (_lineYs d) as [ys|] eqn:Ey; [|cbn; rewrite Ey; tauto].
  destruct (Nat.eqb (_lineCount d) 0); [cbn; rewrite Ey; tauto|].
  destruct (scan_from ys (_lineHalf d) y 0 (_lineCount d)) as [i|];
    [|cbn; rewrite Ey; tauto].
  destruct (line_eqb i (_currentLine d)); cbn; rewrite Ey; tauto.
Qed.

Lemma hit_test_vx2 (y t : num) : _vx2 (_updateLineFromGaze d y t) = _vx2 d.
Proof. apply (hit_test_frame y t). Qed.

(** [process] is: track, then, on a valley, ask the gate, then fire. *)
Lemma process_frame_tracked :
  process_frame d f =
  if valley_found d f then
    match gate (tracked d f) f with
    | Some line =>
        (fire (tracked d f) (t0 f) line,
         Some ((Z.of_nat line - 1)%Z, vx1_of f))
    | None => (tracked d f, None)
    end
  else (tracked d f, None).
Proof.
  unfold process_frame, valley_found, tracked, gate, fire.
  set (d1 := _updateLineFromGaze d (y0 f) (t0 f)).
  replace (_vx2 d) with (_vx2 d1) by apply hit_test_vx2.
  cbv zeta.
  destruct (isPosPeak (smoothX f) (_sx1 d1) (_sx2 d1)
            || isVelZeroCross (vx0_of f) (vx1_of f)); cbn -[gtb geb ltb leb abs sub];
  destruct (isVelValley (vx0_of f) (vx1_of f) (_vx2 d1)); cbn -[gtb geb ltb leb abs sub];
    try reflexivity;
  destruct (isDeepEnough (vx1_of f)); cbn -[gtb geb ltb leb abs sub]; try reflexivity;
  destruct (falsy (_firstContentTime d1) || (t0 f <? _firstContentTime d1)%num);
    try reflexivity;
  destruct (t0 f - _lastTriggerTime d1 <? cooldownMs)%num; try reflexivity;
  match goal with |- context [(?a >=? cascadeWindowMs)%num] =>
    destruct (a >=? cascadeWindowMs)%num end; try reflexivity;
  destruct (_currentLine d1) as [line|]; try reflexivity;
  destruct (Nat.eqb line 0); try reflexivity;
  destruct (Z.of_nat line <=? _maxLineReached d1)%Z; reflexivity.
Qed.

End StepStructure.

Section StepFacts.

Variables (d : Detector) (f : Frame).

(** Tracking leaves the gate's bookkeeping and the layout alone. *)
Lemma tracked_frame :
  _N (tracked d f) = _N d /\
  _lastTriggerTime (tracked d f) = _lastTriggerTime d /\
  _maxLineReached (tracked d f) = _maxLineReached d /\
  _firstContentTime (tracked d f) = _firstContentTime d /\
  _lineYs (tracked d f) = _lineYs d /\
  _lineHalf (tracked d f) = _lineHalf d /\
  _lineCount (tracked d f) = _lineCount d.
Proof.
  pose proof (hit_test_frame d (y0 f) (t0 f)) as H. cbv zeta in H.
  unfold tracked.
  destruct (isPosPeak _ _ _ || isVelZeroCross _ _); cbn; tauto.
Qed.

Lemma tracked_currentLine :
  _currentLine (tracked d f) =
  _currentLine (_updateLineFromGaze d (y0 f) (t0 f)).
Proof.
  unfold tracked.
  destruct (isPosPeak _ _ _ || isVelZeroCross _ _); reflexivity.
Qed.

Lemma tracked_lastLineChangeT :
  _lastLineChangeT (tracked d f) =
  _lastLineChangeT (_updateLineFromGaze d (y0 f) (t0 f)).
Proof.
  unfold tracked.
  destruct (isPosPeak _ _ _ || isVelZeroCross _ _); reflexivity.
Qed.

Lemma tracked_caches :
  _sx1 (tracked d f) = smoothX f /\ _sx2 (tracked d f) = _sx1 d /\
  _vx2 (tracked d f) = vx1_of f.
Proof.
  pose proof (hit_test_frame d (y0 f) (t0 f)) as H. cbv zeta in H.
  unfold tracked.
  destruct (isPosPeak _ _ _ || isVelZeroCross _ _); cbn; tauto.
Qed.

Lemma tracked_lastPeakTime :
  _lastPeakTime (tracked d f) =
  if peak_found d f then t1 f else _lastPeakTime d.
Proof.
  pose proof (hit_test_frame d (y0 f) (t0 f)) as H. cbv zeta in H.
  destruct H as (_ & H1 & H2 & _ & H4 & _).
  unfold tracked, peak_found. rewrite H1, H2.
  destruct (isPosPeak _ _ _ || isVelZeroCross _ _); cbn; auto.
Qed.

(** What the gate checked when it let a line through. *)
Lemma gate_Some_inv (line : nat) :
  gate d f = Some line ->
  falsy (_firstContentTime d) = false /\
  (t0 f <? _firstContentTime d)%num = false /\
  (t0 f - _lastTriggerTime d <? cooldownMs)%num = false /\
  (abs (t1 f - _lastPeakTime d) >=? cascadeWindowMs)%num = false /\
  _currentLine d = Some line /\ line <> O /\
  (_maxLineReached d < Z.of_nat line)%Z.
Proof.
  unfold gate.
  destruct (falsy (_firstContentTime d)); [discriminate|].
  destruct (t0 f <? _firstContentTime d)%num; [discriminate|]. cbn [orb].
  destruct (t0 f - _lastTriggerTime d <? cooldownMs)%num; [discriminate|].
  destruct (abs (t1 f - _lastPeakTime d) >=? cascadeWindowMs)%num;
    [discriminate|].
  destruct (_currentLine d) as [l|]; [|discriminate].
  destruct (Nat.eqb l 0) eqn:E0; [discriminate|].
  destruct (Z.of_nat l <=? _maxLineReached d)%Z eqn:Em; [discriminate|].
  intro H; inversion H; subst l.
  apply Nat.eqb_neq in E0. apply Z.leb_gt in Em. repeat split; auto.
Qed.

(** A step that invokes the callback. *)
Lemma process_frame_fire_inv (d' : Detector) (e : Event) :
  process_frame d f = (d', Some e) ->
  valley_found d f = true /\
  exists line, gate (tracked d f) f = Some line /\
               d' = fire (tracked d f) (t0 f) line /\
               e = ((Z.of_nat line - 1)%Z, vx1_of f).
Proof.
  rewrite process_frame_tracked.
  destruct (valley_found d f); [|discriminate].
  destruct (gate (tracked d f) f) as [line|]; [|discriminate].
  intro H; inversion H; subst. split; [reflexivity|].
  exists line; auto.
Qed.

(** A step that does not. *)
Lemma process_frame_quiet_inv (d' : Detector) :
  process_frame d f = (d', None) -> d' = tracked d f.
Proof.
  rewrite process_frame_tracked.
  destruct (valley_found d f);
    [destruct (gate (tracked d f) f)|]; intro H; inversion H; reflexivity.
Qed.

(** The valley's velocity is a number below the depth threshold. *)
Lemma valley_velocity :
  valley_found d f = true ->
  exists q, vx1_of f = Some q /\ q < - (4 # 10).
Proof.
  unfold valley_found, isDeepEnough, depthThreshold.
  rewrite andb_true_iff. intros [_ H].
  apply ltb_true in H. destruct H as (x & y & E1 & E2 & L).
  inversion E2; subst. exists x; auto.
Qed.

End StepFacts.

Section CallFacts.

Variables (d : Detector) (c : Call).

Lemma process_call_unfold :
  process_call d c =
  if processed c then process_frame d (call_frame (_N d) c) else (d, None).
Proof.
  unfold process_call, process, processed, call_frame.
  destruct (call_gCount c <? 3)%Z; reflexivity.
Qed.

Lemma process_call_fire_inv (d' : Detector) (e : Event) :
  process_call d c = (d', Some e) ->
  let f := call_frame (_N d) c in
  processed c = true /\ valley_found d f = true /\
  exists line, gate (tracked d f) f = Some line /\
               d' = fire (tracked d f) (t0 f) line /\
               e = ((Z.of_nat line - 1)%Z, vx1_of f).
Proof.
  rewrite process_call_unfold.
  destruct (processed c); [|discriminate].
  intro H. apply process_frame_fire_inv in H. cbv zeta. tauto.
Qed.

Lemma process_call_quiet_inv (d' : Detector) :
  process_call d c = (d', None) ->
  d' = d \/ d' = tracked d (call_frame (_N d) c).
Proof.
  rewrite process_call_unfold.
  destruct (processed c).
  - intro H. right. now apply process_frame_quiet_inv.
  - intro H. inversion H. now left.
Qed.

(** No call changes [_N], the layout or [_firstContentTime]. *)
Lemma process_call_layout (d' : Detector) (e : option Event) :
  process_call d c = (d', e) ->
  _N d' = _N d /\ _lineYs d' = _lineYs d /\ _lineHalf d' = _lineHalf d /\
  _lineCount d' = _lineCount d /\
  _firstContentTime d' = _firstContentTime d.
Proof.
  destruct e as [e|]; intro H.
  - apply process_call_fire_inv in H. cbv zeta in H.
    destruct H as (_ & _ & line & _ & -> & _).
    pose proof (tracked_frame d (call_frame (_N d) c)). cbn. tauto.
  - apply process_call_quiet_inv in H. destruct H as [->| ->]; [tauto|].
    pose proof (tracked_frame d (call_frame (_N d) c)). tauto.
Qed.

End CallFacts.

(** ** Monotonic line firing *)

Section Monotonic.

(** Firing moves [_maxLineReached] strictly up, to the line reported
    plus one; a quiet call leaves it. *)
Lemma process_call_maxLine (d d' : Detector) (c : Call) (e : option Event) :
  process_call d c = (d', e) ->
  match e with
  | Some (tl, _) =>
      (_maxLineReached d <= tl)%Z /\ _maxLineReached d' = (tl + 1)%Z /\
      _currentLine d' = Some (Z.to_nat (tl + 1))
  | None => _maxLineReached d' = _maxLineReached d
  end.
Proof.
  destruct e as [[tl v]|]; intro H.
  - apply process_call_fire_inv in H. cbv zeta in H.
    destruct H as (_ & _ & line & G & -> & E). inversion E; subst.
    apply gate_Some_inv in G. destruct G as (_ & _ & _ & _ & Cl & _ & M).
    destruct (tracked_frame d (call_frame (_N d) c)) as (_ & _ & Em & _).
    rewrite Em in M. cbn.
    replace (Z.of_nat line - 1 + 1)%Z with (Z.of_nat line) by lia.
    rewrite Nat2Z.id. repeat split; auto; lia.
  - apply process_call_quiet_inv in H. destruct H as [->| ->]; auto.
    apply tracked_frame.
Qed.

(** In any content block the reported lines increase strictly and start
    at or above the guard's value at the start of the block. *)
Lemma run_block_lines (cs : list Call) :
  forall d,
    StronglySorted Z.lt (completed_lines (snd (run_block d cs))) /\
    Forall (fun l => (_maxLineReached d <= l)%Z)
           (completed_lines (snd (run_block d cs))).
Proof.
  induction cs as [|c cs IH]; intro d; cbn.
  - split; constructor.
  - destruct (process_call d c) as [d1 e] eqn:Ep.
    specialize (IH d1). destruct (run_block d1 cs) as [d2 es] eqn:Er.
    cbn in *. destruct IH as [IHs IHf].
    apply process_call_maxLine in Ep.
    destruct e as [[tl v]|]; unfold completed_lines in *; cbn.
    + destruct Ep as (Hle & Hmax & _). rewrite Hmax in IHf. split.
      * constructor; auto.
        eapply Forall_impl; [|exact IHf]. cbn. intros; lia.
      * constructor; [exact Hle|].
        eapply Forall_impl; [|exact IHf]. cbn. intros; lia.
    + rewrite Ep in IHf. split; assumption.
Qed.

End Monotonic.

(** C1. Within one content block (the calls of [process] that follow a
    [lockLayout], up to the next [lockLayout] or [reset]) the
    [completedLineIndex] values handed to the trigger callback form a strictly
    increasing sequence: every earlier value is below every later one.
    Behind it: a call that fires found the current line above
    [_maxLineReached], reports that line minus one, and leaves
    [_maxLineReached] equal to that line. *)
Theorem monotonic_line_firing :
  forall (d : Detector) (lineYs : list num) (lineHalfH perfNow : num)
         (cs : list Call),
    StronglySorted Z.lt
      (completed_lines
         (snd (run_block (lockLayout d lineYs lineHalfH perfNow) cs)))
    /\
    Forall
      (fun s : Step =>
         match step_event s with
         | Some (completedLine, _) =>
             let line := (completedLine + 1)%Z in
             _currentLine (step_post s) = Some (Z.to_nat line) /\
             (_maxLineReached (step_pre s) < line)%Z /\
             _maxLineReached (step_post s) = line
         | None => _maxLineReached (step_post s) = _maxLineReached (step_pre s)
         end)
      (trace (lockLayout d lineYs lineHalfH perfNow) cs).
Proof.
  intros. split; [apply run_block_lines|].
  generalize (lockLayout d lineYs lineHalfH perfNow) as s.
  induction cs as [|c cs IH]; intro s; cbn; [constructor|].
  destruct (process_call s c) as [s1 e] eqn:Ep.
  constructor; [|apply IH].
  apply process_call_maxLine in Ep. cbn.
  destruct e as [[tl v]|]; [|exact Ep].
  destruct Ep as (H1 & H2 & H3). repeat split; auto; lia.
Qed.

(** ** The disarmed detector *)

Section Disarmed.

Lemma constructor_disarmed (N : Z) : disarmed (constructor N).
Proof. split; reflexivity. Qed.

Lemma reset_disarmed (d : Detector) : disarmed (reset d).
Proof. split; reflexivity. Qed.

(** With no layout the hit-test returns at its first line. *)
Lemma hit_test_no_layout (d : Detector) (y t : num) :
  _lineYs d = None -> _updateLineFromGaze d y t = d.
Proof. unfold _updateLineFromGaze. now intros ->. Qed.

(** With no current line the gate's line guard lets nothing through. *)
Lemma gate_no_line (d : Detector) (f : Frame) :
  _currentLine d = None -> gate d f = None.
Proof.
  intro H. unfold gate. rewrite H.
  destruct (falsy _ || _); [reflexivity|].
  destruct (_ <? cooldownMs)%num; [reflexivity|].
  destruct (_ >=? cascadeWindowMs)%num; reflexivity.
Qed.

Lemma disarmed_call (d d' : Detector) (c : Call) (e : option Event) :
  disarmed d -> process_call d c = (d', e) -> e = None /\ disarmed d'.
Proof.
  intros [Hy Hl] H.
  assert (Ht : forall f, _currentLine (tracked d f) = None /\
                         _lineYs (tracked d f) = None).
  { intro f. rewrite tracked_currentLine, hit_test_no_layout by exact Hy.
    destruct (tracked_frame d f) as (_ & _ & _ & _ & E & _).
    rewrite E. auto. }
  destruct e as [e|].
  - apply process_call_fire_inv in H. cbv zeta in H.
    destruct H as (_ & _ & line & G & _).
    rewrite gate_no_line in G by apply Ht. discriminate.
  - split; [reflexivity|].
    apply process_call_quiet_inv in H. destruct H as [->| ->].
    + split; assumption.
    + split; apply Ht.
Qed.

Lemma disarmed_run (os : list Op) :
  forall d, disarmed d -> no_lock os = true ->
            fired (snd (run d os)) = [] /\ disarmed (fst (run d os)).
Proof.
  induction os as [|o os IH]; intros d Hd Hn; cbn.
  - auto.
  - cbn in Hn. apply andb_true_iff in Hn. destruct Hn as [Ho Hn].
    destruct (apply_op d o) as [d1 e] eqn:Ea.
    assert (e = None /\ disarmed d1) as [-> Hd1].
    { destruct o as [ys h now|c|]; cbn in Ea, Ho.
      - discriminate.
      - eapply disarmed_call; eauto.
      - inversion Ea; subst. split; [reflexivity|apply reset_disarmed]. }
    specialize (IH d1 Hd1 Hn). destruct (run d1 os) as [d2 es].
    cbn in *. exact IH.
Qed.

End Disarmed.

(** C2. Before [lockLayout] has ever been called on a detector, and after a
    [reset] has dropped the layout, no sequence of [process] calls (with
    further resets among them) invokes the trigger callback: the hit-test
    leaves [_currentLine] at [null], on which the gate's line guard
    returns. *)
Theorem no_pre_lock_firing :
  forall (d0 d : Detector) (bufSize : Z) (os : list Op),
    d = constructor bufSize \/ d = reset d0 ->
    no_lock os = true ->
    fired (snd (run d os)) = [] /\
    _currentLine (fst (run d os)) = None.
Proof.
  intros d0 d N os Hd Hn.
  assert (disarmed d) as Hdis
    by (destruct Hd as [->| ->];
        [apply constructor_disarmed | apply reset_disarmed]).
  destruct (disarmed_run os d Hdis Hn) as [Hf [_ Hl]]. auto.
Qed.

(** ** What the callback receives *)

Lemma process_call_event (d d' : Detector) (c : Call) (tl : Z) (v : num) :
  process_call d c = (d', Some (tl, v)) ->
  (0 <= tl)%Z /\ exists q, v = Some q /\ q < - (4 # 10) /\ q < 0.
Proof.
  intro H. apply process_call_fire_inv in H. cbv zeta in H.
  destruct H as (_ & Hv & line & G & _ & E). inversion E; subst.
  apply gate_Some_inv in G. destruct G as (_ & _ & _ & _ & _ & Hn & _).
  apply valley_velocity in Hv. destruct Hv as (q & -> & Hq).
  split; [lia|]. exists q. repeat split; [exact Hq|lra].
Qed.

(** C3. Whatever the detector is used for (any sequence of [lockLayout],
    [process] and [reset] from any state), every invocation of the trigger
    callback receives a [completedLineIndex] that is an integer at least 0
    (so never -1) and a velocity that is a number below the depth threshold
    -0.4, hence strictly below 0; a call
    that fires has a known current line other than line 0 and reports the
    line before it. *)
Theorem trigger_arguments :
  forall (d : Detector) (os : list Op) (c : Call),
    Forall (fun e : Event =>
              (0 <= fst e)%Z /\
              exists q : Q, snd e = Some q /\ q < - (4 # 10) /\ q < 0)
           (fired (snd (run d os)))
    /\
    match snd (process_call d c) with
    | Some (completedLine, _) =>
        exists line : nat,
          _currentLine (fst (process_call d c)) = Some line /\
          line <> O /\ completedLine = (Z.of_nat line - 1)%Z
    | None => True
    end.
Proof.
  intros d os c. split.
  - revert d.
    induction os as [|o os IH]; intro d; cbn; [constructor|].
    destruct (apply_op d o) as [d1 e] eqn:Ea.
    specialize (IH d1). destruct (run d1 os) as [d2 es]. cbn in *.
    destruct e as [[tl v]|]; [|exact IH].
    constructor; [|exact IH].
    destruct o as [ys h now|c'|]; cbn in Ea; try discriminate.
    cbn. eapply process_call_event; eauto.
  - destruct (process_call d c) as [d' [[tl v]|]] eqn:Ep; cbn; [|exact I].
    apply process_call_fire_inv in Ep. cbv zeta in Ep.
    destruct Ep as (_ & _ & line & G & -> & E). inversion E; subst.
    apply gate_Some_inv in G. destruct G as (_ & _ & _ & _ & Hl & Hn & _).
    exists line. repeat split; auto.
Qed.

(** ** Traces *)

Lemma trace_events (cs : list Call) :
  forall d, map step_event (trace d cs) = snd (run_block d cs).
Proof.
  induction cs as [|c cs IH]; intro d; cbn; [reflexivity|].
  destruct (process_call d c) as [d1 e]. specialize (IH d1).
  destruct (run_block d1 cs) as [d2 es]. cbn in *. now rewrite IH.
Qed.

Lemma trace_step (cs : list Call) :
  forall d, Forall (fun s => process_call (step_pre s) (step_call s)
                             = (step_post s, step_event s) /\
                             _N (step_pre s) = _N d)
                   (trace d cs).
Proof.
  induction cs as [|c cs IH]; intro d; cbn; [constructor|].
  destruct (process_call d c) as [d1 e] eqn:Ep.
  constructor; [cbn; auto|].
  destruct (process_call_layout _ _ _ _ Ep) as (HN & _).
  eapply Forall_impl; [|apply IH]. cbn. intros s [H1 H2].
  split; [exact H1|congruence].
Qed.

(** ** Cooldown *)

Section Cooldown.

(** A fire found [now - _lastTriggerTime < 500] false and stamped
    [_lastTriggerTime = now]; a quiet call leaves the stamp. *)
Lemma fire_cooldown (d d' : Detector) (c : Call) (e : Event) :
  process_call d c = (d', Some e) ->
  (call_now (_N d) c - _lastTriggerTime d <? cooldownMs)%num = false /\
  _lastTriggerTime d' = call_now (_N d) c.
Proof.
  intro H. apply process_call_fire_inv in H. cbv zeta in H.
  destruct H as (_ & _ & line & G & -> & _).
  apply gate_Some_inv in G. destruct G as (_ & _ & Hc & _).
  destruct (tracked_frame d (call_frame (_N d) c)) as (_ & El & _).
  rewrite El in Hc. split; [exact Hc|reflexivity].
Qed.

Lemma quiet_cooldown (d d' : Detector) (c : Call) :
  process_call d c = (d', None) ->
  _lastTriggerTime d' = _lastTriggerTime d.
Proof.
  intro H. apply process_call_quiet_inv in H.
  destruct H as [->| ->]; [reflexivity|apply tracked_frame].
Qed.

Variable N : Z.

(** Once the stamp is [l], every later fire of the block is at
    [l + 500] or later. *)
Lemma fires_after_stamp (cs : list Call) :
  forall (d : Detector) (l : Q),
    _N d = N -> _lastTriggerTime d = Some l -> numbered N cs ->
    forall (j : nat) (sj : Step),
      nth_error (trace d cs) j = Some sj -> step_fires sj ->
      exists tj, step_now sj = Some tj /\ l + 500 <= tj.
Proof.
  induction cs as [|c cs IH]; intros d l HN Hl Hnum j sj Hj Hf.
  - destruct j; discriminate.
  - cbn in Hj. destruct (process_call d c) as [d1 e] eqn:Ep.
    inversion Hnum as [|c' cs' Hc Hcs]; subst c' cs'.
    destruct (process_call_layout _ _ _ _ Ep) as (HN1 & _).
    destruct (call_now (_N d) c) as [t|] eqn:Et;
      [|exfalso; apply Hc; rewrite <- HN; exact Et].
    destruct j as [|j].
    + inversion Hj; subst sj. unfold step_fires in Hf. cbn in Hf.
      destruct e as [e|]; [|congruence].
      apply fire_cooldown in Ep. destruct Ep as [Hcool _].
      rewrite Et, Hl in Hcool. cbn in Hcool.
      apply Qlt_bool_false in Hcool.
      exists t. unfold step_now. cbn. split; [exact Et|lra].
    + cbn in Hj. destruct e as [e|].
      * apply fire_cooldown in Ep. destruct Ep as [Hcool Hst].
        rewrite Et, Hl in Hcool. cbn in Hcool.
        apply Qlt_bool_false in Hcool. rewrite Et in Hst.
        destruct (IH d1 t ltac:(congruence) Hst Hcs j sj Hj Hf)
          as (tj & E & L).
        exists tj. split; [exact E|lra].
      * apply quiet_cooldown in Ep. rewrite Hl in Ep.
        exact (IH d1 l ltac:(congruence) Ep Hcs j sj Hj Hf).
Qed.

(** Any two fires of a block are 500 ms apart or more. *)
Lemma two_fires_apart (cs : list Call) :
  forall (d : Detector),
    _N d = N -> numbered N cs ->
    forall (i j : nat) (si sj : Step),
      (i < j)%nat ->
      nth_error (trace d cs) i = Some si ->
      nth_error (trace d cs) j = Some sj ->
      step_fires si -> step_fires sj ->
      exists ti tj,
        step_now si = Some ti /\ step_now sj = Some tj /\ ti + 500 <= tj.
Proof.
  induction cs as [|c cs IH]; intros d HN Hnum i j si sj Hij Hi Hj Fi Fj.
  - destruct i; discriminate.
  - cbn in Hi, Hj. destruct (process_call d c) as [d1 e] eqn:Ep.
    inversion Hnum as [|c' cs' Hc Hcs]; subst c' cs'.
    destruct (process_call_layout _ _ _ _ Ep) as (HN1 & _).
    destruct j as [|j]; [lia|]. cbn in Hj.
    destruct i as [|i].
    + inversion Hi; subst si. unfold step_fires in Fi. cbn in Fi.
      destruct e as [e|]; [|congruence].
      destruct (call_now (_N d) c) as [t|] eqn:Et;
        [|exfalso; apply Hc; rewrite <- HN; exact Et].
      apply fire_cooldown in Ep. destruct Ep as [_ Hst].
      rewrite Et in Hst.
      destruct (fires_after_stamp cs d1 t ltac:(congruence) Hst Hcs
                  j sj Hj Fj) as (tj & E & L).
      exists t, tj. unfold step_now at 1. cbn. auto.
    + cbn in Hi.
      apply (IH d1 ltac:(congruence) Hcs i j si sj); auto; lia.
Qed.

(** The stamp stays a number. *)
Lemma lastTriggerTime_number (cs : list Call) :
  forall d,
    _N d = N -> is_number (_lastTriggerTime d) -> numbered N cs ->
    Forall (fun s => is_number (_lastTriggerTime (step_pre s))) (trace d cs).
Proof.
  induction cs as [|c cs IH]; intros d HN Hd Hcs; cbn; [constructor|].
  destruct (process_call d c) as [d1 e] eqn:Ep.
  inversion Hcs as [|c' cs' Hc Hcs']; subst c' cs'.
  constructor; [exact Hd|].
  destruct (process_call_layout _ _ _ _ Ep) as (HN1 & _).
  apply IH; [congruence| |exact Hcs'].
  destruct e as [e|].
  - apply fire_cooldown in Ep. destruct Ep as [_ ->]. now rewrite HN.
  - apply quiet_cooldown in Ep. now rewrite Ep.
Qed.

End Cooldown.

(** C4, as stated, fails when the layout is locked again between the two
    valleys: [lockLayout] (like [reset]) puts [_lastTriggerTime] back to 0.
    In [relock_ops] the call at 1264 ms fires, the layout is locked again, and
    the call at 1363 ms, 99 ms later, fires too. *)
Lemma cooldown_across_lock_counterexample :
  nth_error (snd (run (constructor 8) relock_ops)) 9
  = Some (Some (0%Z, Some (-460 # 33))) /\
  nth_error (snd (run (constructor 8) relock_ops)) 13
  = Some (Some (1%Z, Some (-480 # 33))) /\
  option_map (op_now 8) (nth_error relock_ops 9) = Some (Some 1264) /\
  option_map (op_now 8) (nth_error relock_ops 13) = Some (Some 1363) /\
  option_map is_lock (nth_error relock_ops 10) = Some true /\
  Qabs (1363 - 1264) < 500.
Proof.
  repeat split; try (vm_compute; reflexivity).
Qed.

(** C4, amended. Within one content block (calls of [process] with no
    [lockLayout] or [reset] between them) whose timestamps are numbers, the
    detector never fires twice within the cooldown: a call that fires had
    [now − _lastTriggerTime ≥ 500] and set [_lastTriggerTime = now]; the
    later of any two calls that fire has its [now] at least 500 ms after the
    earlier one's; so two calls (candidate valleys) of the block whose newest
    timestamps are less than 500 ms apart produce at most one trigger. *)
Theorem cooldown_enforcement :
  forall (d : Detector) (cs : list Call),
    is_number (_lastTriggerTime d) ->
    numbered (_N d) cs ->
    Forall (fun s =>
              step_fires s ->
              exists now last : Q,
                step_now s = Some now /\
                _lastTriggerTime (step_pre s) = Some last /\
                500 <= now - last /\
                _lastTriggerTime (step_post s) = Some now)
           (trace d cs)
    /\
    (forall (i j : nat) (si sj : Step),
        (i < j)%nat ->
        nth_error (trace d cs) i = Some si ->
        nth_error (trace d cs) j = Some sj ->
        step_fires si -> step_fires sj ->
        exists ti tj : Q,
          step_now si = Some ti /\ step_now sj = Some tj /\ ti + 500 <= tj)
    /\
    (forall (i j : nat) (si sj : Step) (ti tj : Q),
        (i < j)%nat ->
        nth_error (trace d cs) i = Some si ->
        nth_error (trace d cs) j = Some sj ->
        step_now si = Some ti -> step_now sj = Some tj ->
        Qabs (tj - ti) < 500 ->
        ~ (step_fires si /\ step_fires sj)).
Proof.
  intros d cs Hl Hnum.
  assert (Hpair : forall i j si sj,
             (i < j)%nat ->
             nth_error (trace d cs) i = Some si ->
             nth_error (trace d cs) j = Some sj ->
             step_fires si -> step_fires sj ->
             exists ti tj : Q,
               step_now si = Some ti /\ step_now sj = Some tj /\
               ti + 500 <= tj)
    by (apply (two_fires_apart (_N d)); auto).
  split; [|split; [exact Hpair|]].
  - pose proof (trace_step cs d) as Hs.
    pose proof (lastTriggerTime_number (_N d) cs d eq_refl Hl Hnum) as Hn.
    rewrite Forall_forall in *. intros s Hin Hf.
    destruct (Hs s Hin) as [Hp HN]. specialize (Hn s Hin).
    unfold step_fires in Hf.
    destruct (step_event s) as [e|] eqn:Ee; [|congruence].
    apply fire_cooldown in Hp. destruct Hp as [Hcool Hst].
    fold (step_now s) in Hcool, Hst.
    destruct (_lastTriggerTime (step_pre s)) as [last|]; [|now elim Hn].
    destruct (step_now s) as [now|] eqn:En.
    + exists now, last. cbn in Hcool. apply Qlt_bool_false in Hcool. auto.
    + exfalso.
      assert (Hc : In (step_call s) cs).
      { clear - Hin. revert d Hin.
        induction cs as [|c cs' IH]; intros d Hin; cbn in Hin; [contradiction|].
        destruct (process_call d c) as [d1 e1].
        destruct Hin as [<-|Hin]; [now left|right; eauto]. }
      unfold numbered in Hnum. rewrite Forall_forall in Hnum.
      apply (Hnum _ Hc). unfold step_now in En. now rewrite <- HN.
  - intros i j si sj ti tj Hij Hi Hj Ei Ej Hclose [Fi Fj].
    destruct (Hpair i j si sj Hij Hi Hj Fi Fj) as (ti' & tj' & E1 & E2 & L).
    rewrite Ei in E1. rewrite Ej in E2. inversion E1; inversion E2; subst.
    apply Qabs_Qlt_condition in Hclose. lra.
Qed.

(** ** Cascade window *)

Section Cascade.

(** A velocity below zero was computed by the division, so its
    timestamp delta was positive and both timestamps are numbers. *)
Lemma velocity_negative (xa xb ta tb : num) (q : Q) :
  velocity xa xb (ta - tb)%num = Some q -> q < 0 ->
  exists a b, ta = Some a /\ tb = Some b /\ b < a.
Proof.
  unfold velocity, gtb. intros H Hq.
  destruct (n0 <? ta - tb)%num eqn:E.
  - apply ltb_true in E. destruct E as (z & dt & Ez & Ed & L).
    destruct ta as [a|], tb as [b|]; try discriminate.
    inversion Ez; inversion Ed; subst. exists a, b.
    repeat split; auto. lra.
  - inversion H; subst. lra.
Qed.

(** The divisor of every division [process] performs is positive. *)
Lemma velocity_divisor_positive (xa xb dt : num) :
  velocity xa xb dt <> n0 -> exists q, dt = Some q /\ 0 < q.
Proof.
  unfold velocity, gtb. intro H.
  destruct (n0 <? dt)%num eqn:E; [|congruence].
  apply ltb_true in E. destruct E as (z & q & Ez & -> & L).
  inversion Ez; subst. exists q; auto.
Qed.

Lemma valley_time_number (d : Detector) (f : Frame) :
  valley_found d f = true -> exists tv, t1 f = Some tv.
Proof.
  intro H. apply valley_velocity in H. destruct H as (q & E & L).
  unfold vx1_of in E. apply velocity_negative in E; [|lra].
  destruct E as (a & _ & -> & _). now exists a.
Qed.

(** Numbers in, numbers kept: [_lastPeakTime] is only ever assigned a
    [t1] or zero. *)
Lemma lastPeakTime_number (cs : list Call) :
  forall d,
    is_number (_lastPeakTime d) ->
    Forall (fun c => is_number (t1 (call_frame (_N d) c))) cs ->
    Forall (fun s => is_number (_lastPeakTime (step_pre s))) (trace d cs).
Proof.
  induction cs as [|c cs IH]; intros d Hd Hcs; cbn; [constructor|].
  destruct (process_call d c) as [d1 e] eqn:Ep.
  inversion Hcs as [|c' cs' Hc Hcs']; subst c' cs'.
  constructor; [exact Hd|].
  destruct (process_call_layout _ _ _ _ Ep) as (HN & _).
  apply IH; [|rewrite HN; exact Hcs'].
  destruct e as [e|].
  - apply process_call_fire_inv in Ep. cbv zeta in Ep.
    destruct Ep as (_ & _ & line & _ & -> & _). cbn. discriminate.
  - apply process_call_quiet_inv in Ep. destruct Ep as [->| ->]; auto.
    rewrite tracked_lastPeakTime. destruct (peak_found _ _); auto.
Qed.

(** The core of the cascade check: a call that fires from a state whose
    [_lastPeakTime] is a number had its valley inside the window. *)
Lemma fire_within_window (d d' : Detector) (c : Call) (e : Event) :
  is_number (_lastPeakTime d) ->
  process_call d c = (d', Some e) ->
  let f := call_frame (_N d) c in
  exists tv tp : Q,
    t1 f = Some tv /\ _lastPeakTime (tracked d f) = Some tp /\
    Qabs (tv - tp) < 600.
Proof.
  intros Hnum H f. apply process_call_fire_inv in H. cbv zeta in H.
  destruct H as (_ & Hv & line & G & _).
  apply gate_Some_inv in G. destruct G as (_ & _ & _ & Hw & _).
  destruct (valley_time_number _ _ Hv) as (tv & Etv).
  fold f in Etv, Hw.
  assert (exists tp, _lastPeakTime (tracked d f) = Some tp) as (tp & Etp).
  { rewrite tracked_lastPeakTime. destruct (peak_found d f); [eauto|].
    destruct (_lastPeakTime d) as [tp|]; [eauto|now elim Hnum]. }
  exists tv, tp. repeat split; auto.
  rewrite Etv, Etp in Hw. cbn in Hw. now apply Qle_bool_false in Hw.
Qed.

(** In a block that starts with a numeric [_lastPeakTime] and reads only
    numeric timestamps, every fire is inside the window. *)
Lemma block_fires_within_window (d : Detector) (cs : list Call) :
  is_number (_lastPeakTime d) ->
  Forall (fun c => is_number (t1 (call_frame (_N d) c))) cs ->
  Forall (fun s =>
            step_fires s ->
            exists tv tp : Q,
              t1 (step_frame s) = Some tv /\
              _lastPeakTime (tracked (step_pre s) (step_frame s)) = Some tp /\
              Qabs (tv - tp) < 600)
         (trace d cs).
Proof.
  intros Hd Hcs.
  pose proof (trace_step cs d) as Hs.
  pose proof (lastPeakTime_number cs d Hd Hcs) as Hn.
  rewrite Forall_forall in *. intros s Hin Hf.
  destruct (Hs s Hin) as [Hp _]. specialize (Hn s Hin).
  unfold step_fires in Hf.
  destruct (step_event s) as [e|]; [|congruence].
  exact (fire_within_window _ _ _ _ Hn Hp).
Qed.

End Cascade.

(** The field [_lastPeakTime] follows the recorded peak of the history. *)
Lemma recorded_peak_sound (cs : list Call) :
  forall d : Detector,
    Forall2
      (fun s lastPeakTime =>
         _lastPeakTime (step_post s)
         = match step_event s with
           | Some _ => n0
           | None => lastPeakTime
           end
         /\ (step_fires s ->
             exists valleyTime : Q,
               t1 (step_frame s) = Some valleyTime /\
               forall peakTime : Q,
                 lastPeakTime = Some peakTime ->
                 Qabs (valleyTime - peakTime) < 600)
         /\ (forall valleyTime peakTime : Q,
               t1 (step_frame s) = Some valleyTime ->
               lastPeakTime = Some peakTime ->
               600 <= Qabs (valleyTime - peakTime) ->
               step_event s = None))
      (trace d cs) (recorded_peak (_lastPeakTime d) (trace d cs)).
Proof.
  induction cs as [|c cs IH]; intro d; cbn [trace]; [constructor|].
  destruct (process_call d c) as [d1 e] eqn:Ep.
  cbn [recorded_peak step_call step_pre step_event].
  unfold step_frame at 1 2. cbn [step_pre step_call].
  set (f := call_frame (_N d) c).
  set (r := if processed c && peak_found d f then t1 f else _lastPeakTime d).
  assert (Hpost : _lastPeakTime d1
                  = match e with Some _ => n0 | None => r end).
  { destruct e as [e0|].
    - apply process_call_fire_inv in Ep. cbv zeta in Ep.
      destruct Ep as (_ & _ & line & _ & -> & _). reflexivity.
    - rewrite process_call_unfold in Ep. unfold r.
      destruct (processed c); cbn [andb].
      + apply process_frame_quiet_inv in Ep. subst d1. fold f.
        apply tracked_lastPeakTime.
      + now inversion Ep. }
  assert (Hgate : forall e0, e = Some e0 ->
            exists v : Q, t1 f = Some v /\
              forall p : Q, r = Some p -> Qabs (v - p) < 600).
  { intros e0 ->. apply process_call_fire_inv in Ep. cbv zeta in Ep.
    fold f in Ep. destruct Ep as (Hpr & Hv & line & G & _).
    apply gate_Some_inv in G. destruct G as (_ & _ & _ & Hw & _).
    destruct (valley_time_number _ _ Hv) as (v & Ev).
    exists v. split; [exact Ev|]. intros p Hr.
    unfold r in Hr. rewrite Hpr in Hr. cbn [andb] in Hr.
    rewrite tracked_lastPeakTime, Hr, Ev in Hw.
    unfold geb, cascadeWindowMs in Hw.
    cbn [abs sub lift2 option_map leb] in Hw.
    now apply Qle_bool_false in Hw. }
  constructor.
  - cbn [step_post step_event step_pre step_call]. unfold step_frame.
    cbn [step_pre step_call]. fold f.
    split; [exact Hpost|]. split.
    + unfold step_fires. cbn [step_event]. intro Hf.
      destruct e as [e0|]; [now apply (Hgate e0)|congruence].
    + intros v p Ev Er Hfar. destruct e as [e0|]; [|reflexivity].
      destruct (Hgate e0 eq_refl) as (v' & Ev' & Hlt).
      rewrite Ev in Ev'. inversion Ev'; subst v'.
      specialize (Hlt p Er). exfalso. lra.
  - specialize (IH d1). rewrite Hpost in IH. exact IH.
Qed.

(** With numeric valley-time stamps the recorded peak is always a number. *)
Lemma recorded_peak_number (cs : list Call) :
  forall (d : Detector) (p : num),
    is_number p ->
    Forall (fun c => processed c = true ->
                     is_number (t1 (call_frame (_N d) c))) cs ->
    Forall is_number (recorded_peak p (trace d cs)).
Proof.
  induction cs as [|c cs IH]; intros d p Hp Hcs; cbn [trace];
    [constructor|].
  inversion Hcs as [|c' cs' Hc Hcs']; subst c' cs'.
  destruct (process_call d c) as [d1 e] eqn:Ep.
  destruct (process_call_layout _ _ _ _ Ep) as (HN & _).
  cbn [recorded_peak step_call step_pre step_event].
  unfold step_frame. cbn [step_pre step_call].
  set (r := if processed c && peak_found d (call_frame (_N d) c)
            then t1 (call_frame (_N d) c) else p).
  assert (Hr : is_number r).
  { unfold r. destruct (processed c); cbn [andb]; [|exact Hp].
    destruct (peak_found d (call_frame (_N d) c)); [now apply Hc|exact Hp]. }
  constructor; [exact Hr|].
  apply IH; [|rewrite HN; exact Hcs'].
  destruct e; [discriminate|exact Hr].
Qed.

(** C5, as stated, fails when no peak has been detected: [lockLayout] (like
    [reset] and every fire) leaves [_lastPeakTime] at 0, and the window is
    taken against that 0.  After a lock, three samples moving left with
    timestamps 500, 533, 566 give a valley at 533 on the first processed
    step; no position peak or zero-crossing is detected on any step, yet the
    step fires, 533 being within 600 of 0. *)
Lemma cascade_without_peak_counterexample :
  map (fun s => processed (step_call s)
                && peak_found (step_pre s) (step_frame s))
      (trace demo_locked early_calls) = [false; false; false] /\
  map step_event (trace demo_locked early_calls)
  = [None; None; Some (0%Z, Some (-100 # 33))] /\
  map (fun s => t1 (step_frame s)) (trace demo_locked early_calls)
  = [Some 0; Some 500; Some 533] /\
  ~ Forall2 (fun s armed => step_fires s -> armed = true)
      (trace demo_locked early_calls)
      (peak_armed false (trace demo_locked early_calls)).
Proof.
  repeat split; try (vm_compute; reflexivity).
  intro H.
  assert (E : trace demo_locked early_calls
              = [nth 0 (trace demo_locked early_calls) idle_step;
                 nth 1 (trace demo_locked early_calls) idle_step;
                 nth 2 (trace demo_locked early_calls) idle_step])
    by (vm_compute; reflexivity).
  assert (Ea : peak_armed false (trace demo_locked early_calls)
               = [false; false; false]) by (vm_compute; reflexivity).
  rewrite Ea in H. rewrite E in H.
  inversion H as [|? ? ? ? _ H1]; subst.
  inversion H1 as [|? ? ? ? _ H2]; subst.
  inversion H2 as [|? ? ? ? H3 _]; subst.
  assert (Hf : step_fires (nth 2 (trace demo_locked early_calls) idle_step)).
  { unfold step_fires. vm_compute. discriminate. }
  specialize (H3 Hf). discriminate H3.
Qed.

(** C5, amended. In the block that follows [lockLayout], a step fires only
    when its valley time [t(t-1)] is within the cascade window of the recorded
    peak, [|valleyTime - lastPeakTime| < 600], where [lastPeakTime] is read off
    the block's history: the [t(t-1)] of the most recent step, this one
    included, on which a position peak or a velocity zero-crossing was
    detected since the block began or since its previous fire, and 0 when
    there has been none ([lockLayout] and every fire leave 0 behind).  After
    each step the field [_lastPeakTime] holds that value, or 0 if the step
    fired.  The difference is absolute; a valley at distance 600 or more from
    the recorded value, before or after it, does not fire.  The valley time
    of a firing step is always a number; the recorded value is one whenever
    the valley-time stamps of the processed calls are. *)
Theorem cascade_window_enforcement :
  forall (d : Detector) (lineYs : list num) (lineHalfH perfNow : num)
         (cs : list Call),
    let block := trace (lockLayout d lineYs lineHalfH perfNow) cs in
    Forall2
      (fun s lastPeakTime =>
         _lastPeakTime (step_post s)
         = match step_event s with
           | Some _ => n0
           | None => lastPeakTime
           end
         /\ (step_fires s ->
             exists valleyTime : Q,
               t1 (step_frame s) = Some valleyTime /\
               forall peakTime : Q,
                 lastPeakTime = Some peakTime ->
                 Qabs (valleyTime - peakTime) < 600)
         /\ (forall valleyTime peakTime : Q,
               t1 (step_frame s) = Some valleyTime ->
               lastPeakTime = Some peakTime ->
               600 <= Qabs (valleyTime - peakTime) ->
               step_event s = None))
      block (recorded_peak n0 block)
    /\
    (Forall (fun c => processed c = true ->
                      is_number (t1 (call_frame (_N d) c))) cs ->
     Forall is_number (recorded_peak n0 block)).
Proof.
  intros d ys h now cs block. split.
  - exact (recorded_peak_sound cs (lockLayout d ys h now)).
  - intro Hcs.
    apply (recorded_peak_number cs (lockLayout d ys h now) n0);
      [discriminate|exact Hcs].
Qed.

(** In the worked scenario the two fires (steps 8 and 25) have valley times
    1231 and 1792 against recorded peaks 1198 and 1726. *)
Example demo_recorded_peaks :
  map (fun i => (nth i (map step_event demo_trace) None,
                 nth i (map (fun s => t1 (step_frame s)) demo_trace) NaN,
                 nth i (recorded_peak n0 demo_trace) NaN))
      [8%nat; 25%nat]
  = [ (Some (0%Z, Some (-460 # 33)), Some 1231, Some 1198);
      (Some (1%Z, Some (-460 # 33)), Some 1792, Some 1726) ].
Proof. vm_compute. reflexivity. Qed.

(** The difference is taken in absolute value: a valley whose time (1900)
    precedes the recorded peak (2000) by less than the window fires. *)
Example valley_before_peak_fires :
  _lastPeakTime after_peak = Some 2000 /\
  peak_found after_peak (call_frame 3 stepped_back_call) = false /\
  t1 (call_frame 3 stepped_back_call) = Some 1900 /\
  snd (process_call after_peak stepped_back_call)
  = Some (0%Z, Some (-1000 # 33)).
Proof. repeat split; vm_compute; reflexivity. Qed.

(** ** Smoothing and velocity *)

Section Estimator.

Lemma smoothX_spec (f : Frame) :
  smoothX f === spec_smoothed (x0 f) (x1 f) (x2 f).
Proof.
  unfold smoothX, spec_smoothed.
  destruct (x0 f), (x1 f), (x2 f); cbn; try exact I. ring.
Qed.

Lemma velocity_spec (xa xb : num) (ta tb : Q) :
  velocity xa xb (Some ta - Some tb)%num === spec_velocity xa xb ta tb.
Proof.
  unfold velocity, spec_velocity, gtb, ltb, n0, sub, lift2, Qlt_bool.
  destruct (Qle_bool (ta - tb) 0); cbn [negb]; apply equiv_refl.
Qed.

Lemma velocity_nonpositive_delta (xa xb : num) (ta tb : Q) :
  ta - tb <= 0 -> velocity xa xb (Some ta - Some tb)%num = n0.
Proof.
  intro H. unfold velocity, gtb. cbn.
  apply Qle_bool_iff in H. unfold Qlt_bool. now rewrite H.
Qed.

Lemma velocity_positive_delta (xa xb : num) (ta tb : Q) :
  0 < ta - tb ->
  velocity xa xb (Some ta - Some tb)%num
  = ((xa - xb) / (Some ta - Some tb))%num.
Proof.
  intro H. unfold velocity, gtb. cbn.
  apply Qlt_bool_iff in H. now rewrite H.
Qed.

(** What a processed call leaves in the rolling caches. *)
Lemma process_caches (d : Detector) (f : Frame) :
  let d' := fst (process_frame d f) in
  _sx1 d' = smoothX f /\ _sx2 d' = _sx1 d /\ _vx2 d' = vx1_of f.
Proof.
  rewrite process_frame_tracked.
  pose proof (tracked_caches d f) as H.
  destruct (valley_found d f); [destruct (gate (tracked d f) f)|];
    cbn; exact H.
Qed.

End Estimator.

(** C6. On every processing step with at least three buffered samples, the
    smoothed X of the newest sample (kept in [_sx1]) is
    [0.5·x(t) + 0.3·x(t−1) + 0.2·x(t−2)]; the two velocities of the step are
    [(x(t) − x(t−1)) / (t(t) − t(t−1))] and
    [(x(t−1) − x(t−2)) / (t(t−1) − t(t−2))] (the second is kept in [_vx2] and
    is what a trigger reports); and a velocity is exactly 0 whenever its
    timestamp delta is ≤ 0. *)
Theorem smoothing_and_velocity :
  forall (d : Detector) (b : Buffers) (gIdx gCount : Z),
    (3 <= gCount)%Z ->
    let f := read_frame (_N d) b gIdx in
    let d' := fst (process d b gIdx gCount) in
    _sx1 d' === spec_smoothed (x0 f) (x1 f) (x2 f) /\
    _vx2 d' = vx1_of f /\
    (forall e, snd (process d b gIdx gCount) = Some e -> snd e = vx1_of f) /\
    (forall ta tb : Q, t0 f = Some ta -> t1 f = Some tb ->
       vx0_of f === spec_velocity (x0 f) (x1 f) ta tb /\
       (0 < ta - tb -> vx0_of f = ((x0 f - x1 f) / (t0 f - t1 f))%num) /\
       (ta - tb <= 0 -> vx0_of f = n0)) /\
    (forall ta tb : Q, t1 f = Some ta -> t2 f = Some tb ->
       vx1_of f === spec_velocity (x1 f) (x2 f) ta tb /\
       (0 < ta - tb -> vx1_of f = ((x1 f - x2 f) / (t1 f - t2 f))%num) /\
       (ta - tb <= 0 -> vx1_of f = n0)).
Proof.
  intros d b gIdx gCount H3 f d'.
  assert (Ep : process d b gIdx gCount = process_frame d f).
  { unfold process. apply Z.ltb_ge in H3. now rewrite H3. }
  subst d'. rewrite Ep.
  destruct (process_caches d f) as (H1 & _ & H2).
  split; [rewrite H1; apply smoothX_spec|]. split; [exact H2|].
  split.
  { intros e He. destruct (process_frame d f) as [d1 oe] eqn:E.
    cbn in He. subst oe. apply process_frame_fire_inv in E.
    destruct E as (_ & line & _ & _ & ->). reflexivity. }
  split; intros ta tb Ea Eb; unfold vx0_of, vx1_of; rewrite Ea, Eb;
    (split; [apply velocity_spec|]);
    (split; [apply velocity_positive_delta
            |apply velocity_nonpositive_delta]).
Qed.

(** ** Steps without a valley *)

(** C7, as stated, fails: on a processed step that finds no valley the
    hit-test has still run and the peak tracker may still record a peak.
    After a lock on three lines, the call [turn_call] finds no valley, yet it
    moves [_currentLine] from [null] to 0 and [_lastPeakTime] from 0 to
    1033. *)
Lemma no_valley_step_counterexample :
  processed turn_call = true /\
  valley_found demo_locked (call_frame (_N demo_locked) turn_call) = false /\
  snd (process_call demo_locked turn_call) = None /\
  _currentLine demo_locked = None /\
  _currentLine (fst (process_call demo_locked turn_call)) = Some O /\
  _lastPeakTime demo_locked = Some 0 /\
  _lastPeakTime (fst (process_call demo_locked turn_call)) = Some (1033 # 1) /\
  ~ (_lastPeakTime (fst (process_call demo_locked turn_call))
       = _lastPeakTime demo_locked /\
     _currentLine (fst (process_call demo_locked turn_call))
       = _currentLine demo_locked).
Proof.
  repeat split; try (vm_compute; reflexivity).
  vm_compute. intros [H _]. discriminate H.
Qed.

(** C7, amended. On a processed step that finds no velocity valley the gate
    is not consulted: the callback is not invoked and [_lastTriggerTime],
    [_maxLineReached], [_firstContentTime] and the layout are unchanged.
    What the step writes is the rolling caches, the current line and its
    change time as the hit-test (which runs first on every processed sample)
    sets them, and [_lastPeakTime] when a position peak or a velocity
    zero-crossing is detected. *)
Theorem no_valley_step_frame :
  forall (d : Detector) (c : Call),
    processed c = true ->
    let f := call_frame (_N d) c in
    valley_found d f = false ->
    let d' := fst (process_call d c) in
    snd (process_call d c) = None /\
    _lastTriggerTime d' = _lastTriggerTime d /\
    _maxLineReached d' = _maxLineReached d /\
    _firstContentTime d' = _firstContentTime d /\
    _N d' = _N d /\ _lineYs d' = _lineYs d /\ _lineHalf d' = _lineHalf d /\
    _lineCount d' = _lineCount d /\
    _sx1 d' = smoothX f /\ _sx2 d' = _sx1 d /\ _vx2 d' = vx1_of f /\
    _currentLine d' = _currentLine (_updateLineFromGaze d (y0 f) (t0 f)) /\
    _lastLineChangeT d'
      = _lastLineChangeT (_updateLineFromGaze d (y0 f) (t0 f)) /\
    _lastPeakTime d' = (if peak_found d f then t1 f else _lastPeakTime d).
Proof.
  intros d c Hp f Hv d'. subst d'.
  rewrite process_call_unfold, Hp, process_frame_tracked. fold f.
  rewrite Hv. cbn [fst snd].
  destruct (tracked_frame d f) as (A1 & A2 & A3 & A4 & A5 & A6 & A7).
  destruct (tracked_caches d f) as (B1 & B2 & B3).
  pose proof (tracked_currentLine d f).
  pose proof (tracked_lastLineChangeT d f).
  pose proof (tracked_lastPeakTime d f).
  repeat split; assumption.
Qed.

(** ** The hit-test *)

Section HitTest.

(** The band test is the absolute-difference test. *)
Lemma in_band_abs (y c h : num) :
  in_band y c h = (abs (y - c) <=? h)%num.
Proof.
  unfold in_band, geb.
  destruct y as [y|], c as [c|], h as [h|];
    cbn [leb abs sub add lift2 option_map andb]; try reflexivity.
  apply eq_true_iff_eq. rewrite andb_true_iff, !Qle_bool_iff.
  rewrite Qabs_Qle_condition. split; intro H; split; lra.
Qed.

Lemma rd_app (pre rest : list num) (c : num) :
  rd (pre ++ c :: rest) (Some (Z.of_nat (length pre))) = c.
Proof.
  unfold rd.
  destruct (Z.of_nat (length pre) <? 0)%Z eqn:E;
    [apply Z.ltb_lt in E; lia|].
  rewrite Nat2Z.id, nth_error_app2 by lia.
  now rewrite Nat.sub_diag.
Qed.

(** The loop finds what the spec's [locate] finds. *)
Lemma scan_from_locate (half y : num) (rest : list num) :
  forall pre,
    scan_from (pre ++ rest) half y (length pre) (length rest)
    = locate_from (length pre) rest half y.
Proof.
  induction rest as [|c r IH]; intro pre; cbn [scan_from locate_from length].
  - reflexivity.
  - rewrite rd_app, in_band_abs.
    destruct (abs (y - c) <=? half)%num; [reflexivity|].
    specialize (IH (pre ++ [c])).
    rewrite <- app_assoc, length_app in IH. cbn in IH.
    rewrite Nat.add_1_r in IH. exact IH.
Qed.

Lemma scan_locate (ys : list num) (half y : num) :
  scan_from ys half y 0 (length ys) = locate ys half y.
Proof. exact (scan_from_locate half y ys []). Qed.

(** [locate] returns the lowest matching index. *)
Lemma locate_from_Some (ys : list num) (half y : num) :
  forall i0 i,
    locate_from i0 ys half y = Some i ->
    exists k, i = (i0 + k)%nat /\
              (exists c, nth_error ys k = Some c /\
                         (abs (y - c) <=? half)%num = true) /\
              forall j c, (j < k)%nat -> nth_error ys j = Some c ->
                          (abs (y - c) <=? half)%num = false.
Proof.
  induction ys as [|c r IH]; intros i0 i H; cbn in H; [discriminate|].
  destruct (abs (y - c) <=? half)%num eqn:E.
  - inversion H; subst. exists O. split; [lia|]. split.
    + exists c. auto.
    + intros j c' Hj. lia.
  - apply IH in H. destruct H as (k & -> & Hk & Hlow).
    exists (S k). split; [lia|]. split; [exact Hk|].
    intros [|j] c' Hj Hc; cbn in Hc.
    + inversion Hc; subst. exact E.
    + apply (Hlow j); auto; lia.
Qed.

Lemma locate_from_None (ys : list num) (half y : num) :
  forall i0,
    locate_from i0 ys half y = None <->
    Forall (fun c => (abs (y - c) <=? half)%num = false) ys.
Proof.
  induction ys as [|c r IH]; intro i0; cbn.
  - split; [constructor|reflexivity].
  - destruct (abs (y - c) <=? half)%num eqn:E.
    + split; [discriminate|]. intro H. inversion H; congruence.
    + rewrite IH. split; [now constructor|].
      intro H. now inversion H.
Qed.

Variables (ys : list num) (half : num).

Lemma hit_test_locate (d : Detector) (y t : num) :
  locked_on ys half d ->
  _currentLine (_updateLineFromGaze d y t)
  = match locate ys half y with
    | Some i => Some i
    | None => _currentLine d
    end.
Proof.
  intros (Hy & Hh & Hc). unfold _updateLineFromGaze.
  rewrite Hy, Hh, Hc.
  destruct (Nat.eqb (length ys) 0) eqn:E0.
  - apply Nat.eqb_eq in E0. destruct ys; [reflexivity|discriminate].
  - rewrite scan_locate. destruct (locate ys half y) as [i|];
      [|reflexivity].
    destruct (_currentLine d) as [j|] eqn:Ej; cbn.
    + destruct (Nat.eqb i j) eqn:Eij; [|reflexivity].
      apply Nat.eqb_eq in Eij. congruence.
    + reflexivity.
Qed.

Lemma process_call_currentLine (d : Detector) (c : Call) :
  _currentLine (fst (process_call d c))
  = if processed c
    then let f := call_frame (_N d) c in
         _currentLine (_updateLineFromGaze d (y0 f) (t0 f))
    else _currentLine d.
Proof.
  rewrite process_call_unfold. destruct (processed c); [|reflexivity].
  rewrite process_frame_tracked. cbv zeta.
  set (f := call_frame (_N d) c).
  destruct (valley_found d f); [destruct (gate (tracked d f) f)|];
    cbn [fst]; apply tracked_currentLine.
Qed.

Lemma process_call_locked (d : Detector) (c : Call) :
  locked_on ys half d -> locked_on ys half (fst (process_call d c)).
Proof.
  intros (Hy & Hh & Hc).
  destruct (process_call d c) as [d1 e] eqn:Ep.
  destruct (process_call_layout _ _ _ _ Ep) as (_ & A & B & C & _).
  cbn. unfold locked_on. rewrite A, B, C. auto.
Qed.

(** Along a block: locked stays locked, [_N] stays, and the current line
    is unknown exactly when it was and nothing has matched since. *)
Lemma run_block_unknown (cs : list Call) :
  forall d,
    locked_on ys half d ->
    let d' := fst (run_block d cs) in
    locked_on ys half d' /\ _N d' = _N d /\
    (_currentLine d' = None <->
     _currentLine d = None /\
     Forall (fun c => processed c = true ->
                      locate ys half (y0 (call_frame (_N d) c)) = None) cs).
Proof.
  induction cs as [|c cs IH]; intros d Hd; cbn.
  - split; [exact Hd|]. split; [reflexivity|]. split; [auto|tauto].
  - pose proof (process_call_locked d c Hd) as Hd1.
    pose proof (process_call_currentLine d c) as Hc.
    destruct (process_call d c) as [d1 e] eqn:Ep.
    destruct (process_call_layout _ _ _ _ Ep) as (HN & _).
    cbn [fst] in Hd1, Hc.
    specialize (IH d1 Hd1). cbv zeta in IH.
    destruct (run_block d1 cs) as [d2 es]. cbn [fst] in *.
    destruct IH as (L2 & N2 & I2).
    split; [exact L2|]. split; [congruence|].
    rewrite I2, HN, Hc, Forall_cons_iff. cbv beta. clear I2.
    destruct (processed c) eqn:Epc.
    + cbv zeta. rewrite hit_test_locate by exact Hd.
      destruct (locate ys half (y0 (call_frame (_N d) c))) as [i|] eqn:El.
      * split; [intros [H _]; discriminate|].
        intros (_ & H & _). specialize (H eq_refl).
        change (locate ys half (y0 (call_frame (_N d) c)) = None) in H.
        congruence.
      * tauto.
    + split; [|tauto]. intros [H1 H2]. repeat split; auto.
      intro; discriminate.
Qed.

End HitTest.

(** C8. At any point of a content block the hit-test maps a Y coordinate
    to the first (lowest) line index [i] with [|y − centerY[i]| ≤ halfHeight];
    when no line matches it leaves the current line as the previous sample
    left it; the current line is unknown exactly when no processed sample
    has matched a line since the lock; and after a reset, with the layout
    gone, the hit-test changes nothing. *)
Theorem sticky_hit_test :
  forall (d0 : Detector) (centerY : list num) (halfHeight perfNow : num)
         (cs : list Call) (y t : num),
    let d := fst (run_block (lockLayout d0 centerY halfHeight perfNow) cs) in
    _currentLine (_updateLineFromGaze d y t)
    = match locate centerY halfHeight y with
      | Some i => Some i
      | None => _currentLine d
      end
    /\
    (_currentLine d = None <->
     Forall (fun c => processed c = true ->
                      locate centerY halfHeight
                             (y0 (call_frame (_N d0) c)) = None) cs)
    /\
    _updateLineFromGaze (reset d0) y t = reset d0.
Proof.
  intros d0 ys h now cs y t d.
  assert (HL : locked_on ys h (lockLayout d0 ys h now))
    by (repeat split).
  destruct (run_block_unknown ys h cs _ HL) as (L & _ & I).
  fold d in L, I. split; [|split].
  - apply hit_test_locate. exact L.
  - rewrite I. cbn. tauto.
  - reflexivity.
Qed.

(** ** Reset *)

Section Reset.

Lemma reset_reset (d : Detector) : reset (reset d) = reset d.
Proof. reflexivity. Qed.

(** Only [lockLayout] writes [_lineHalf]; nothing writes [_N]. *)
Lemma apply_op_no_lock (d d' : Detector) (o : Op) (e : option Event) :
  is_lock o = false -> apply_op d o = (d', e) ->
  _N d' = _N d /\ _lineHalf d' = _lineHalf d.
Proof.
  destruct o as [ys h now|c|]; cbn; intros Hl H; [discriminate| |].
  - destruct (process_call_layout _ _ _ _ H) as (A & _ & B & _). auto.
  - inversion H; subst. auto.
Qed.

Lemma run_no_lock (os : list Op) :
  forall d, no_lock os = true ->
            _N (fst (run d os)) = _N d /\
            _lineHalf (fst (run d os)) = _lineHalf d.
Proof.
  induction os as [|o os IH]; intros d Hn; cbn; [auto|].
  cbn in Hn. apply andb_true_iff in Hn. destruct Hn as [Ho Hn].
  apply negb_true_iff in Ho.
  destruct (apply_op d o) as [d1 e] eqn:Ea.
  destruct (apply_op_no_lock _ _ _ _ Ho Ea) as [A B].
  specialize (IH d1 Hn). destruct (run d1 os) as [d2 es]. cbn in *.
  destruct IH as [A2 B2]. split; congruence.
Qed.

Lemma reset_fields (d : Detector) (N : Z) :
  _N d = N -> _lineHalf d = n0 -> reset d = constructor N.
Proof. intros <- H. unfold reset, constructor. now rewrite H. Qed.

End Reset.

(** C9. [reset] is total and idempotent: two resets in a row leave the
    state one reset leaves; on a detector that has never been locked,
    whatever was processed or reset before, [reset] leaves exactly the
    freshly constructed state; and after a reset no trigger is possible
    until the next [lockLayout]. *)
Theorem reset_idempotence :
  forall (d : Detector) (bufSize : Z) (os : list Op),
    no_lock os = true ->
    reset (reset d) = reset d /\
    reset (fst (run (constructor bufSize) os)) = constructor bufSize /\
    reset (constructor bufSize) = constructor bufSize /\
    fired (snd (run (reset d) os)) = [].
Proof.
  intros d N os Hn. split; [apply reset_reset|].
  split; [|split].
  - destruct (run_no_lock os (constructor N) Hn) as [A B].
    apply reset_fields; assumption.
  - reflexivity.
  - apply disarmed_run; [apply reset_disarmed|exact Hn].
Qed.

(** After a lock, a reset does not give back the constructed state, only
    a disarmed one: [_lineHalf] keeps the locked half-height. *)
Example reset_keeps_lineHalf :
  _lineHalf (reset demo_locked) = Some 15 /\
  reset demo_locked <> constructor 8 /\
  disarmed (reset demo_locked).
Proof.
  split; [reflexivity|]. split; [|apply reset_disarmed].
  intro H. apply (f_equal _lineHalf) in H. vm_compute in H. discriminate.
Qed.

(** ** The first step after a lock *)

(** C10. [lockLayout] zeroes [_sx1], [_sx2] and [_vx2]; hence the first
    processed call of [process] after it, whatever the arrays hold and
    whatever the detector held before the lock, tests the freshly computed
    values against the constant zero: it records a peak exactly when
    [0 > sx(t)] or the velocity crosses zero, and it fires exactly when
    [0 > v(t-1) && v(t-1) < v(t)] holds of a velocity below the depth
    threshold and the gate lets the line under the gaze through.  The event
    and the fields it leaves are those functions of the three newest samples,
    the lock time and the layout, and of nothing else. *)
Theorem first_step_after_lock :
  forall (d : Detector) (lineYs : list num) (lineHalfH perfNow : num)
         (b : Buffers) (gIdx gCount : Z),
    (3 <= gCount)%Z ->
    let L := lockLayout d lineYs lineHalfH perfNow in
    let f := read_frame (_N L) b gIdx in
    let sx0 := smoothX f in
    let vx0 := vx0_of f in
    let vx1 := vx1_of f in
    let peak := (n0 >? sx0)%num || isVelZeroCross vx0 vx1 in
    let valley := (n0 >? vx1)%num && (vx1 <? vx0)%num && isDeepEnough vx1 in
    let peakTime := if peak then t1 f else n0 in
    let line := _currentLine (_updateLineFromGaze L (y0 f) (t0 f)) in
    let event :=
      if valley then
        if falsy perfNow || (t0 f <? perfNow)%num then None
        else if (t0 f - n0 <? cooldownMs)%num then None
        else if (abs (t1 f - peakTime) >=? cascadeWindowMs)%num then None
        else match line with
             | Some (S k) => Some ((Z.of_nat (S k) - 1)%Z, vx1)
             | _ => None
             end
      else None in
    let d' := fst (process L b gIdx gCount) in
    (_sx1 L = n0 /\ _sx2 L = n0 /\ _vx2 L = n0) /\
    snd (process L b gIdx gCount) = event /\
    _sx1 d' = sx0 /\ _sx2 d' = n0 /\ _vx2 d' = vx1 /\
    _lastPeakTime d' = match event with
                       | Some _ => n0
                       | None => peakTime
                       end /\
    _currentLine d' = line.
Proof.
  intros d ys h now b gIdx gCount H3 L f sx0 vx0 vx1 peak valley peakTime
         line event d'.
  split; [repeat split|].
  assert (Ep : process L b gIdx gCount = process_frame L f).
  { unfold process. apply Z.ltb_ge in H3. now rewrite H3. }
  assert (Epk : peak_found L f = peak) by reflexivity.
  assert (Evl : valley_found L f = valley) by reflexivity.
  destruct (tracked_frame L f) as (_ & Ht & Hm & Hc & _).
  destruct (tracked_caches L f) as (Hs1 & Hs2 & Hv2).
  pose proof (tracked_lastPeakTime L f) as Hpk. rewrite Epk in Hpk.
  pose proof (tracked_currentLine L f) as Hcl.
  change (_lastPeakTime L) with n0 in Hpk.
  change (_lastTriggerTime L) with n0 in Ht.
  change (_maxLineReached L) with (-1)%Z in Hm.
  change (_firstContentTime L) with now in Hc.
  change (_sx1 L) with n0 in Hs2.
  fold peakTime in Hpk. fold line in Hcl.
  assert (Eg : gate (tracked L f) f
               = if falsy now || (t0 f <? now)%num then None
                 else if (t0 f - n0 <? cooldownMs)%num then None
                 else if (abs (t1 f - peakTime) >=? cascadeWindowMs)%num
                      then None
                      else match line with
                           | Some (S k) => Some (S k)
                           | _ => None
                           end).
  { unfold gate. rewrite Hc, Ht, Hpk, Hcl, Hm.
    destruct (falsy now || (t0 f <? now)%num); [reflexivity|].
    destruct (t0 f - n0 <? cooldownMs)%num; [reflexivity|].
    destruct (abs (t1 f - peakTime) >=? cascadeWindowMs)%num; [reflexivity|].
    destruct line as [[|k]|]; reflexivity. }
  unfold d'. rewrite Ep, process_frame_tracked, Evl, Eg.
  unfold event.
  destruct valley; [|cbn [fst snd]; repeat split; assumption].
  destruct (falsy now || (t0 f <? now)%num);
    [cbn [fst snd]; repeat split; assumption|].
  destruct (t0 f - n0 <? cooldownMs)%num;
    [cbn [fst snd]; repeat split; assumption|].
  destruct (abs (t1 f - peakTime) >=? cascadeWindowMs)%num;
    [cbn [fst snd]; repeat split; assumption|].
  destruct line as [[|k]|] eqn:El;
    cbn [fst snd]; repeat split; assumption.
Qed.

(** ** The worked scenario *)

(** The ring wraps: the ninth sample lands in slot 0 of eight, and the call
    that follows reads slots 0, 7 and 6. *)
Example first_sweep_frame :
  call_gIdx (step_call first_sweep) = 1%Z /\
  step_frame first_sweep
  = {| t0 := Some 1264; t1 := Some 1231; t2 := Some 1198;
       x0 := Some 30; x1 := Some 20; x2 := Some 480;
       y0 := Some 140 |}.
Proof. split; vm_compute; reflexivity. Qed.

(** The scenario fires exactly twice: line 0, then line 1, both with the
    velocity -460/33 px/ms of the snap from x = 480 to x = 20. *)
Example demo_fires :
  fired (snd (run_block demo_locked demo_calls))
  = [(0%Z, Some (-460 # 33)); (1%Z, Some (-460 # 33))].
Proof. vm_compute. reflexivity. Qed.

Lemma no_pre_lock_firing_witness :
  (constructor 8 = constructor 8 \/ constructor 8 = reset demo_locked) /\
  no_lock unlocked_ops = true /\
  fired (snd (run (constructor 8) unlocked_ops)) = [] /\
  _currentLine (fst (run (constructor 8) unlocked_ops)) = None.
Proof.
  assert (H1 : constructor 8 = constructor 8 \/ constructor 8 = reset demo_locked)
    by (left; reflexivity).
  assert (H2 : no_lock unlocked_ops = true) by (vm_compute; reflexivity).
  split; [exact H1|]. split; [exact H2|].
  exact (no_pre_lock_firing demo_locked (constructor 8) 8 unlocked_ops H1 H2).
Defined.

Lemma cooldown_enforcement_witness :
  is_number (_lastTriggerTime demo_locked) /\
  numbered (_N demo_locked) demo_calls /\
  step_fires first_sweep /\ step_fires second_sweep /\
  exists ti tj : Q,
    step_now first_sweep = Some ti /\ step_now second_sweep = Some tj /\
    ti + 500 <= tj.
Proof.
  assert (H0 : is_number (_lastTriggerTime demo_locked))
    by (vm_compute; discriminate).
  assert (H : numbered (_N demo_locked) demo_calls)
    by (repeat (constructor; [vm_compute; discriminate|]); constructor).
  assert (F1 : step_fires first_sweep) by (vm_compute; discriminate).
  assert (F2 : step_fires second_sweep) by (vm_compute; discriminate).
  split; [exact H0|]. split; [exact H|]. split; [exact F1|].
  split; [exact F2|].
  destruct (cooldown_enforcement demo_locked demo_calls H0 H)
    as (_ & Hpair & _).
  apply (Hpair 8%nat 25%nat first_sweep second_sweep);
    [lia | vm_compute; reflexivity | vm_compute; reflexivity
     | exact F1 | exact F2].
Defined.

Lemma smoothing_and_velocity_witness :
  (3 <= call_gCount turn_call)%Z /\
  _sx1 (fst (process demo_locked (call_bufs turn_call) (call_gIdx turn_call)
               (call_gCount turn_call)))
  === spec_smoothed
        (x0 (read_frame (_N demo_locked) (call_bufs turn_call)
               (call_gIdx turn_call)))
        (x1 (read_frame (_N demo_locked) (call_bufs turn_call)
               (call_gIdx turn_call)))
        (x2 (read_frame (_N demo_locked) (call_bufs turn_call)
               (call_gIdx turn_call))).
Proof.
  assert (H : (3 <= call_gCount turn_call)%Z) by (vm_compute; discriminate).
  split; [exact H|].
  exact (proj1 (smoothing_and_velocity demo_locked (call_bufs turn_call)
                  (call_gIdx turn_call) (call_gCount turn_call) H)).
Defined.

Lemma no_valley_step_frame_witness :
  processed turn_call = true /\
  valley_found demo_locked (call_frame (_N demo_locked) turn_call) = false /\
  snd (process_call demo_locked turn_call) = None /\
  _lastTriggerTime (fst (process_call demo_locked turn_call))
  = _lastTriggerTime demo_locked /\
  _maxLineReached (fst (process_call demo_locked turn_call))
  = _maxLineReached demo_locked.
Proof.
  assert (H1 : processed turn_call = true) by (vm_compute; reflexivity).
  assert (H2 : valley_found demo_locked
                 (call_frame (_N demo_locked) turn_call) = false)
    by (vm_compute; reflexivity).
  split; [exact H1|]. split; [exact H2|].
  destruct (no_valley_step_frame demo_locked turn_call H1 H2)
    as (A & B & C & _).
  split; [exact A|]. split; [exact B|exact C].
Defined.

Lemma reset_idempotence_witness :
  no_lock unlocked_ops = true /\
  reset (reset demo_locked) = reset demo_locked /\
  reset (fst (run (constructor 8) unlocked_ops)) = constructor 8 /\
  reset (constructor 8) = constructor 8 /\
  fired (snd (run (reset demo_locked) unlocked_ops)) = [].
Proof.
  assert (H : no_lock unlocked_ops = true) by (vm_compute; reflexivity).
  split; [exact H|].
  exact (reset_idempotence demo_locked 8 unlocked_ops H).
Defined.

Lemma first_step_after_lock_witness :
  (3 <= call_gCount early_call)%Z /\
  _sx1 (step_post second_sweep) = Some (23400 # 200) /\
  _vx2 (step_post second_sweep) = Some (-460 # 33) /\
  snd (process
         (lockLayout (step_post second_sweep) demo_lineYs demo_half (Some 250))
         (call_bufs early_call) (call_gIdx early_call)
         (call_gCount early_call))
  = Some (0%Z, Some (-100 # 33)) /\
  _lastPeakTime
    (fst (process
            (lockLayout (step_post second_sweep) demo_lineYs demo_half
               (Some 250))
            (call_bufs early_call) (call_gIdx early_call)
            (call_gCount early_call)))
  = n0.
Proof.
  assert (H : (3 <= call_gCount early_call)%Z) by (vm_compute; discriminate).
  split; [exact H|]. split; [vm_compute; reflexivity|].
  split; [vm_compute; reflexivity|].
  destruct (first_step_after_lock (step_post second_sweep) demo_lineYs
              demo_half (Some 250) (call_bufs early_call)
              (call_gIdx early_call) (call_gCount early_call) H)
    as (_ & A & _ & _ & _ & B & _).
  split.
  - rewrite A. vm_compute. reflexivity.
  - rewrite B. vm_compute. reflexivity.
Defined.

(** * Further properties of the detector *)

(** ** What a trigger says about the samples *)

Lemma div_Some_inv (a b : num) (q : Q) :
  (a / b)%num = Some q ->
  exists x y, a = Some x /\ b = Some y /\ ~ y == 0 /\ q = x / y.
Proof.
  destruct a as [x|], b as [y|]; cbn; try discriminate.
  destruct (Qeq_bool y 0) eqn:E; [discriminate|].
  intro H. inversion H. exists x, y. repeat split; auto.
  now apply Qeq_bool_neq.
Qed.

Lemma sub_Some_inv (a b : num) (q : Q) :
  (a - b)%num = Some q -> exists x y, a = Some x /\ b = Some y /\ q = x - y.
Proof.
  destruct a as [x|], b as [y|]; cbn; try discriminate.
  intro H. inversion H. eauto.
Qed.

(** A velocity below the depth threshold comes from two numeric positions
    and a positive time step, and the position moved left by more than 0.4
    per millisecond. *)
Lemma deep_velocity_inv (xa xb ta tb : num) (q : Q) :
  velocity xa xb (ta - tb)%num = Some q -> q < - (4 # 10) ->
  exists x x' t t',
    xa = Some x /\ xb = Some x' /\ ta = Some t /\ tb = Some t' /\
    t' < t /\ x - x' < - (4 # 10) * (t - t').
Proof.
  unfold velocity, gtb. intros H Hq.
  destruct (n0 <? ta - tb)%num eqn:E; [|inversion H; subst; exfalso; lra].
  apply ltb_true in E. destruct E as (z & dt & Ez & Ed & L).
  inversion Ez; subst z.
  apply div_Some_inv in H. destruct H as (dx & dt' & Ex & Ed' & Hnz & ->).
  rewrite Ed in Ed'. inversion Ed'; subst dt'.
  apply sub_Some_inv in Ex. destruct Ex as (x & x' & -> & -> & ->).
  apply sub_Some_inv in Ed. destruct Ed as (t & t' & -> & -> & ->).
  exists x, x', t, t'. repeat split; auto; [lra|].
  assert (Hm : (x - x') / (t - t') * (t - t') == x - x')
    by (field; exact Hnz).
  assert (Hlt : (x - x') / (t - t') * (t - t') < - (4 # 10) * (t - t'))
    by (apply Qmult_lt_compat_r; [lra|assumption]).
  lra.
Qed.

Lemma in_band_NaN (c h : num) : in_band NaN c h = false.
Proof. unfold in_band, geb, leb. now destruct (c - h)%num. Qed.

(** X1. Samples the tracker could not place (NaN coordinates) do not
    drive the detector: a NaN gaze Y leaves the hit-test state as it is, and
    a call fires only if the valley sample and the one before it have numeric
    X and strictly increasing numeric timestamps, the X having moved left by
    more than 0.4 px per ms; the newest X is numeric too unless its timestamp
    did not advance (its velocity is then taken as 0). *)
Theorem trigger_needs_numeric_samples :
  forall (d : Detector) (c : Call) (t : num),
    _updateLineFromGaze d NaN t = d /\
    match snd (process_call d c) with
    | None => True
    | Some _ =>
        let f := call_frame (_N d) c in
        (exists x x' tv tv' : Q,
            x1 f = Some x /\ x2 f = Some x' /\
            t1 f = Some tv /\ t2 f = Some tv' /\
            tv' < tv /\ x - x' < - (4 # 10) * (tv - tv')) /\
        (is_number (x0 f) \/ ((t0 f - t1 f)%num >? n0)%num = false)
    end.
Proof.
  intros d c t. split.
  - unfold _updateLineFromGaze.
    destruct (_lineYs d) as [ys|]; [|reflexivity].
    destruct (Nat.eqb (_lineCount d) 0); [reflexivity|].
    assert (H : forall k i, scan_from ys (_lineHalf d) NaN i k = None).
    { induction k as [|k IH]; intro i; cbn [scan_from]; [reflexivity|].
      now rewrite in_band_NaN. }
    now rewrite H.
  - destruct (process_call d c) as [d' [e|]] eqn:Ep; cbn [snd]; [|exact I].
    apply process_call_fire_inv in Ep. cbv zeta in Ep.
    destruct Ep as (_ & Hv & _). cbv zeta.
    set (f := call_frame (_N d) c) in *.
    destruct (valley_velocity _ _ Hv) as (q & Eq & Hq).
    split.
    + unfold vx1_of in Eq. exact (deep_velocity_inv _ _ _ _ _ Eq Hq).
    + unfold valley_found, isVelValley in Hv.
      apply andb_true_iff in Hv. destruct Hv as [Hv _].
      apply andb_true_iff in Hv. destruct Hv as [_ Hv].
      apply ltb_true in Hv. destruct Hv as (a & b & _ & Eb & _).
      unfold vx0_of, velocity in Eb.
      destruct ((t0 f - t1 f)%num >? n0)%num; [left|now right].
      apply div_Some_inv in Eb. destruct Eb as (dx & dt & Ex & _).
      apply sub_Some_inv in Ex. destruct Ex as (x & _ & -> & _).
      discriminate.
Qed.

(** ** The content-start gate *)

Lemma fired_none (es : list (option Event)) :
  Forall (fun e => e = None) es -> fired es = [].
Proof.
  induction 1 as [|e es He _ IH]; [reflexivity|]. subst e. exact IH.
Qed.

(** A block never touches [_firstContentTime]. *)
Lemma block_keeps_start (cs : list Call) :
  forall d,
    Forall (fun s => _firstContentTime (step_pre s) = _firstContentTime d)
           (trace d cs).
Proof.
  induction cs as [|c cs IH]; intro d; cbn; [constructor|].
  destruct (process_call d c) as [d1 e] eqn:Ep.
  constructor; [reflexivity|].
  destruct (process_call_layout _ _ _ _ Ep) as (_ & _ & _ & _ & E).
  eapply Forall_impl; [|apply IH]. cbn. intros s H. congruence.
Qed.

(** What the first line of the cascade check lets through. *)
Lemma fire_after_start (d d' : Detector) (c : Call) (e : Event) :
  process_call d c = (d', Some e) ->
  exists start : Q,
    _firstContentTime d = Some start /\ ~ start == 0 /\
    forall now : Q, call_now (_N d) c = Some now -> start <= now.
Proof.
  intro H. apply process_call_fire_inv in H. cbv zeta in H.
  destruct H as (_ & _ & line & G & _).
  apply gate_Some_inv in G. destruct G as (Hf & Hs & _).
  destruct (tracked_frame d (call_frame (_N d) c)) as (_ & _ & _ & E & _).
  rewrite E in Hf, Hs.
  destruct (_firstContentTime d) as [start|]; [|discriminate].
  exists start. split; [reflexivity|]. split.
  - cbn in Hf. now apply Qeq_bool_neq.
  - intros now En. unfold call_now in En. rewrite En in Hs. cbn in Hs.
    now apply Qlt_bool_false in Hs.
Qed.

(** X2. The content-start gate: in the block that follows
    [lockLayout], a call fires only if the time stamped at the lock is a
    number other than 0 and, when the newest timestamp is a number, that
    timestamp is not before it; a block locked while [performance.now()]
    returned 0 (or NaN) never fires. *)
Theorem content_start_gate :
  forall (d : Detector) (lineYs : list num) (lineHalfH perfNow : num)
         (cs : list Call),
    Forall (fun s =>
              step_fires s ->
              exists start : Q,
                perfNow = Some start /\ ~ start == 0 /\
                forall now : Q, step_now s = Some now -> start <= now)
           (trace (lockLayout d lineYs lineHalfH perfNow) cs)
    /\
    (falsy perfNow = true ->
     fired (snd (run_block (lockLayout d lineYs lineHalfH perfNow) cs)) = []).
Proof.
  intros d ys h perfNow cs.
  set (L := lockLayout d ys h perfNow).
  assert (HF : Forall (fun s =>
              step_fires s ->
              exists start : Q,
                perfNow = Some start /\ ~ start == 0 /\
                forall now : Q, step_now s = Some now -> start <= now)
           (trace L cs)).
  { pose proof (trace_step cs L) as Hs.
    pose proof (block_keeps_start cs L) as Hk.
    rewrite Forall_forall in *. intros s Hin Hf.
    destruct (Hs s Hin) as [Hp _]. specialize (Hk s Hin).
    unfold step_fires in Hf.
    destruct (step_event s) as [e|]; [|congruence].
    apply fire_after_start in Hp. rewrite Hk in Hp. exact Hp. }
  split; [exact HF|].
  intro Hfalsy. rewrite <- trace_events. apply fired_none.
  rewrite Forall_map. eapply Forall_impl; [|exact HF]. cbn.
  intros s Hs. destruct (step_event s) as [e|] eqn:Ee; [|reflexivity].
  exfalso. destruct Hs as (start & -> & Hnz & _).
  - unfold step_fires. congruence.
  - cbn in Hfalsy. apply Qeq_bool_iff in Hfalsy. contradiction.
Qed.

(** ** The lines a block can report *)

Lemma scan_from_bound (ys : list num) (half y : num) (k : nat) :
  forall i j, scan_from ys half y i k = Some j -> (i <= j < i + k)%nat.
Proof.
  induction k as [|k IH]; intros i j H; cbn [scan_from] in H; [discriminate|].
  destruct (in_band y (rd ys (Some (Z.of_nat i))) half).
  - inversion H; subst. lia.
  - apply IH in H. lia.
Qed.

Lemma hit_test_in_layout (d : Detector) (y t : num) :
  line_in_layout d -> line_in_layout (_updateLineFromGaze d y t).
Proof.
  unfold line_in_layout, _updateLineFromGaze. intro H.
  destruct (_lineYs d) as [ys|]; [|exact H].
  destruct (Nat.eqb (_lineCount d) 0); [exact H|].
  destruct (scan_from ys (_lineHalf d) y 0 (_lineCount d)) as [i|] eqn:E;
    [|exact H].
  destruct (line_eqb i (_currentLine d)); [exact H|].
  cbn. apply scan_from_bound in E. lia.
Qed.

Lemma process_call_in_layout (d : Detector) (c : Call) :
  line_in_layout d -> line_in_layout (fst (process_call d c)).
Proof.
  intro H. unfold line_in_layout.
  rewrite process_call_currentLine.
  destruct (process_call d c) as [d1 e] eqn:Ep.
  destruct (process_call_layout _ _ _ _ Ep) as (_ & _ & _ & En & _).
  cbn [fst]. rewrite En. destruct (processed c); [|exact H].
  cbv zeta.
  pose proof (hit_test_in_layout d (y0 (call_frame (_N d) c))
                (t0 (call_frame (_N d) c)) H) as H'.
  unfold line_in_layout in H'.
  destruct (hit_test_frame d (y0 (call_frame (_N d) c))
              (t0 (call_frame (_N d) c))) as (_ & _ & _ & _ & _ & _ & _ & _ & _ & _ & E).
  now rewrite E in H'.
Qed.

(** Every line a block reports is at least 0 and below [_lineCount - 1]. *)
Lemma run_block_range (cs : list Call) :
  forall d,
    line_in_layout d ->
    Forall (fun l => (0 <= l < Z.of_nat (_lineCount d) - 1)%Z)
           (completed_lines (snd (run_block d cs))).
Proof.
  induction cs as [|c cs IH]; intros d Hd; cbn; [constructor|].
  pose proof (process_call_in_layout d c Hd) as Hd1.
  destruct (process_call d c) as [d1 e] eqn:Ep. cbn [fst] in Hd1.
  destruct (process_call_layout _ _ _ _ Ep) as (_ & _ & _ & En & _).
  specialize (IH d1 Hd1). rewrite En in IH.
  destruct (run_block d1 cs) as [d2 es]. cbn [snd] in *.
  destruct e as [[tl v]|]; unfold completed_lines in *; cbn; [|exact IH].
  constructor; [|exact IH].
  pose proof (process_call_event _ _ _ _ _ Ep) as [H0 _].
  apply process_call_maxLine in Ep. destruct Ep as (_ & _ & Hc).
  unfold line_in_layout in Hd1. rewrite Hc, En in Hd1. cbn. lia.
Qed.

(** A strictly increasing list of integers of [[a, b)] has at most
    [b - a] elements. *)
Lemma increasing_length (l : list Z) :
  forall a b,
    StronglySorted Z.lt l -> Forall (fun x => (a <= x < b)%Z) l ->
    (Z.of_nat (length l) <= Z.max 0 (b - a))%Z.
Proof.
  induction l as [|x r IH]; intros a b Hs Hr; cbn [length]; [lia|].
  inversion Hs as [|? ? Hs' Hx]; subst. inversion Hr as [|? ? Hxr Hr']; subst.
  assert (Hr2 : Forall (fun y => (x + 1 <= y < b)%Z) r).
  { rewrite Forall_forall in *. intros y Hy.
    specialize (Hx y Hy). specialize (Hr' y Hy). lia. }
  specialize (IH (x + 1)%Z b Hs' Hr2). lia.
Qed.

(** X3. In the block that follows [lockLayout] on [n] lines, every
    reported [completedLineIndex] is at least 0 and at most [n - 2]: the last
    line of a passage is never reported complete, and the block triggers at
    most [n - 1] times (never, for a passage of one line or none). *)
Theorem last_line_never_reported :
  forall (d : Detector) (lineYs : list num) (lineHalfH perfNow : num)
         (cs : list Call),
    let es := snd (run_block (lockLayout d lineYs lineHalfH perfNow) cs) in
    Forall (fun l => (0 <= l < Z.of_nat (length lineYs) - 1)%Z)
           (completed_lines es)
    /\ (length (fired es) <= length lineYs - 1)%nat.
Proof.
  intros d ys h now cs es.
  assert (HL : line_in_layout (lockLayout d ys h now)) by exact I.
  pose proof (run_block_range cs _ HL) as Hr. fold es in Hr.
  cbn [lockLayout _lineCount] in Hr.
  split; [exact Hr|].
  destruct (run_block_lines cs (lockLayout d ys h now)) as [Hs _].
  fold es in Hs.
  pose proof (increasing_length _ 0%Z (Z.of_nat (length ys) - 1)%Z Hs Hr) as H.
  unfold completed_lines in H. rewrite length_map in H.
  unfold Event in *. lia.
Qed.

(** ** A fire needs a fresh peak *)

Lemma fire_resets_peak (d d' : Detector) (c : Call) (e : Event) :
  process_call d c = (d', Some e) -> _lastPeakTime d' = Some 0.
Proof.
  intro H. apply process_call_fire_inv in H. cbv zeta in H.
  destruct H as (_ & _ & line & _ & -> & _). reflexivity.
Qed.

Lemma peak_armed_sound (N : Z) (cs : list Call) :
  forall (d : Detector) (p : bool),
    _N d = N ->
    (p = false -> _lastPeakTime d = Some 0) ->
    valley_times_from 600 N cs ->
    Forall2 (fun s armed => step_fires s -> armed = true)
            (trace d cs) (peak_armed p (trace d cs)).
Proof.
  induction cs as [|c cs IH]; intros d p HN Hp Hv; cbn; [constructor|].
  inversion Hv as [|c' cs' Hc Hcs]; subst c' cs'.
  destruct (process_call d c) as [d1 e] eqn:Ep.
  destruct (process_call_layout _ _ _ _ Ep) as (HN1 & _).
  cbn [peak_armed step_call step_pre step_event].
  unfold step_frame. cbn [step_pre step_call].
  set (f := call_frame (_N d) c).
  set (p' := p || (processed c && peak_found d f)).
  assert (Hfire : e <> None -> p' = true).
  { intro He. destruct e as [e|]; [|congruence].
    destruct p' eqn:Ep'; [reflexivity|exfalso].
    apply orb_false_iff in Ep'. destruct Ep' as [-> Hpk].
    apply process_call_fire_inv in Ep. cbv zeta in Ep. fold f in Ep.
    destruct Ep as (Hpr & _ & line & G & _).
    rewrite Hpr in Hpk. cbn in Hpk.
    apply gate_Some_inv in G. destruct G as (_ & _ & _ & Hw & _).
    rewrite tracked_lastPeakTime, Hpk, (Hp eq_refl) in Hw.
    destruct (Hc Hpr) as (t & Et & Ht). rewrite <- HN in Et. fold f in Et.
    rewrite Et in Hw. unfold geb, cascadeWindowMs in Hw.
    cbn [abs sub lift2 option_map leb] in Hw. apply Qle_bool_false in Hw.
    assert (Ha : 600 <= Qabs (t - 0)).
    { apply Qabs_ge. lra. }
    lra. }
  constructor; [exact Hfire|].
  apply IH; [congruence| |exact Hcs].
  destruct e as [e|].
  - intros _. eapply fire_resets_peak; eauto.
  - intro Hp'. unfold p' in Hp'. apply orb_false_iff in Hp'.
    destruct Hp' as [-> Hpk].
    rewrite process_call_unfold in Ep.
    destruct (processed c).
    + apply process_frame_quiet_inv in Ep. subst d1. fold f.
      cbn in Hpk. rewrite tracked_lastPeakTime, Hpk. now apply Hp.
    + inversion Ep; subst. now apply Hp.
Qed.

(** X4. With timestamps of 600 ms or more (as [Date.now()] gives), a
    block that starts with [_lastPeakTime = 0] (after [lockLayout]) fires
    only when a position peak or a velocity zero-crossing has been detected
    since the block began or since its previous fire: firing clears the peak
    time, and a cleared peak time is outside every valley's window. *)
Theorem fire_needs_fresh_peak :
  forall (d : Detector) (cs : list Call),
    _lastPeakTime d = Some 0 ->
    valley_times_from 600 (_N d) cs ->
    Forall2 (fun s armed => step_fires s -> armed = true)
            (trace d cs) (peak_armed false (trace d cs)).
Proof.
  intros d cs H0 Hv. apply (peak_armed_sound (_N d)); auto.
Qed.

(** * The sample ring *)

Section RingFacts.

Lemma write_length (buf : list num) (v : num) :
  forall i, length (write buf i v) = length buf.
Proof.
  induction buf as [|a r IH]; intros [|i]; cbn; auto.
Qed.

Lemma nth_error_write_same (buf : list num) (v : num) :
  forall i, (i < length buf)%nat -> nth_error (write buf i v) i = Some v.
Proof.
  induction buf as [|a r IH]; intros [|i] H; cbn in *; try lia; auto.
  apply IH. lia.
Qed.

Lemma nth_error_write_other (buf : list num) (v : num) :
  forall i j, i <> j -> nth_error (write buf i v) j = nth_error buf j.
Proof.
  induction buf as [|a r IH]; intros [|i] [|j] H; cbn; auto; try congruence.
Qed.

Lemma rd_write_same (buf : list num) (v : num) (k : Z) :
  (0 <= k < Z.of_nat (length buf))%Z ->
  rd (write buf (Z.to_nat k) v) (Some k) = v.
Proof.
  intro H. unfold rd.
  destruct (k <? 0)%Z eqn:E; [apply Z.ltb_lt in E; lia|].
  rewrite nth_error_write_same by lia. reflexivity.
Qed.

Lemma rd_write_other (buf : list num) (v : num) (k j : Z) :
  (0 <= k)%Z -> k <> j ->
  rd (write buf (Z.to_nat k) v) (Some j) = rd buf (Some j).
Proof.
  intros Hk Hne. unfold rd.
  destruct (j <? 0)%Z eqn:E; [reflexivity|]. apply Z.ltb_ge in E.
  rewrite nth_error_write_other by lia. reflexivity.
Qed.

Variable cap : Z.
Hypothesis cap_pos : (0 < cap)%Z.

Lemma push_cursor (r : Ring) (s : Sample) :
  (0 <= ring_gIdx r < cap)%Z ->
  ring_gIdx (push_sample cap r s) = ((ring_gIdx r + 1) mod cap)%Z.
Proof.
  intro H. cbn. apply Z.rem_mod_nonneg; lia.
Qed.

Lemma push_count (r : Ring) (s : Sample) :
  (ring_gCount r <= cap)%Z ->
  ring_gCount (push_sample cap r s) = Z.min cap (ring_gCount r + 1).
Proof.
  intro H. cbn. destruct (ring_gCount r <? cap)%Z eqn:E.
  - apply Z.ltb_lt in E. lia.
  - apply Z.ltb_ge in E. lia.
Qed.

Lemma push_wf (r : Ring) (s : Sample) :
  ring_wf cap r -> ring_wf cap (push_sample cap r s).
Proof.
  intros (Hi & Hc & Hx & Hy & Ht).
  unfold ring_wf. rewrite push_cursor by exact Hi.
  rewrite push_count by lia.
  cbn. rewrite !write_length.
  pose proof (Z.mod_pos_bound (ring_gIdx r + 1) cap cap_pos).
  repeat split; auto; lia.
Qed.

Lemma slot_push_same (r : Ring) (s : Sample) :
  ring_wf cap r -> slot (push_sample cap r s) (ring_gIdx r) = s.
Proof.
  intros (Hi & Hc & Hx & Hy & Ht).
  unfold slot, push_sample, ring_push. cbn [ring_bufs _gx _gy _gt].
  rewrite !rd_write_same by lia. now destruct s as [[x y] t].
Qed.

Lemma slot_push_other (r : Ring) (s : Sample) (k : Z) :
  ring_wf cap r -> k <> ring_gIdx r ->
  slot (push_sample cap r s) k = slot r k.
Proof.
  intros (Hi & _) Hne.
  unfold slot, push_sample, ring_push. cbn [ring_bufs _gx _gy _gt].
  rewrite !rd_write_other by (try lia; congruence). reflexivity.
Qed.

Lemma pushes_wf (ss : list Sample) :
  forall r, ring_wf cap r -> ring_wf cap (ring_pushes cap r ss).
Proof.
  induction ss as [|s rest IH]; intros r H; cbn; [exact H|].
  apply IH, push_wf, H.
Qed.

(** The cursor after [n] pushes. *)
Lemma pushes_cursor (ss : list Sample) :
  forall r,
    ring_wf cap r ->
    ring_gIdx (ring_pushes cap r ss)
    = ((ring_gIdx r + Z.of_nat (length ss)) mod cap)%Z.
Proof.
  induction ss as [|s rest IH]; intros r H.
  - cbn. rewrite Z.add_0_r. symmetry. apply Z.mod_small, H.
  - cbn [ring_pushes length]. rewrite IH by (apply push_wf, H).
    rewrite push_cursor by apply H.
    rewrite Zplus_mod_idemp_l. f_equal. lia.
Qed.

Lemma pushes_count (ss : list Sample) :
  forall r,
    ring_wf cap r ->
    ring_gCount (ring_pushes cap r ss)
    = Z.min cap (ring_gCount r + Z.of_nat (length ss)).
Proof.
  induction ss as [|s rest IH]; intros r H.
  - cbn. destruct H as (_ & Hc & _). lia.
  - cbn [ring_pushes length]. rewrite IH by (apply push_wf, H).
    destruct H as (_ & Hc & _). rewrite push_count by lia. lia.
Qed.

(** Pushing [m] samples leaves alone every slot the cursor does not pass. *)
Lemma pushes_untouched (ss : list Sample) :
  forall r k,
    ring_wf cap r ->
    (forall i, (0 <= i < Z.of_nat (length ss))%Z ->
               ((ring_gIdx r + i) mod cap)%Z <> k) ->
    slot (ring_pushes cap r ss) k = slot r k.
Proof.
  induction ss as [|s rest IH]; intros r k H Hk; cbn [ring_pushes];
    [reflexivity|].
  rewrite IH.
  - apply slot_push_other; [exact H|].
    specialize (Hk 0%Z). cbn [length] in Hk.
    rewrite Z.add_0_r, Z.mod_small in Hk by apply H.
    intro E. apply Hk; [lia|congruence].
  - apply push_wf, H.
  - intros i Hi. rewrite push_cursor by apply H.
    rewrite Zplus_mod_idemp_l.
    replace (ring_gIdx r + 1 + i)%Z with (ring_gIdx r + (i + 1))%Z by lia.
    apply Hk. cbn [length]. lia.
Qed.

(** Where each pushed sample is: the [j]-th sample pushed sits in slot
    [(gIdx + j) mod cap] for as long as fewer than [cap] samples follow
    it. *)
Lemma pushes_slot (ss : list Sample) :
  forall r j s,
    ring_wf cap r ->
    nth_error ss j = Some s ->
    (Z.of_nat (length ss) - Z.of_nat j <= cap)%Z ->
    slot (ring_pushes cap r ss) ((ring_gIdx r + Z.of_nat j) mod cap)%Z = s.
Proof.
  induction ss as [|s0 rest IH]; intros r j s H Hj Hn.
  - destruct j; discriminate.
  - cbn [ring_pushes]. destruct j as [|j].
    + cbn in Hj. inversion Hj; subst s0. cbn [length] in Hn.
      rewrite Z.add_0_r, Z.mod_small by apply H.
      rewrite pushes_untouched.
      * apply slot_push_same, H.
      * apply push_wf, H.
      * intros i Hi. rewrite push_cursor by apply H.
        rewrite Zplus_mod_idemp_l.
        destruct H as (Hg & _).
        intro E.
        assert (Hm : ((ring_gIdx r + 1 + i) mod cap
                      = (ring_gIdx r) mod cap)%Z)
          by (rewrite E; symmetry; apply Z.mod_small; exact Hg).
        apply (f_equal (fun z => (z - ring_gIdx r mod cap) mod cap)%Z) in Hm.
        rewrite Z.sub_diag, Z.mod_0_l in Hm by lia.
        rewrite <- Zminus_mod in Hm.
        replace (ring_gIdx r + 1 + i - ring_gIdx r)%Z with (1 + i)%Z in Hm
          by lia.
        rewrite Z.mod_small in Hm by lia. lia.
    + cbn in Hj. cbn [length] in Hn.
      specialize (IH (push_sample cap r s0) j s (push_wf _ _ H) Hj).
      rewrite push_cursor in IH by apply H.
      rewrite Zplus_mod_idemp_l in IH.
      replace (ring_gIdx r + Z.of_nat (S j))%Z
        with (ring_gIdx r + 1 + Z.of_nat j)%Z by lia.
      apply IH. lia.
Qed.

End RingFacts.

Section RingWindow.

Variable cap : Z.
Hypothesis cap_3 : (3 <= cap)%Z.

(** The three slots [process] reads, counted back from the cursor. *)
Lemma back_index (g k : Z) :
  (0 <= g < cap)%Z -> (1 <= k <= 3)%Z ->
  js_rem (g - k + cap) cap = Some ((g - k) mod cap)%Z.
Proof.
  intros Hg Hk. unfold js_rem.
  destruct (cap =? 0)%Z eqn:E; [apply Z.eqb_eq in E; lia|].
  f_equal. rewrite Z.rem_mod_nonneg by lia.
  rewrite <- (Z.mod_add (g - k) 1 cap) by lia. f_equal. lia.
Qed.

Lemma back_shift (g k : Z) :
  (0 <= g < cap)%Z ->
  (((g + 1) mod cap - (k + 1)) mod cap = (g - k) mod cap)%Z.
Proof.
  intro Hg. rewrite Zminus_mod, Z.mod_mod by lia.
  rewrite <- Zminus_mod. f_equal. lia.
Qed.

Lemma back_distinct (g k : Z) :
  (0 <= g < cap)%Z -> (1 <= k <= 2)%Z -> ((g - k) mod cap)%Z <> g.
Proof.
  intros Hg Hk E.
  assert (H : (((g - k) mod cap - g mod cap) mod cap = 0)%Z).
  { rewrite E, (Z.mod_small g) by lia. rewrite Z.sub_diag.
    apply Z.mod_0_l. lia. }
  rewrite <- Zminus_mod in H.
  replace (g - k - g)%Z with (- k)%Z in H by lia.
  rewrite <- (Z.mod_add (- k) 1 cap) in H by lia.
  rewrite Z.mod_small in H by lia. lia.
Qed.

(** One push, seen from the detector: it reads the sample just pushed and
    the two that were newest before. *)
Lemma push_frame (r : Ring) (s p1 p2 : Sample) :
  ring_wf cap r ->
  slot r ((ring_gIdx r - 1) mod cap)%Z = p1 ->
  slot r ((ring_gIdx r - 2) mod cap)%Z = p2 ->
  let r' := push_sample cap r s in
  call_frame cap (ring_call r') = frame_of s p1 p2 /\
  slot r' ((ring_gIdx r' - 1) mod cap)%Z = s /\
  slot r' ((ring_gIdx r' - 2) mod cap)%Z = p1.
Proof.
  intros Hwf H1 H2 r'.
  assert (Hpos : (0 < cap)%Z) by lia.
  pose proof (push_wf cap Hpos r s Hwf) as Hwf'. fold r' in Hwf'.
  destruct Hwf as (Hg & Hrest).
  assert (Hwf : ring_wf cap r) by (split; assumption).
  assert (Ec : ring_gIdx r' = ((ring_gIdx r + 1) mod cap)%Z)
    by (apply push_cursor; assumption).
  assert (S0 : slot r' (ring_gIdx r) = s) by (apply slot_push_same; auto).
  assert (S1 : slot r' ((ring_gIdx r - 1) mod cap)%Z = p1).
  { unfold r'. rewrite slot_push_other; auto. apply back_distinct; lia. }
  assert (S2 : slot r' ((ring_gIdx r - 2) mod cap)%Z = p2).
  { unfold r'. rewrite slot_push_other; auto. apply back_distinct; lia. }
  assert (B1 : ((ring_gIdx r' - 1) mod cap = ring_gIdx r)%Z).
  { rewrite Ec. replace 1%Z with (0 + 1)%Z at 2 by lia.
    rewrite back_shift by lia. rewrite Z.sub_0_r. apply Z.mod_small; lia. }
  assert (B2 : ((ring_gIdx r' - 2) mod cap = (ring_gIdx r - 1) mod cap)%Z).
  { rewrite Ec. replace 2%Z with (1 + 1)%Z by lia. apply back_shift; lia. }
  assert (B3 : ((ring_gIdx r' - 3) mod cap = (ring_gIdx r - 2) mod cap)%Z).
  { rewrite Ec. replace 3%Z with (2 + 1)%Z by lia. apply back_shift; lia. }
  split; [|split; [rewrite B1; exact S0 | rewrite B2; exact S1]].
  unfold call_frame, read_frame, ring_call. cbn [call_bufs call_gIdx].
  destruct Hwf' as (Hg' & _).
  rewrite !back_index by lia. rewrite B1, B2, B3.
  unfold slot in S0, S1, S2. unfold frame_of, sample_t, sample_x, sample_y.
  destruct s as [[sx sy] st]. destruct p1 as [[px py] pt].
  destruct p2 as [[qx qy] qt].
  inversion S0. inversion S1. inversion S2. reflexivity.
Qed.

Lemma calls_windowed (ss : list Sample) :
  forall (r : Ring) (p1 p2 : Sample),
    ring_wf cap r -> (2 <= ring_gCount r)%Z ->
    slot r ((ring_gIdx r - 1) mod cap)%Z = p1 ->
    slot r ((ring_gIdx r - 2) mod cap)%Z = p2 ->
    seen cap (ring_calls cap r ss) = map Some (frames_from p2 p1 ss).
Proof.
  induction ss as [|s rest IH]; intros r p1 p2 Hwf Hc H1 H2; [reflexivity|].
  assert (Hpos : (0 < cap)%Z) by lia.
  destruct (push_frame r s p1 p2 Hwf H1 H2) as (Hf & I1 & I2).
  cbn [ring_calls seen map frames_from].
  set (r' := push_sample cap r s) in *.
  assert (Hc' : (3 <= ring_gCount r')%Z).
  { unfold r'. destruct Hwf as (_ & Hcc & _).
    rewrite (push_count cap) by lia. lia. }
  assert (Hp : processed (ring_call r') = true).
  { unfold processed, ring_call. cbn [call_gCount].
    apply negb_true_iff, Z.ltb_ge. exact Hc'. }
  rewrite Hp, Hf. f_equal.
  apply IH; auto; [apply push_wf; assumption | lia].
Qed.

End RingWindow.

(** X5. The ring's cursors: after [_startReading] has put them back to 0,
    [n] samples in READING state leave the write cursor at [n mod cap] and the
    count at [min(n, cap)], with the three arrays still [cap] slots long. *)
Theorem ring_cursors :
  forall (cap : Z) (r : Ring) (ss : list Sample),
    (0 < cap)%Z ->
    ring_wf cap r ->
    let r' := ring_pushes cap (ring_reset r) ss in
    ring_wf cap r' /\
    ring_gIdx r' = (Z.of_nat (length ss) mod cap)%Z /\
    ring_gCount r' = Z.min cap (Z.of_nat (length ss)).
Proof.
  intros cap r ss Hpos Hwf r'.
  assert (Hr : ring_wf cap (ring_reset r)).
  { destruct Hwf as (_ & _ & Hl). repeat split; cbn; try lia; apply Hl. }
  split; [apply pushes_wf; assumption|]. split.
  - unfold r'. now rewrite pushes_cursor by assumption.
  - unfold r'. now rewrite pushes_count by assumption.
Qed.

(** X6. What the detector sees of a passage: with a ring of at least three
    slots, after [_startReading] the first two samples are not processed
    ([gCount < 3]) and every later call of [process] reads exactly the sample
    just written and the two written before it, across wrap-around; nothing
    left in the arrays from before the reset is ever read. *)
Theorem detector_sees_sliding_window :
  forall (cap : Z) (r : Ring) (ss : list Sample),
    (3 <= cap)%Z ->
    ring_wf cap r ->
    seen cap (ring_calls cap (ring_reset r) ss) = windows ss.
Proof.
  intros cap r ss H3 Hwf.
  assert (Hpos : (0 < cap)%Z) by lia.
  assert (Hr : ring_wf cap (ring_reset r)).
  { destruct Hwf as (_ & _ & Hl). repeat split; cbn; try lia; apply Hl. }
  destruct ss as [|a ss]; [reflexivity|].
  set (r1 := push_sample cap (ring_reset r) a).
  assert (C1 : ring_gCount r1 = 1%Z).
  { unfold r1. rewrite (push_count cap) by (cbn; lia). cbn. lia. }
  assert (P1 : processed (ring_call r1) = false).
  { unfold processed, ring_call. cbn [call_gCount]. now rewrite C1. }
  destruct ss as [|b rest].
  - cbn [ring_calls seen map windows]. fold r1. now rewrite P1.
  - cbn [ring_calls seen map windows]. fold r1.
    set (r2 := push_sample cap r1 b).
    assert (W1 : ring_wf cap r1) by (apply push_wf; assumption).
    assert (W2 : ring_wf cap r2) by (apply push_wf; assumption).
    assert (C2 : ring_gCount r2 = 2%Z).
    { unfold r2. rewrite (push_count cap) by lia. lia. }
    assert (G1 : ring_gIdx r1 = 1%Z).
    { unfold r1. rewrite (push_cursor cap) by (cbn; lia). cbn.
      apply Z.mod_small; lia. }
    assert (G2 : ring_gIdx r2 = 2%Z).
    { unfold r2. rewrite (push_cursor cap) by lia. rewrite G1.
      apply Z.mod_small; lia. }
    assert (P2 : processed (ring_call r2) = false).
    { unfold processed, ring_call. cbn [call_gCount]. now rewrite C2. }
    rewrite P1, P2. do 2 f_equal.
    apply (calls_windowed cap H3); auto; [lia| |].
    + rewrite G2. replace (2 - 1)%Z with 1%Z by lia.
      rewrite Z.mod_small by lia. rewrite <- G1.
      apply slot_push_same; assumption.
    + rewrite G2. replace (2 - 2)%Z with 0%Z by lia.
      rewrite Z.mod_small by lia.
      unfold r2. rewrite slot_push_other by (auto; lia).
      change 0%Z with (ring_gIdx (ring_reset r)).
      apply slot_push_same; assumption.
Qed.

Lemma slot_time (r : Ring) (k : Z) :
  rd (_gt (ring_bufs r)) (Some k) = sample_t (slot r k).
Proof. reflexivity. Qed.

(** X7. The reading statistics of [showQuiz]: once at least one sample has
    been stored since [_startReading], the duration it logs is the timestamp
    of the newest sample minus that of the oldest sample still in the ring
    (the first one of the passage until the ring has wrapped, the one
    [cap - 1] places before the newest afterwards); with no sample stored it
    computes nothing. *)
Theorem quiz_duration_spans_ring :
  forall (cap : Z) (r : Ring) (ss : list Sample) (newest oldest : Sample),
    (0 < cap)%Z ->
    ring_wf cap r ->
    nth_error ss (length ss - 1) = Some newest ->
    nth_error ss (length ss - Nat.min (length ss) (Z.to_nat cap))
      = Some oldest ->
    quiz_durMs cap (ring_pushes cap (ring_reset r) ss)
      = Some (sample_t newest - sample_t oldest)%num
    /\ quiz_durMs cap (ring_reset r) = None.
Proof.
  intros cap r ss newest oldest Hpos Hwf Hnew Hold.
  split; [|reflexivity].
  assert (Hr : ring_wf cap (ring_reset r)).
  { destruct Hwf as (_ & _ & Hl). repeat split; cbn; try lia; apply Hl. }
  assert (Hn : (1 <= length ss)%nat).
  { destruct ss; [discriminate|cbn; lia]. }
  set (r' := ring_pushes cap (ring_reset r) ss).
  assert (Eg : ring_gIdx r' = (Z.of_nat (length ss) mod cap)%Z)
    by (unfold r'; now rewrite pushes_cursor by assumption).
  assert (Ec : ring_gCount r' = Z.min cap (Z.of_nat (length ss)))
    by (unfold r'; now rewrite pushes_count by assumption).
  pose proof (Z.mod_pos_bound (Z.of_nat (length ss)) cap Hpos) as Hb.
  unfold quiz_durMs. rewrite Ec.
  destruct (Z.min cap (Z.of_nat (length ss)) >? 0)%Z eqn:E;
    [|rewrite Z.gtb_ltb in E; apply Z.ltb_ge in E; lia].
  f_equal. f_equal.
  - (* newest *)
    unfold quiz_lastIdx, js_rem.
    destruct (cap =? 0)%Z eqn:E0; [apply Z.eqb_eq in E0; lia|].
    rewrite Eg, Z.rem_mod_nonneg by lia.
    replace ((Z.of_nat (length ss) mod cap - 1 + cap) mod cap)%Z
      with ((ring_gIdx (ring_reset r) + Z.of_nat (length ss - 1)) mod cap)%Z.
    + rewrite slot_time. unfold r'.
      rewrite (pushes_slot cap Hpos ss (ring_reset r) (length ss - 1) newest);
        auto. lia.
    + cbn [ring_reset ring_gIdx]. rewrite Z.add_0_l.
      replace (Z.of_nat (length ss) mod cap - 1 + cap)%Z
        with (Z.of_nat (length ss) mod cap + (-1 + cap))%Z by lia.
      rewrite Zplus_mod_idemp_l.
      replace (Z.of_nat (length ss) + (-1 + cap))%Z
        with (Z.of_nat (length ss - 1) + 1 * cap)%Z by lia.
      now rewrite Z.mod_add by lia.
  - (* oldest *)
    unfold quiz_firstIdx. rewrite Ec, slot_time.
    destruct (Z.min cap (Z.of_nat (length ss)) <? cap)%Z eqn:El.
    + apply Z.ltb_lt in El.
      replace (length ss - Nat.min (length ss) (Z.to_nat cap))%nat
        with O in Hold by lia.
      pose proof (pushes_slot cap Hpos ss (ring_reset r) 0 oldest Hr Hold
                    ltac:(lia)) as H.
      cbn [ring_reset ring_gIdx Z.of_nat Z.add] in H.
      rewrite Z.mod_small in H by lia.
      unfold r'. now rewrite H.
    + apply Z.ltb_ge in El.
      replace (length ss - Nat.min (length ss) (Z.to_nat cap))%nat
        with (length ss - Z.to_nat cap)%nat in Hold by lia.
      pose proof (pushes_slot cap Hpos ss (ring_reset r) _ oldest Hr Hold
                    ltac:(lia)) as H.
      cbn [ring_reset ring_gIdx] in H. rewrite Z.add_0_l in H.
      replace (Z.of_nat (length ss - Z.to_nat cap))
        with (Z.of_nat (length ss) + (-1) * cap)%Z in H by lia.
      rewrite Z.mod_add in H by lia.
      rewrite Eg. unfold r'. now rewrite H.
Qed.

(** * The reading screen *)

Section Fading.

Lemma write_if_differs (op v : string) :
  (if String.eqb op v then op else v) = v.
Proof.
  destruct (String.eqb op v) eqn:E; [|reflexivity].
  now apply String.eqb_eq in E.
Qed.

(** A later pang for a higher line overrides an earlier one. *)
Lemma fade_from_twice (els : list string) :
  forall i k1 k2,
    (k1 < k2)%Z ->
    fade_from i (fade_from i els k1) k2 = fade_from i els k2.
Proof.
  induction els as [|op rest IH]; intros i k1 k2 Hk; cbn [fade_from];
    [reflexivity|].
  rewrite IH by exact Hk. f_equal.
  rewrite !write_if_differs.
  destruct (i <? k2)%Z eqn:E2; [reflexivity|].
  apply Z.ltb_ge in E2.
  destruct (i <? k1)%Z eqn:E1; [apply Z.ltb_lt in E1; lia|].
  destruct (i =? k1)%Z eqn:E3; [apply Z.eqb_eq in E3; lia|].
  reflexivity.
Qed.

Lemma fold_fade_increasing (l : list Z) :
  forall (els : list string) (k : Z),
    StronglySorted Z.lt (k :: l) ->
    fold_left fade l (fade els k) = faded els (last_of (k :: l)).
Proof.
  induction l as [|k2 l IH]; intros els k Hs; [reflexivity|].
  inversion Hs as [|? ? Hs' Hk]; subst.
  inversion Hk as [|? ? Hlt _]; subst.
  cbn [fold_left]. unfold fade at 2 3. rewrite fade_from_twice by exact Hlt.
  fold (fade els k2). rewrite IH by exact Hs'.
  cbn [last_of]. destruct (last_of l); reflexivity.
Qed.

Lemma fold_fade_sorted (l : list Z) (els : list string) :
  StronglySorted Z.lt l -> fold_left fade l els = faded els (last_of l).
Proof.
  destruct l as [|k l]; [reflexivity|]. intro Hs. cbn [fold_left].
  now apply fold_fade_increasing.
Qed.

End Fading.

Section Feeding.

Variable cap : Z.

(** [_onGaze] in READING state is: push, call the detector, fade on a
    trigger. *)
Lemma feed_reading (ss : list Sample) :
  forall g,
    g_state g = READING ->
    let run := run_block (g_detector g) (ring_calls cap (g_ring g) ss) in
    feed cap g ss
    = {| g_state := READING;
         g_ring := ring_pushes cap (g_ring g) ss;
         g_detector := fst run;
         g_lineEls := option_map
                        (fun els => fold_left fade (completed_lines (snd run))
                                      els)
                        (g_lineEls g) |}.
Proof.
  induction ss as [|s rest IH]; intros g Hst.
  - cbn. destruct g as [st r d els]. cbn in *. subst st.
    now destruct els.
  - unfold feed in *. cbn [fold_left ring_calls ring_pushes run_block].
    assert (Hst1 : g_state (_onGaze cap g s) = READING).
    { unfold _onGaze. rewrite Hst. cbn [is_reading].
      destruct (process_call _ _) as [d' [[l v]|]]; reflexivity || exact Hst. }
    rewrite (IH _ Hst1). clear IH. cbv zeta.
    unfold _onGaze. rewrite Hst. cbn [is_reading].
    destruct (process_call (g_detector g)
                (ring_call (push_sample cap (g_ring g) s))) as [d' e].
    destruct e as [[l v]|];
      cbn [_onPang g_state g_ring g_detector g_lineEls];
      destruct (run_block d' (ring_calls cap (push_sample cap (g_ring g) s)
                                rest)) as [d2 es];
      cbn [fst snd]; f_equal;
      destruct (g_lineEls g); reflexivity.
Qed.

End Feeding.

(** X8. Reading a passage, end to end: from the moment [_lockLayout] has
    measured a non-empty list of lines in READING state, any stream of gaze
    samples leaves the game in READING state with the detector where the
    block of [process] calls leaves it, and the lines faded as the last
    reported line dictates, whatever was reported before: every line above it
    at opacity 0, that line at 0.15, the lines below it untouched (all
    untouched when nothing was reported). *)
Theorem reading_fades_lines :
  forall (cap : Z) (g : Game) (els : list LineEl) (perfNow : num)
         (ss : list Sample),
    g_state g = READING ->
    els <> [] ->
    let g0 := _lockLayout g els perfNow in
    let run := run_block (g_detector g0) (ring_calls cap (g_ring g) ss) in
    let g1 := feed cap g0 ss in
    g_state g1 = READING /\
    g_ring g1 = ring_pushes cap (g_ring g) ss /\
    g_detector g1 = fst run /\
    g_lineEls g1
    = Some (faded (map el_opacity els)
                  (last_of (completed_lines (snd run)))).
Proof.
  intros cap g els now ss Hst Hne g0 run g1.
  assert (E0 : g0 = {| g_state := g_state g; g_ring := g_ring g;
                       g_detector := lockLayout (g_detector g)
                                       (map centerY els) (lineHalfH_of els)
                                       now;
                       g_lineEls := Some (map el_opacity els) |}).
  { unfold g0, _lockLayout. destruct els; [congruence|reflexivity]. }
  assert (Hst0 : g_state g0 = READING) by (rewrite E0; exact Hst).
  assert (Er : g_ring g0 = g_ring g) by (rewrite E0; reflexivity).
  pose proof (feed_reading cap ss g0 Hst0) as H. cbv zeta in H.
  rewrite Er in H. fold run in H. fold g1 in H. rewrite H.
  cbn [g_state g_ring g_detector g_lineEls].
  repeat split. rewrite E0. cbn [g_lineEls option_map]. f_equal.
  apply fold_fade_sorted.
  unfold run. rewrite E0. cbn [g_detector]. apply run_block_lines.
Qed.

Lemma quiet_feed (cap : Z) (ss : list Sample) (g : Game) :
  g_state g = READING ->
  disarmed (g_detector g) ->
  let g1 := feed cap g ss in
  fired (snd (run_block (g_detector g) (ring_calls cap (g_ring g) ss))) = [] /\
  g_ring g1 = ring_pushes cap (g_ring g) ss /\
  g_lineEls g1 = g_lineEls g /\
  disarmed (g_detector g1).
Proof.
  intros Hst Hd g1.
  pose proof (feed_reading cap ss g Hst) as H. cbv zeta in H.
  assert (Hq : forall cs d, disarmed d ->
                 fired (snd (run_block d cs)) = [] /\
                 disarmed (fst (run_block d cs))).
  { induction cs as [|c cs IH]; intros d Hd0; cbn [run_block]; [now split|].
    destruct (process_call d c) as [d1 e] eqn:Ec.
    destruct (disarmed_call d d1 c e Hd0 Ec) as [-> Hd1].
    specialize (IH d1 Hd1). destruct (run_block d1 cs) as [d2 es].
    exact IH. }
  destruct (Hq (ring_calls cap (g_ring g) ss) (g_detector g) Hd) as [Hf Hd'].
  split; [exact Hf|].
  unfold g1. rewrite H. cbn [g_ring g_lineEls g_detector].
  split; [reflexivity|]. split; [|exact Hd'].
  unfold completed_lines. rewrite Hf. now destruct (g_lineEls g).
Qed.

(** X9. Gaze samples that arrive in READING state while no layout is locked
    are stored in the ring but never reported, and leave the lines and the
    detector's current line as they are: this covers the time between
    [_startReading] and the layout timer (and the whole passage when the
    layout has no line, for which [_lockLayout] returns at once), and the time
    between [_destroyReading] and the change of state in [showQuiz]. *)
Theorem gaze_without_layout_is_quiet :
  forall (cap : Z) (g : Game) (perfNow : num) (ss : list Sample),
    (let g0 := _lockLayout (_startReading g) [] perfNow in
     let g1 := feed cap g0 ss in
     g0 = _startReading g /\
     fired (snd (run_block (reset (g_detector g))
                   (ring_calls cap (ring_reset (g_ring g)) ss))) = [] /\
     g_ring g1 = ring_pushes cap (ring_reset (g_ring g)) ss /\
     g_lineEls g1 = g_lineEls g /\
     _lineYs (g_detector g1) = None /\
     _currentLine (g_detector g1) = None) /\
    (g_state g = READING ->
     let g1 := feed cap (_destroyReading g) ss in
     fired (snd (run_block (reset (g_detector g))
                   (ring_calls cap (g_ring g) ss))) = [] /\
     g_ring g1 = ring_pushes cap (g_ring g) ss /\
     g_lineEls g1 = None /\
     _lineYs (g_detector g1) = None /\
     _currentLine (g_detector g1) = None).
Proof.
  intros cap g now ss. split.
  - cbv zeta. split; [reflexivity|].
    change (_lockLayout (_startReading g) [] now) with (_startReading g).
    destruct (quiet_feed cap ss (_startReading g) eq_refl (reset_disarmed _))
      as (Hf & Hr & Hl & Hy & Hc).
    auto.
  - intros Hst g1.
    destruct (quiet_feed cap ss (_destroyReading g) Hst (reset_disarmed _))
      as (Hf & Hr & Hl & Hy & Hc).
    auto.
Qed.

Section UniformLines.

Variables top h : Q.
Hypothesis h_pos : 0 < h.

Lemma lineTop_succ (j : nat) : lineTop top h (S j) == lineTop top h j + h.
Proof.
  unfold lineTop. rewrite Nat2Z.inj_succ. unfold Z.succ.
  rewrite inject_Z_plus. ring.
Qed.

Lemma lineTop_le (j k : nat) :
  (j <= k)%nat -> lineTop top h j <= lineTop top h k.
Proof.
  induction 1 as [|k _ IH]; [apply Qle_refl|].
  rewrite lineTop_succ. lra.
Qed.

Lemma totalH_uniform (n : nat) :
  forall i0 acc,
  exists s,
    fold_left (fun a el => (a + el_height el)%num)
      (map (uniform_line top h) (seq i0 n)) (Some acc) = Some s /\
    s == acc + inject_Z (Z.of_nat n) * h.
Proof.
  induction n as [|n IH]; intros i0 acc.
  - exists acc. split; [reflexivity|]. cbn. ring.
  - cbn [seq map fold_left uniform_line el_height add lift2].
    destruct (IH (S i0) (acc + h)) as (s & -> & Es).
    exists s. split; [reflexivity|]. rewrite Es.
    rewrite Nat2Z.inj_succ. unfold Z.succ. rewrite inject_Z_plus. ring.
Qed.

Lemma lineHalfH_uniform (n : nat) :
  (0 < n)%nat ->
  exists hh, lineHalfH_of (uniform_lines top h n) = Some hh /\
             hh == (55 # 100) * h.
Proof.
  intro Hn. unfold lineHalfH_of, totalH, uniform_lines, n0.
  rewrite length_map, length_seq.
  destruct (totalH_uniform n 0 0) as (s & -> & Es).
  assert (Hnz : ~ inject_Z (Z.of_nat n) == 0).
  { unfold Qeq. cbn. lia. }
  unfold num_of_nat, c0_55. cbn [div mul lift2].
  destruct (Qeq_bool (inject_Z (Z.of_nat n)) 0) eqn:E.
  - apply Qeq_bool_iff in E. contradiction.
  - eexists. split; [reflexivity|]. rewrite Es. field. exact Hnz.
Qed.

Variables (hh y : Q).
Hypothesis hh_val : hh == (55 # 100) * h.

Lemma uniform_band (j : nat) :
  (abs (Some y - centerY (uniform_line top h j)) <=? Some hh)%num = true <->
  lineTop top h j - h * (1 # 20) <= y <= lineTop top h (S j) + h * (1 # 20).
Proof.
  unfold centerY, uniform_line, c0_5.
  cbn [el_top el_height add sub mul lift2 abs option_map leb].
  rewrite Qle_bool_iff, Qabs_Qle_condition, lineTop_succ.
  split; intro H; split; lra.
Qed.

Lemma uniform_hit (n : nat) :
  forall i0 i,
    (i0 <= i < i0 + n)%nat ->
    (i = i0 /\ lineTop top h i - h * (1 # 20) <= y) \/
    lineTop top h i + h * (1 # 20) < y ->
    y <= lineTop top h (S i) + h * (1 # 20) ->
    locate_from i0 (map centerY (map (uniform_line top h) (seq i0 n)))
      (Some hh) (Some y) = Some i.
Proof.
  induction n as [|n IH]; intros i0 i Hi Hlow Hup; [lia|].
  cbn [seq map locate_from].
  destruct (Nat.eq_dec i i0) as [->|Hne].
  - assert (Hb : (abs (Some y - centerY (uniform_line top h i0)) <=? Some hh)%num
                 = true).
    { apply uniform_band. split; [|exact Hup]. destruct Hlow as [[_ H]|H]; lra. }
    now rewrite Hb.
  - destruct Hlow as [[H _]|Hlow]; [contradiction|].
    assert (Hb : (abs (Some y - centerY (uniform_line top h i0)) <=? Some hh)%num
                 = false).
    { apply not_true_is_false. intro Hb. apply uniform_band in Hb.
      pose proof (lineTop_le (S i0) i ltac:(lia)). lra. }
    rewrite Hb. apply IH; [lia|now right|exact Hup].
Qed.

Lemma uniform_miss (n : nat) :
  y < top - h * (1 # 20) \/ lineTop top h n + h * (1 # 20) < y ->
  locate (map centerY (uniform_lines top h n)) (Some hh) (Some y) = None.
Proof.
  intro Hout. unfold locate. apply locate_from_None.
  apply Forall_forall. intros c Hc.
  apply in_map_iff in Hc. destruct Hc as (el & <- & Hel).
  apply in_map_iff in Hel. destruct Hel as (j & <- & Hj).
  apply in_seq in Hj.
  apply not_true_is_false. intro Hb. apply uniform_band in Hb.
  pose proof (lineTop_le 0 j ltac:(lia)) as H0.
  pose proof (lineTop_le (S j) n ltac:(lia)) as H1.
  assert (Et : lineTop top h 0 == top) by (unfold lineTop; cbn; ring).
  destruct Hout; lra.
Qed.

End UniformLines.

(** X10. Which line a gaze sample is attributed to when [_lockLayout] has
    measured [n] lines of one height [h] stacked from [top]: the bands
    (half-height 0.55 h around each centre) overlap by h/10 and the scan
    returns the first match, so line [i] is found for y in
    (top + i h + h/20, top + (i+1) h + h/20], line 0 also for
    y in [top - h/20, top + h/20], and a sample above or below all bands
    leaves the detector as it is. *)
Theorem uniform_lines_attribution :
  forall (g : Game) (top h : Q) (n : nat) (perfNow t : num) (y : Q),
    0 < h ->
    (0 < n)%nat ->
    let d := g_detector (_lockLayout g (uniform_lines top h n) perfNow) in
    (forall i, (i < n)%nat ->
       lineTop top h i + h * (1 # 20) < y <= lineTop top h (S i) + h * (1 # 20) ->
       _currentLine (_updateLineFromGaze d (Some y) t) = Some i) /\
    (top - h * (1 # 20) <= y <= top + h * (1 # 20) ->
       _currentLine (_updateLineFromGaze d (Some y) t) = Some 0%nat) /\
    (y < top - h * (1 # 20) \/ lineTop top h n + h * (1 # 20) < y ->
       _updateLineFromGaze d (Some y) t = d).
Proof.
  intros g top h n now t y Hh Hn d.
  destruct (lineHalfH_uniform top h n Hn) as (hh & Ehh & Hhh).
  set (ys := map centerY (uniform_lines top h n)).
  assert (Ed : d = lockLayout (g_detector g) ys (Some hh) now).
  { unfold d, _lockLayout. rewrite <- Ehh.
    unfold uniform_lines at 1. rewrite length_map, length_seq.
    destruct n; [lia|reflexivity]. }
  assert (HL : locked_on ys (Some hh) d) by (rewrite Ed; repeat split).
  assert (E0 : lineTop top h 0 == top) by (unfold lineTop; cbn; ring).
  split; [|split].
  - intros i Hi [Hlo Hup].
    rewrite (hit_test_locate ys (Some hh) d (Some y) t HL).
    unfold locate, ys, uniform_lines.
    rewrite (uniform_hit top h Hh hh y Hhh n 0 i); [reflexivity|lia| |exact Hup].
    now right.
  - intros [Hlo Hup].
    rewrite (hit_test_locate ys (Some hh) d (Some y) t HL).
    unfold locate, ys, uniform_lines.
    rewrite (uniform_hit top h Hh hh y Hhh n 0 0); [reflexivity|lia| |].
    + left. split; [reflexivity|lra].
    + rewrite lineTop_succ. lra.
  - intro Hout.
    pose proof (uniform_miss top h Hh hh y Hhh n Hout) as Hm. fold ys in Hm.
    destruct HL as (Hy & Hf & Hc).
    unfold _updateLineFromGaze. rewrite Hy, Hf, Hc, scan_locate, Hm.
    now destruct (Nat.eqb (length ys) 0).
Qed.

Section Clamp.

Lemma clamped_value (v extent : Q) :
  exists c,
    clamped (Some v) (Some extent) = Some c /\
    (52 <= extent -> 26 <= c <= extent - 26 /\
                     (26 <= v <= extent - 26 -> c == v)) /\
    (extent < 52 -> c == extent - 26).
Proof.
  unfold clamped, math_min, math_max, dotSize, c2, c20.
  cbn [div add sub lift2].
  replace (Qeq_bool 2 0) with false by reflexivity.
  eexists. split; [reflexivity|].
  assert (Hk : 12 / 2 == 6) by reflexivity.
  revert Hk. generalize (12 / 2). intros k Hk.
  destruct (Qle_bool v (k + 20)) eqn:E1;
    [apply Qle_bool_iff in E1|apply Qle_bool_false in E1];
    match goal with
    | |- context [Qle_bool ?a ?b] =>
        destruct (Qle_bool a b) eqn:E2;
        [apply Qle_bool_iff in E2|apply Qle_bool_false in E2]
    end;
    (split; [intro H; split; [split|intros [? ?]]|intro H]);
    try lra.
Qed.

End Clamp.

(** X11. The calibration dot: [_onCalibrationNextPoint] clamps each
    coordinate of the SDK's target to [26, extent - 26], so for a viewport
    of at least 52 px the 12 px dot lies wholly inside the screen with 20 px
    of padding, and a target already in that range is not moved.  In a
    narrower viewport the dot's edge is at [extent - 32] whatever the target,
    closer than 20 px to the near side; a [NaN] target gives a [NaN]
    position. *)
Theorem calibration_dot_inside :
  forall (v extent : Q),
    dot_edge NaN (Some extent) = NaN /\
    exists e,
      dot_edge (Some v) (Some extent) = Some e /\
      (52 <= extent ->
         20 <= e /\ e + 12 <= extent - 20 /\
         (26 <= v <= extent - 26 -> e == v - 6)) /\
      (extent < 52 -> e == extent - 32 /\ e < 20).
Proof.
  intros v extent. split; [reflexivity|].
  destruct (clamped_value v extent) as (c & Ec & Hwide & Hnarrow).
  unfold dot_edge. rewrite Ec. unfold dotSize, c2. cbn [div sub lift2].
  replace (Qeq_bool 2 0) with false by reflexivity.
  eexists. split; [reflexivity|].
  assert (Hk : 12 / 2 == 6) by reflexivity.
  revert Hk. generalize (12 / 2). intros k Hk. split.
  - intro H. destruct (Hwide H) as [[? ?] Hsame]. repeat split; lra.
  - intro H. specialize (Hnarrow H). split; lra.
Qed.

(** * The text train *)

Section TextTrain.

Lemma math_max_Z (a b : Q) (x y : Z) :
  a == inject_Z x -> b == inject_Z y ->
  exists c, math_max (Some a) (Some b) = Some c /\ c == inject_Z (Z.max x y).
Proof.
  intros Ha Hb. unfold math_max. eexists. split; [reflexivity|].
  destruct (Qle_bool a b) eqn:E.
  - apply Qle_bool_iff in E. rewrite Ha, Hb in E. rewrite <- Zle_Qle in E.
    rewrite Z.max_r by exact E. exact Hb.
  - apply Qle_bool_false in E. rewrite Ha, Hb in E. rewrite <- Zlt_Qlt in E.
    rewrite Z.max_l by lia. exact Ha.
Qed.

Lemma math_min_Z (a b : Q) (x y : Z) :
  a == inject_Z x -> b == inject_Z y ->
  exists c, math_min (Some a) (Some b) = Some c /\ c == inject_Z (Z.min x y).
Proof.
  intros Ha Hb. unfold math_min. eexists. split; [reflexivity|].
  destruct (Qle_bool a b) eqn:E.
  - apply Qle_bool_iff in E. rewrite Ha, Hb in E. rewrite <- Zle_Qle in E.
    rewrite Z.min_l by exact E. exact Ha.
  - apply Qle_bool_false in E. rewrite Ha, Hb in E. rewrite <- Zlt_Qlt in E.
    rewrite Z.min_r by lia. exact Hb.
Qed.

(** The line index [_updateTextTrain] computes for a numeric gaze height. *)
Lemma gazeLine_value (n : nat) (w h y : Q) :
  0 < h ->
  exists g,
    math_max n0
      (math_min (math_floor (Some (y - w)%Q / Some h)%num)
         (num_of_nat n - Some 1)%num) = Some g /\
    g == inject_Z (gaze_line w h n y).
Proof.
  intro Hh. unfold num_of_nat, n0. cbn [div sub lift2].
  destruct (Qeq_bool h 0) eqn:E0.
  { apply Qeq_bool_iff in E0. exfalso; lra. }
  cbn [math_floor option_map].
  destruct (math_min_Z (inject_Z (Qfloor ((y - w) / h)))
              (inject_Z (Z.of_nat n) - 1)
              (Qfloor ((y - w) / h)) (Z.of_nat n - 1))
    as (b & -> & Hb); [reflexivity| |].
  { unfold Z.sub. rewrite inject_Z_plus, inject_Z_opp. reflexivity. }
  destruct (math_max_Z 0 b 0 _ (Qeq_refl _) Hb) as (g & Eg & Hg).
  exists g. split; [exact Eg|exact Hg].
Qed.

Lemma next_opacity_Z (q : Q) (m : Z) (i : nat) :
  q == inject_Z m -> next_opacity (Some q) i = opacity_of m i.
Proof.
  intro Hq. unfold next_opacity, opacity_of, num_of_nat, n0.
  cbn [sub lift2 leb strict_eqb].
  assert (Hd : q - inject_Z (Z.of_nat i) == inject_Z (m - Z.of_nat i)).
  { unfold Z.sub. rewrite inject_Z_plus, inject_Z_opp, Hq. reflexivity. }
  destruct (m <=? Z.of_nat i)%Z eqn:E1.
  - apply Z.leb_le in E1.
    replace (Qle_bool (q - inject_Z (Z.of_nat i)) 0) with true; [reflexivity|].
    symmetry. apply Qle_bool_iff. rewrite Hd.
    change 0 with (inject_Z 0). rewrite <- Zle_Qle. lia.
  - apply Z.leb_gt in E1.
    replace (Qle_bool (q - inject_Z (Z.of_nat i)) 0) with false.
    2:{ symmetry. apply Qle_bool_false. rewrite Hd.
        change 0 with (inject_Z 0). rewrite <- Zlt_Qlt. lia. }
    destruct (m =? Z.of_nat i + 1)%Z eqn:E2.
    + apply Z.eqb_eq in E2.
      replace (Qeq_bool (q - inject_Z (Z.of_nat i)) 1) with true;
        [reflexivity|].
      symmetry. apply Qeq_bool_iff. rewrite Hd.
      replace (m - Z.of_nat i)%Z with 1%Z by lia. reflexivity.
    + apply Z.eqb_neq in E2.
      replace (Qeq_bool (q - inject_Z (Z.of_nat i)) 1) with false;
        [reflexivity|].
      symmetry. apply not_true_is_false. intro H. apply Qeq_bool_iff in H.
      rewrite Hd in H. unfold Qeq in H. cbn in H. lia.
Qed.

Lemma restyle_from_length (cur : num) (ls : list TrainLine) :
  forall i, length (restyle_from cur i ls) = length ls.
Proof. induction ls; intro i; cbn; [reflexivity|now rewrite IHls]. Qed.

Lemma restyle_from_fresh (cur : num) (k : nat) :
  forall i,
    restyle_from cur i (repeat fresh_line k)
    = map (fun j => styled_line (next_opacity cur j)) (seq i k).
Proof.
  induction k as [|k IH]; intro i; cbn [repeat seq map restyle_from];
    [reflexivity|].
  now rewrite IH.
Qed.

Lemma restyle_styled (cur : num) (i : nat) (s : string) :
  restyle cur i (styled_line s) = styled_line (next_opacity cur i).
Proof.
  unfold restyle, styled_line. cbn [dataset_op op_differs].
  destruct (String.eqb s (next_opacity cur i)) eqn:E; cbn [negb];
    [|reflexivity].
  apply String.eqb_eq in E. now rewrite E.
Qed.

Lemma restyle_from_styled (cur : num) (f : nat -> string) (k : nat) :
  forall i,
    restyle_from cur i (map (fun j => styled_line (f j)) (seq i k))
    = map (fun j => styled_line (next_opacity cur j)) (seq i k).
Proof.
  induction k as [|k IH]; intro i; cbn [seq map restyle_from];
    [reflexivity|].
  now rewrite restyle_styled, IH.
Qed.

Lemma shown_length (m : Z) (n : nat) : length (shown m n) = n.
Proof.
  unfold shown. destruct (m =? -1)%Z.
  - apply repeat_length.
  - now rewrite length_map, length_seq.
Qed.

Lemma restyle_shown (q : Q) (m g : Z) (n : nat) :
  q == inject_Z g -> (0 <= g)%Z ->
  restyle_from (Some q) 0 (shown m n) = shown g n.
Proof.
  intros Hq Hg. unfold shown.
  replace (g =? -1)%Z with false by (symmetry; apply Z.eqb_neq; lia).
  destruct (m =? -1)%Z;
    [rewrite restyle_from_fresh|rewrite restyle_from_styled];
    apply map_ext; intro i; now rewrite (next_opacity_Z q g).
Qed.

Variables (n : nat) (w h : Q).
Hypothesis n_pos : (0 < n)%nat.
Hypothesis h_pos : 0 < h.

Lemma train_step (tr : Train) (m : Z) (y : Q) :
  at_line n w h tr m ->
  at_line n w h (_updateTextTrain tr (Some y))
    (if Qle_bool w y then Z.max m (gaze_line w h n y) else m).
Proof.
  intros (Hc & Hl & Hw & Hlh).
  destruct (_trainCurrentLine tr) as [c|] eqn:Ec; [|contradiction].
  cbn [equiv] in Hc.
  unfold _updateTextTrain. rewrite Hl, shown_length, Hw, Hlh, Ec.
  replace (Nat.eqb n 0) with false by (symmetry; apply Nat.eqb_neq; lia).
  change (Some y - Some w)%num with (Some (y - w)).
  destruct (gazeLine_value n w h y h_pos) as (g & -> & Hg).
  cbn [ltb leb n0].
  destruct (Qle_bool w y) eqn:Ewy.
  - apply Qle_bool_iff in Ewy.
    replace (Qlt_bool (y - w) 0) with false
      by (symmetry; apply Qlt_bool_false; lra).
    destruct (Qle_bool g c) eqn:Egc.
    + apply Qle_bool_iff in Egc. rewrite Hg, Hc in Egc. rewrite <- Zle_Qle in Egc.
      rewrite Z.max_l by exact Egc.
      unfold at_line. rewrite Ec. auto.
    + apply Qle_bool_false in Egc. rewrite Hg, Hc in Egc.
      rewrite <- Zlt_Qlt in Egc. rewrite Z.max_r by lia.
      unfold at_line.
      cbn [_trainCurrentLine _trainLines _trainWrapTop _trainLineH equiv].
      repeat split; try assumption.
      apply restyle_shown; [exact Hg|]. unfold gaze_line. lia.
  - apply Qle_bool_false in Ewy.
    replace (Qlt_bool (y - w) 0) with true
      by (symmetry; apply Qlt_bool_iff; lra).
    unfold at_line. rewrite Ec. auto.
Qed.

Lemma train_run (ys : list Q) :
  forall tr m,
    at_line n w h tr m ->
    at_line n w h (train_feed tr (map Some ys))
      (fold_left (fun m y => if Qle_bool w y
                             then Z.max m (gaze_line w h n y) else m) ys m).
Proof.
  induction ys as [|y ys IH]; intros tr m H; [exact H|].
  cbn [map fold_left train_feed]. apply IH. now apply train_step.
Qed.

Lemma furthest_bounds (ys : list Q) :
  forall m,
    let m' := fold_left (fun m y => if Qle_bool w y
                                    then Z.max m (gaze_line w h n y) else m)
                ys m in
    (m <= m')%Z /\ (m' <= Z.max m (Z.of_nat n - 1))%Z.
Proof.
  induction ys as [|y ys IH]; intro m; cbn [fold_left]; [lia|].
  cbv zeta in IH.
  destruct (Qle_bool w y).
  - specialize (IH (Z.max m (gaze_line w h n y))).
    unfold gaze_line in *. lia.
  - apply IH.
Qed.

Lemma built_at_line : at_line n w h (train_built n (Some w) (Some h)) (-1).
Proof. repeat split. Qed.

Lemma train_from_built (ys : list Q) :
  let tr := train_feed (train_built n (Some w) (Some h)) (map Some ys) in
  let m := furthest_line w h n ys in
  _trainCurrentLine tr === Some (inject_Z m) /\
  _trainLines tr = shown m n /\
  (-1 <= m < Z.of_nat n)%Z.
Proof.
  intros tr m.
  destruct (train_run ys _ _ built_at_line) as (Hc & Hl & _).
  pose proof (furthest_bounds ys (-1)) as Hb. cbv zeta in Hb.
  fold (furthest_line w h n ys) in Hc, Hl, Hb. fold m in Hc, Hl, Hb.
  repeat split; try assumption; lia.
Qed.

End TextTrain.

(** X12. The text train is one-way for numeric gaze: once built for [n]
    lines of height [h > 0] below [w], after any stream of numeric gaze
    heights the current line is the furthest line any sample at or below the
    top has reached (it stays [-1] when none has), it never decreases as more
    samples arrive, and the lines show exactly that: opacity 1 from the
    current line on, 0.2 on the line before it, 0 above, each [style.opacity]
    equal to its [dataset.op]. *)
Theorem text_train_one_way :
  forall (n : nat) (w h : Q) (ys zs : list Q),
    (0 < n)%nat ->
    0 < h ->
    let tr := train_feed (train_built n (Some w) (Some h)) (map Some ys) in
    let m := furthest_line w h n ys in
    _trainCurrentLine tr === Some (inject_Z m) /\
    _trainLines tr = shown m n /\
    (-1 <= m < Z.of_nat n)%Z /\
    (m <= furthest_line w h n (ys ++ zs))%Z.
Proof.
  intros n w h ys zs Hn Hh tr m.
  destruct (train_from_built n w h Hn Hh ys) as (Hc & Hl & Hb).
  repeat split; try assumption; try lia.
  unfold furthest_line. rewrite fold_left_app.
  apply (furthest_bounds n w h Hn zs).
Qed.

Section TextTrainNaN.

Lemma next_opacity_NaN (i : nat) : next_opacity NaN i = "0"%string.
Proof. reflexivity. Qed.

Lemma restyle_from_NaN (ls : list TrainLine) :
  forall i,
    Forall (fun l => dataset_op l = Some "0"%string)
      (restyle_from NaN i ls) /\
    (Forall in_step ls ->
     Forall (fun l => style_opacity l = "0"%string) (restyle_from NaN i ls)).
Proof.
  induction ls as [|l ls IH]; intro i; cbn [restyle_from].
  - split; constructor.
  - destruct (IH (S i)) as [H1 H2].
    assert (Hl : dataset_op (restyle NaN i l) = Some "0"%string /\
                 (in_step l -> style_opacity (restyle NaN i l) = "0"%string)).
    { unfold restyle. rewrite next_opacity_NaN.
      destruct (dataset_op l) as [s|] eqn:Es; cbn [op_differs].
      - destruct (String.eqb s "0") eqn:E; cbn [negb].
        + apply String.eqb_eq in E. subst s. split; [exact Es|].
          intro Hi. now apply Hi.
        + split; reflexivity.
      - split; reflexivity. }
    destruct Hl as [Hl1 Hl2]. split.
    + constructor; assumption.
    + intro HF. inversion HF; subst. constructor; auto.
Qed.

End TextTrainNaN.

(** X13. A gaze height that is not a number passes both guards of
    [_updateTextTrain]: the current line becomes
    [NaN] and every line is set to opacity 0.  From then on the one-way guard
    compares with [NaN] and never holds, so the next numeric sample at or
    below the top sets the current line to its own line, whichever line was
    reached before. *)
Theorem text_train_NaN :
  forall (tr : Train),
    _trainLines tr <> [] ->
    let tr1 := _updateTextTrain tr NaN in
    _trainCurrentLine tr1 = NaN /\
    Forall (fun l => dataset_op l = Some "0"%string) (_trainLines tr1) /\
    (Forall in_step (_trainLines tr) ->
     Forall (fun l => style_opacity l = "0"%string) (_trainLines tr1)) /\
    forall (w h y : Q),
      _trainWrapTop tr = Some w -> _trainLineH tr = Some h ->
      0 < h -> w <= y ->
      _trainCurrentLine (_updateTextTrain tr1 (Some y))
      === Some (inject_Z (gaze_line w h (length (_trainLines tr)) y)).
Proof.
  intros tr Hne tr1.
  assert (E1 : tr1 = {| _trainLines := restyle_from NaN 0 (_trainLines tr);
                        _trainCurrentLine := NaN;
                        _trainWrapTop := _trainWrapTop tr;
                        _trainLineH := _trainLineH tr |}).
  { unfold tr1, _updateTextTrain.
    destruct (_trainLines tr) as [|l ls]; [congruence|reflexivity]. }
  destruct (restyle_from_NaN (_trainLines tr) 0) as [H1 H2].
  rewrite E1. cbn [_trainCurrentLine _trainLines].
  split; [reflexivity|]. split; [exact H1|]. split; [exact H2|].
  intros w h y Hw Hh Hpos Hy.
  unfold _updateTextTrain.
  cbn [_trainCurrentLine _trainLines _trainWrapTop _trainLineH].
  rewrite restyle_from_length, Hw, Hh.
  destruct (_trainLines tr) as [|l ls] eqn:El; [congruence|].
  cbn [length Nat.eqb].
  change (Some y - Some w)%num with (Some (y - w)).
  destruct (gazeLine_value (S (length ls)) w h y Hpos) as (g & -> & Hg).
  cbn [ltb leb n0].
  replace (Qlt_bool (y - w) 0) with false
    by (symmetry; apply Qlt_bool_false; lra).
  cbn [_trainCurrentLine equiv]. exact Hg.
Qed.

(** * The log store *)

Section LogStore.

Context {A : Type}.
Variable max : nat.

Lemma store_window (logs : list A) (e : A) :
  (length logs <= max)%nat ->
  store max logs e = skipn (length logs + 1 - max) (logs ++ [e]) /\
  (length (store max logs e) <= max)%nat.
Proof.
  intro Hl. unfold store.
  assert (El : length (logs ++ [e]) = (length logs + 1)%nat)
    by (rewrite length_app; reflexivity).
  rewrite El.
  destruct (max <? length logs + 1)%nat eqn:E.
  - apply Nat.ltb_lt in E.
    replace (length logs + 1 - max)%nat with 1%nat by lia.
    destruct (logs ++ [e]) as [|a l] eqn:Ea; cbn in *; split;
      try reflexivity; lia.
  - apply Nat.ltb_ge in E.
    replace (length logs + 1 - max)%nat with 0%nat by lia.
    split; [reflexivity|]. rewrite El. exact E.
Qed.

Lemma stores_window (es : list A) :
  forall logs,
    (length logs <= max)%nat ->
    fold_left (store max) es logs
    = skipn (length logs + length es - max) (logs ++ es) /\
    (length (fold_left (store max) es logs) <= max)%nat.
Proof.
  induction es as [|e es IH]; intros logs Hl; cbn [fold_left length].
  - rewrite app_nil_r, Nat.add_0_r.
    replace (length logs - max)%nat with 0%nat by lia. now split.
  - destruct (store_window logs e Hl) as [Es Hs].
    destruct (IH _ Hs) as [E1 H1]. split; [|exact H1].
    rewrite E1. rewrite Es at 2.
    assert (Ej : (length logs + 1 - max <= length (logs ++ [e]))%nat)
      by (rewrite length_app; cbn; lia).
    replace (skipn (length logs + 1 - max) (logs ++ [e]) ++ es)
      with (skipn (length logs + 1 - max) ((logs ++ [e]) ++ es)).
    2:{ rewrite skipn_app.
        replace (length logs + 1 - max - length (logs ++ [e]))%nat
          with 0%nat by lia.
        reflexivity. }
    rewrite skipn_skipn, <- app_assoc. cbn [app]. f_equal.
    assert (Ek : length (store max logs e)
                 = (length logs + 1 - (length logs + 1 - max))%nat).
    { rewrite Es, length_skipn, length_app. reflexivity. }
    rewrite Ek. lia.
Qed.

Lemma stores_from_empty (es : list A) :
  let logs := fold_left (store max) es [] in
  logs = skipn (length es - max) es /\
  length logs = Nat.min (length es) max.
Proof.
  cbv zeta. destruct (stores_window es [] ltac:(cbn; lia)) as [E H].
  cbn [length app Nat.add] in E. split; [exact E|].
  rewrite E, length_skipn. lia.
Qed.

End LogStore.

(** X14. The log store is a sliding window: after any number of [addLog]
    calls it holds exactly the newest 1000 entries (all of them while there
    are fewer), in arrival order; likewise [addLine] of the later version
    with 500 lines. *)
Theorem log_store_keeps_newest :
  forall (A : Type) (entries : list A),
    (let logs := fold_left addLog entries [] in
     logs = skipn (length entries - MAX_LOGS) entries /\
     length logs = Nat.min (length entries) MAX_LOGS) /\
    (let lines := fold_left addLine entries [] in
     lines = skipn (length entries - MAX_LINES) entries /\
     length lines = Nat.min (length entries) MAX_LINES).
Proof.
  intros A entries. split.
  - exact (stores_from_empty MAX_LOGS entries).
  - exact (stores_from_empty MAX_LINES entries).
Qed.

(** * The memory stress tester *)

Section StressFacts.

Lemma clear_only (id : nat) : Stress.clearTimeout id [id] = [].
Proof. unfold Stress.clearTimeout. cbn. now rewrite Nat.eqb_refl. Qed.

Lemma levels_succ (k : nat) :
  Stress.levels (S k) = Stress.levels k ++ [Z.of_nat (S k)].
Proof.
  unfold Stress.levels. rewrite seq_S, map_app. reflexivity.
Qed.

Lemma levels_length (k : nat) : length (Stress.levels k) = k.
Proof. unfold Stress.levels. now rewrite length_map, length_seq. Qed.

Lemma inv_init : Stress.inv Stress.init.
Proof.
  unfold Stress.inv, Stress.init. cbn.
  split; [lia|]. split; [discriminate|reflexivity].
Qed.

Lemma inv_pending (st : Stress.State) :
  Stress.inv st ->
  match Stress._timerId st with
  | Some id => Stress.clearTimeout id (Stress.pending st)
  | None => Stress.pending st
  end = [].
Proof.
  intros (_ & Hr & Hs).
  destruct (Stress._running st) eqn:E.
  - destruct (Hr eq_refl) as (_ & _ & id & -> & ->). apply clear_only.
  - rewrite (Hs eq_refl). now destruct (Stress._timerId st).
Qed.

Lemma inv_stop_ (st : Stress.State) :
  Stress.inv st -> Stress.inv (Stress._stop st).
Proof.
  intro H. pose proof (inv_pending st H) as Hp. destruct H as (Hb & _ & _).
  unfold Stress.inv, Stress._stop. cbn.
  split; [exact Hb|]. split; [discriminate|]. intros _. exact Hp.
Qed.

Lemma inv_start (st : Stress.State) :
  Stress.inv st -> Stress.inv (Stress.start st).
Proof.
  intro H. unfold Stress.start.
  destruct (Stress._running st) eqn:E; [exact H|].
  destruct H as (_ & _ & Hs). specialize (Hs E).
  unfold Stress._runLevel, Stress.schedule, Stress.inv. cbn. rewrite Hs.
  split; [lia|]. split; [|discriminate].
  intros _. unfold Stress.MAX_LEVEL. repeat split; try lia. eauto.
Qed.

Lemma inv_stop (st : Stress.State) :
  Stress.inv st -> Stress.inv (Stress.stop st).
Proof.
  intro H. apply inv_stop_ in H. destruct H as (_ & Hr & Hs).
  unfold Stress.inv, Stress.stop. cbn in *.
  split; [lia|]. split; [discriminate|exact Hs].
Qed.

(** The timeout of a running tester fires. *)
Lemma fire_running (st : Stress.State) (id : nat) (ok : bool) :
  Stress._running st = true ->
  Stress.pending st = [id] ->
  (0 <= Stress._level st)%Z ->
  Stress.fire id ok st
  = if (Stress._level st + 1 >? Stress.MAX_LEVEL)%Z || negb ok then
      {| Stress._buffers := Stress._buffers st;
         Stress._level := (Stress._level st + 1)%Z;
         Stress._running := false; Stress._timerId := None;
         Stress.pending := []; Stress.next_id := Stress.next_id st |}
    else
      {| Stress._buffers := Stress._buffers st ++ [(Stress._level st + 1)%Z];
         Stress._level := (Stress._level st + 1)%Z;
         Stress._running := true;
         Stress._timerId := Some (Stress.next_id st);
         Stress.pending := [Stress.next_id st];
         Stress.next_id := S (Stress.next_id st) |}.
Proof.
  intros Hr Hp Hl. unfold Stress.fire. rewrite Hp. cbn [existsb].
  rewrite Nat.eqb_refl. cbn [orb]. rewrite clear_only.
  unfold Stress._runLevel. cbn. rewrite Hr. cbn [negb].
  destruct (Stress._level st + 1 >? Stress.MAX_LEVEL)%Z eqn:E1; cbn [orb].
  - unfold Stress._stop. cbn. now destruct (Stress._timerId st).
  - replace (Stress._level st + 1 >? 0)%Z with true
      by (symmetry; apply Z.gtb_lt; lia).
    destruct ok; cbn [negb].
    + reflexivity.
    + unfold Stress._stop. cbn. now destruct (Stress._timerId st).
Qed.

Lemma inv_fire (st : Stress.State) (id : nat) (ok : bool) :
  Stress.inv st -> Stress.inv (Stress.fire id ok st).
Proof.
  intro H. pose proof H as (Hb & Hr & Hs).
  destruct (Stress._running st) eqn:E.
  - destruct (Hr eq_refl) as (Hl & Hbuf & id0 & Ht & Hp).
    destruct (Nat.eq_dec id id0) as [->|Hne].
    + rewrite (fire_running st id0 ok E Hp) by lia.
      unfold Stress.MAX_LEVEL in *.
      destruct ((Stress._level st + 1 >? 30)%Z || negb ok) eqn:Eo.
      * unfold Stress.inv. cbn.
        split; [exact Hb|]. split; [discriminate|reflexivity].
      * apply orb_false_iff in Eo. destruct Eo as [E1 _].
        assert (Hlt : (Stress._level st + 1 <= 30)%Z).
        { destruct (Z.gtb_spec (Stress._level st + 1) 30); [discriminate|lia]. }
        assert (Ek : Z.to_nat (Stress._level st + 1)
                     = S (Z.to_nat (Stress._level st))) by lia.
        unfold Stress.inv. cbn. rewrite Ek, levels_succ, <- Hbuf.
        rewrite length_app, Hbuf, levels_length. cbn [length].
        split; [lia|]. split; [|discriminate].
        intros _. unfold Stress.MAX_LEVEL. repeat split; try lia.
        -- f_equal. f_equal. lia.
        -- eauto.
    + unfold Stress.fire. rewrite Hp. cbn [existsb].
      replace (Nat.eqb id id0) with false
        by (symmetry; apply Nat.eqb_neq; exact Hne).
      exact H.
  - unfold Stress.fire. rewrite (Hs eq_refl). exact H.
Qed.

Lemma inv_run (es : list Stress.Event) :
  forall st, Stress.inv st -> Stress.inv (Stress.run st es).
Proof.
  induction es as [|e es IH]; intros st H; [exact H|].
  cbn [Stress.run fold_left]. apply IH.
  destruct e as [| |id ok]; cbn [Stress.step];
    [apply inv_start|apply inv_stop|apply inv_fire]; exact H.
Qed.

Lemma ticks_ok (k : nat) :
  forall st id,
    Stress._running st = true ->
    Stress.pending st = [id] ->
    (0 <= Stress._level st)%Z ->
    (Stress._level st + Z.of_nat k <= Stress.MAX_LEVEL)%Z ->
    Stress._buffers st = Stress.levels (Z.to_nat (Stress._level st)) ->
    let st' := Stress.ticks st (repeat true k) in
    Stress._running st' = true /\
    Stress._level st' = (Stress._level st + Z.of_nat k)%Z /\
    Stress._buffers st' = Stress.levels (Z.to_nat (Stress._level st')) /\
    exists id', Stress.pending st' = [id'].
Proof.
  induction k as [|k IH]; intros st id Hr Hp Hl Hk Hb; cbv zeta.
  - cbn. rewrite Z.add_0_r. repeat split; try assumption. eauto.
  - cbn [repeat Stress.ticks fold_left].
    assert (Et : Stress.tick st true = Stress.fire id true st)
      by (unfold Stress.tick; now rewrite Hp).
    rewrite Et, (fire_running st id true Hr Hp Hl).
    replace (Stress._level st + 1 >? Stress.MAX_LEVEL)%Z with false
      by (symmetry; rewrite Z.gtb_ltb; apply Z.ltb_ge;
          unfold Stress.MAX_LEVEL in *; lia).
    cbn [orb negb].
    match goal with
    | |- context [fold_left Stress.tick _ ?s] =>
        specialize (IH s (Stress.next_id st))
    end.
    cbn [Stress._running Stress.pending Stress._level Stress._buffers] in IH.
    destruct IH as (H1 & H2 & H3 & H4); try reflexivity; try lia.
    { replace (Z.to_nat (Stress._level st + 1))
        with (S (Z.to_nat (Stress._level st))) by lia.
      rewrite levels_succ, Hb. f_equal. f_equal. lia. }
    unfold Stress.ticks in *. repeat split; try assumption. lia.
Qed.

End StressFacts.

(** X15. Whatever sequence of [start], [stop] and timeouts happens to the
    stress tester, it never holds more than 30 buffers (300 MB); while it is
    running the buffers are those of levels 1 to [_level], so [getTotalMB]
    reports exactly what is held, and exactly one timeout is scheduled, the
    one [_timerId] names; when it is not running no timeout is left
    scheduled. *)
Theorem stress_invariant :
  forall (es : list Stress.Event),
    let st := Stress.run Stress.init es in
    (Stress.heldMB st <= 300)%Z /\
    (Stress._running st = true ->
       (0 <= Stress._level st <= 30)%Z /\
       Stress._buffers st = Stress.levels (Z.to_nat (Stress._level st)) /\
       Stress.totalAllocMB st = Stress.heldMB st /\
       exists id, Stress._timerId st = Some id /\ Stress.pending st = [id]) /\
    (Stress._running st = false -> Stress.pending st = []).
Proof.
  intros es st.
  destruct (inv_run es _ inv_init) as (Hb & Hr & Hs). fold st in Hb, Hr, Hs.
  split; [|split].
  - unfold Stress.heldMB, Stress.CHUNK_MB. lia.
  - intro E. destruct (Hr E) as (Hl & Hbuf & Hid).
    unfold Stress.MAX_LEVEL in Hl. repeat split; try lia; try assumption.
    unfold Stress.totalAllocMB, Stress.heldMB, Stress.CHUNK_MB.
    rewrite Hbuf, levels_length. lia.
  - exact Hs.
Qed.

(** X16. The course of a stress test: started when not running, after [k]
    timeouts with successful allocations ([k <= 30]) the tester is running at
    level [k] with the buffers of levels 1 to [k].  The next timeout stops
    it when the allocation fails or when [k = 30]; it stops with the level
    already counted up, so [getTotalMB] then reports 10 MB more than the
    buffers hold. *)
Theorem stress_course :
  forall (es : list Stress.Event) (k : nat),
    Stress._running (Stress.run Stress.init es) = false ->
    (k <= 30)%nat ->
    let st := Stress.ticks (Stress.start (Stress.run Stress.init es))
                (repeat true k) in
    Stress._running st = true /\
    Stress._level st = Z.of_nat k /\
    Stress._buffers st = Stress.levels k /\
    forall ok : bool,
      ok = false \/ k = 30%nat ->
      let st' := Stress.tick st ok in
      Stress._running st' = false /\
      Stress._buffers st' = Stress.levels k /\
      Stress.pending st' = [] /\
      Stress.totalAllocMB st' = (Stress.heldMB st' + 10)%Z.
Proof.
  intros es k Hoff Hk st.
  pose proof (inv_run es _ inv_init) as (_ & _ & Hs). specialize (Hs Hoff).
  set (st0 := Stress.run Stress.init es) in *.
  assert (E1 : Stress.start st0
               = {| Stress._buffers := []; Stress._level := 0;
                    Stress._running := true;
                    Stress._timerId := Some (Stress.next_id st0);
                    Stress.pending := [Stress.next_id st0];
                    Stress.next_id := S (Stress.next_id st0) |}).
  { unfold Stress.start. rewrite Hoff.
    unfold Stress._runLevel, Stress.schedule. cbn. now rewrite Hs. }
  destruct (ticks_ok k (Stress.start st0) (Stress.next_id st0))
    as (Hr & Hl & Hb & id & Hp);
    try (rewrite E1; cbn; unfold Stress.MAX_LEVEL; try reflexivity; lia).
  fold st in Hr, Hl, Hb, Hp.
  assert (Hl' : Stress._level st = Z.of_nat k) by (rewrite Hl, E1; cbn; lia).
  rewrite Hl' in Hb. rewrite Nat2Z.id in Hb.
  split; [exact Hr|]. split; [exact Hl'|]. split; [exact Hb|].
  intros ok Hok st'.
  assert (Et : st' = Stress.fire id ok st)
    by (unfold st', Stress.tick; now rewrite Hp).
  rewrite Et, (fire_running st id ok Hr Hp) by lia.
  replace ((Stress._level st + 1 >? Stress.MAX_LEVEL)%Z || negb ok)
    with true.
  2:{ symmetry. apply orb_true_iff. destruct Hok as [Hok | Hok]; [right; now rewrite Hok|].
      left. rewrite Hl', Hok. reflexivity. }
  cbn. unfold Stress.totalAllocMB, Stress.heldMB, Stress.CHUNK_MB. cbn.
  rewrite Hb, levels_length. repeat split; lia.
Qed.

(** * The properties above on the worked scenario *)

(** On the reading screen the scenario fades line 0 out and leaves line 1 as
    an after-image. *)
Example demo_reading_fades :
  g_lineEls (feed 8 (_lockLayout demo_game demo_els (Some 250)) demo_gaze)
  = Some ["0"%string; "0.15"%string; EmptyString].
Proof. vm_compute. reflexivity. Qed.

(** The text train on gaze heights that reach line 1 and come back to
    line 0: the current line stays 1. *)
Example demo_train_stays :
  let tr := train_feed demo_train (map Some demo_heights) in
  _trainCurrentLine tr = Some 1 /\
  map style_opacity (_trainLines tr)
  = ["0.2"%string; "1"%string; "1"%string].
Proof. vm_compute. split; reflexivity. Qed.

(** A stress test in which the third allocation fails: two buffers are
    held, and 30 MB is reported. *)
Example demo_stress_fails :
  let st := Stress.ticks (Stress.start Stress.init) [true; true; false] in
  Stress._running st = false /\ Stress._buffers st = [1%Z; 2%Z] /\
  Stress.totalAllocMB st = 30%Z.
Proof. vm_compute. repeat split; reflexivity. Qed.

Lemma fire_needs_fresh_peak_witness :
  _lastPeakTime demo_locked = Some 0 /\
  valley_times_from 600 (_N demo_locked) demo_calls /\
  Forall2 (fun s armed => step_fires s -> armed = true)
          (trace demo_locked demo_calls)
          (peak_armed false (trace demo_locked demo_calls)).
Proof.
  assert (H0 : _lastPeakTime demo_locked = Some 0) by reflexivity.
  assert (Hv : valley_times_from 600 (_N demo_locked) demo_calls).
  { unfold valley_times_from, demo_calls, demo_samples.
    cbn [calls_of].
    repeat (apply Forall_cons;
            [intro Hp;
             first [ vm_compute in Hp; discriminate Hp
                   | eexists; split;
                     [vm_compute; reflexivity | vm_compute; discriminate] ]
            |]).
    apply Forall_nil. }
  split; [exact H0|]. split; [exact Hv|].
  exact (fire_needs_fresh_peak demo_locked demo_calls H0 Hv).
Defined.

Lemma ring_cursors_witness :
  (0 < MAX_GAZE_ENTRIES)%Z /\
  ring_wf MAX_GAZE_ENTRIES (ring_empty 1800) /\
  let r' := ring_pushes MAX_GAZE_ENTRIES (ring_reset (ring_empty 1800))
              demo_gaze in
  ring_wf MAX_GAZE_ENTRIES r' /\
  ring_gIdx r' = (Z.of_nat (length demo_gaze) mod MAX_GAZE_ENTRIES)%Z /\
  ring_gCount r' = Z.min MAX_GAZE_ENTRIES (Z.of_nat (length demo_gaze)).
Proof.
  assert (H1 : (0 < MAX_GAZE_ENTRIES)%Z) by reflexivity.
  assert (H2 : ring_wf MAX_GAZE_ENTRIES (ring_empty 1800)).
  { unfold ring_wf, ring_empty. cbn [ring_gIdx ring_gCount ring_bufs _gx _gy _gt].
    rewrite repeat_length. unfold MAX_GAZE_ENTRIES. repeat split; lia. }
  split; [exact H1|]. split; [exact H2|].
  exact (ring_cursors MAX_GAZE_ENTRIES (ring_empty 1800) demo_gaze H1 H2).
Defined.

Lemma detector_sees_sliding_window_witness :
  (3 <= 8)%Z /\
  ring_wf 8 (ring_empty 8) /\
  seen 8 (ring_calls 8 (ring_reset (ring_empty 8)) demo_gaze)
  = windows demo_gaze.
Proof.
  assert (H1 : (3 <= 8)%Z) by lia.
  assert (H2 : ring_wf 8 (ring_empty 8)).
  { unfold ring_wf, ring_empty. cbn. repeat split; lia. }
  split; [exact H1|]. split; [exact H2|].
  exact (detector_sees_sliding_window 8 (ring_empty 8) demo_gaze H1 H2).
Defined.

Lemma quiz_duration_spans_ring_witness :
  (0 < 8)%Z /\
  ring_wf 8 (ring_empty 8) /\
  nth_error demo_gaze (length demo_gaze - 1)
  = Some (Some 30, Some 180, Some 1825) /\
  nth_error demo_gaze (length demo_gaze - Nat.min (length demo_gaze) (Z.to_nat 8))
  = Some (Some 500, Some 140, Some 1594) /\
  quiz_durMs 8 (ring_pushes 8 (ring_reset (ring_empty 8)) demo_gaze)
  = Some (sample_t (Some 30, Some 180, Some 1825)
          - sample_t (Some 500, Some 140, Some 1594))%num /\
  quiz_durMs 8 (ring_reset (ring_empty 8)) = None.
Proof.
  assert (H1 : (0 < 8)%Z) by lia.
  assert (H2 : ring_wf 8 (ring_empty 8)).
  { unfold ring_wf, ring_empty. cbn. repeat split; lia. }
  assert (H3 : nth_error demo_gaze (length demo_gaze - 1)
               = Some (Some 30, Some 180, Some 1825)) by reflexivity.
  assert (H4 : nth_error demo_gaze
                 (length demo_gaze - Nat.min (length demo_gaze) (Z.to_nat 8))
               = Some (Some 500, Some 140, Some 1594)) by reflexivity.
  split; [exact H1|]. split; [exact H2|]. split; [exact H3|].
  split; [exact H4|].
  exact (quiz_duration_spans_ring 8 (ring_empty 8) demo_gaze
           (Some 30, Some 180, Some 1825) (Some 500, Some 140, Some 1594)
           H1 H2 H3 H4).
Defined.

Lemma reading_fades_lines_witness :
  g_state demo_game = READING /\
  demo_els <> [] /\
  let g0 := _lockLayout demo_game demo_els (Some 250) in
  let run := run_block (g_detector g0)
               (ring_calls 8 (g_ring demo_game) demo_gaze) in
  let g1 := feed 8 g0 demo_gaze in
  g_state g1 = READING /\
  g_ring g1 = ring_pushes 8 (g_ring demo_game) demo_gaze /\
  g_detector g1 = fst run /\
  g_lineEls g1
  = Some (faded (map el_opacity demo_els)
                (last_of (completed_lines (snd run)))).
Proof.
  assert (H1 : g_state demo_game = READING) by reflexivity.
  assert (H2 : demo_els <> []) by discriminate.
  split; [exact H1|]. split; [exact H2|].
  exact (reading_fades_lines 8 demo_game demo_els (Some 250) demo_gaze H1 H2).
Defined.

Lemma uniform_lines_attribution_witness :
  0 < 40 /\
  (0 < 3)%nat /\
  let d := g_detector (_lockLayout demo_game (uniform_lines 80 40 3)
                         (Some 250)) in
  (forall i, (i < 3)%nat ->
     lineTop 80 40 i + 40 * (1 # 20) < 130
       <= lineTop 80 40 (S i) + 40 * (1 # 20) ->
     _currentLine (_updateLineFromGaze d (Some 130) (Some 1000)) = Some i) /\
  (80 - 40 * (1 # 20) <= 130 <= 80 + 40 * (1 # 20) ->
     _currentLine (_updateLineFromGaze d (Some 130) (Some 1000))
     = Some 0%nat) /\
  (130 < 80 - 40 * (1 # 20) \/ lineTop 80 40 3 + 40 * (1 # 20) < 130 ->
     _updateLineFromGaze d (Some 130) (Some 1000) = d).
Proof.
  assert (H1 : 0 < 40) by reflexivity.
  assert (H2 : (0 < 3)%nat) by lia.
  split; [exact H1|]. split; [exact H2|].
  exact (uniform_lines_attribution demo_game 80 40 3 (Some 250) (Some 1000)
           130 H1 H2).
Defined.

Lemma text_train_one_way_witness :
  (0 < 3)%nat /\
  0 < 40 /\
  let tr := train_feed (train_built 3 (Some 80) (Some 40))
              (map Some demo_heights) in
  let m := furthest_line 80 40 3 demo_heights in
  _trainCurrentLine tr === Some (inject_Z m) /\
  _trainLines tr = shown m 3 /\
  (-1 <= m < Z.of_nat 3)%Z /\
  (m <= furthest_line 80 40 3 (demo_heights ++ demo_later))%Z.
Proof.
  assert (H1 : (0 < 3)%nat) by lia.
  assert (H2 : 0 < 40) by reflexivity.
  split; [exact H1|]. split; [exact H2|].
  exact (text_train_one_way 3 80 40 demo_heights demo_later H1 H2).
Defined.

Lemma text_train_NaN_witness :
  _trainLines demo_train <> [] /\
  let tr1 := _updateTextTrain demo_train NaN in
  _trainCurrentLine tr1 = NaN /\
  Forall (fun l => dataset_op l = Some "0"%string) (_trainLines tr1) /\
  (Forall in_step (_trainLines demo_train) ->
   Forall (fun l => style_opacity l = "0"%string) (_trainLines tr1)) /\
  forall (w h y : Q),
    _trainWrapTop demo_train = Some w -> _trainLineH demo_train = Some h ->
    0 < h -> w <= y ->
    _trainCurrentLine (_updateTextTrain tr1 (Some y))
    === Some (inject_Z (gaze_line w h (length (_trainLines demo_train)) y)).
Proof.
  assert (H1 : _trainLines demo_train <> []) by discriminate.
  split; [exact H1|].
  exact (text_train_NaN demo_train H1).
Defined.

Lemma stress_course_witness :
  Stress._running (Stress.run Stress.init [Stress.Start; Stress.Stop]) = false /\
  (3 <= 30)%nat /\
  let st := Stress.ticks
              (Stress.start
                 (Stress.run Stress.init [Stress.Start; Stress.Stop]))
              (repeat true 3) in
  Stress._running st = true /\
  Stress._level st = Z.of_nat 3 /\
  Stress._buffers st = Stress.levels 3 /\
  forall ok : bool,
    ok = false \/ 3%nat = 30%nat ->
    let st' := Stress.tick st ok in
    Stress._running st' = false /\
    Stress._buffers st' = Stress.levels 3 /\
    Stress.pending st' = [] /\
    Stress.totalAllocMB st' = (Stress.heldMB st' + 10)%Z.
Proof.
  assert (H1 : Stress._running
                 (Stress.run Stress.init [Stress.Start; Stress.Stop]) = false)
    by reflexivity.
  assert (H2 : (3 <= 30)%nat) by lia.
  split; [exact H1|]. split; [exact H2|].
  exact (stress_course [Stress.Start; Stress.Stop] 3 H1 H2).
Defined.
